(** * ai-trading-coach: lifecycle aggregation, metrics recomputation,
      rule detection and discipline scoring

    A shallow embedding of the deterministic core of the repository:

    - [domain/trade_lifecycle.py]   (records and [TradeLifecycle.recompute]),
    - [pipeline/aggregate_lifecycles.py] ([aggregate_fills_to_lifecycles]),
    - [analysis/events.py]          ([detect_events_for_lifecycle],
                                     [detect_events_for_lifecycles]),
    - [reports/generator.py]        ([compute_discipline_score]).

    Modelling conventions.

    - A Python [Decimal] is a rational number of [Q]; its arithmetic is
      taken exact (the 28-digit context rounding of the [decimal] module is
      not modelled).  Comparisons are the boolean ones of [PyDecimal] below.
    - A [datetime] is an integer of [Z]: microseconds since the epoch.
    - A Python [int] is an integer of [Z].
    - [None]-able fields are [option]s.
    - Pydantic models are records; a method that mutates [self] is a
      function returning the new record. *)

From Stdlib Require Import ZArith QArith Qabs List Ascii String DecimalString Bool Lia Lqa.
From Stdlib Require Import Qminmax Permutation Sorted.
Import ListNotations.

Local Open Scope Z_scope.

(* ================================================================== *)
(** * Python primitives *)
(* ================================================================== *)

Module PyDecimal.

(** [a == b], [a < b], [a <= b] on decimals. *)
Definition eqb (a b : Q) : bool := Qeq_bool a b.
Definition leb (a b : Q) : bool := Qle_bool a b.
Definition ltb (a b : Q) : bool := negb (Qle_bool b a).

(** Truthiness of a decimal: [bool(d)] is [d != 0]. *)
Definition truthy (a : Q) : bool := negb (eqb a 0).

(** Truthiness of an optional decimal, as in [if x and ...]. *)
Definition opt_truthy (a : option Q) : bool :=
  match a with
  | Some x => truthy x
  | None => false
  end.

(** Builtin [min(a, b)] and [max(a, b)]: the first argument wins ties. *)
Definition min (a b : Q) : Q := if ltb b a then b else a.
Definition max (a b : Q) : Q := if ltb a b then b else a.

(** Builtin [max(xs)] on a list; [None] stands for the guarded-away
    empty case ([max(xs) if xs else None]). *)
Definition max_list (xs : list Q) : option Q :=
  match xs with
  | [] => None
  | x :: rest => Some (fold_left max rest x)
  end.

(** Builtin [sum(xs, Decimal("0"))]. *)
Definition sum (xs : list Q) : Q := fold_left Qplus xs 0%Q.

End PyDecimal.

Module Py.

(** Builtin [sorted(l, key=key)]: a stable sort on integer keys.  Any
    stable sort computes the same list; this one inserts each element
    before the first element of the sorted tail whose key is not
    smaller. *)
Fixpoint insert_by {A : Type} (key : A -> Z) (x : A) (l : list A) : list A :=
  match l with
  | [] => [x]
  | y :: l' => if key x <=? key y then x :: l else y :: insert_by key x l'
  end.

Definition sorted {A : Type} (key : A -> Z) (l : list A) : list A :=
  fold_right (insert_by key) [] l.

(** The order [sorted] establishes: keys do not decrease. *)
Definition key_le {A : Type} (key : A -> Z) (x y : A) : Prop := key x <= key y.

(** [l[-1]] on a list. *)
Definition last_opt {A : Type} (l : list A) : option A :=
  match rev l with
  | [] => None
  | x :: _ => Some x
  end.

(** [l[-n:]] for [0 < n <= len(l)]. *)
Definition lastn {A : Type} (n : nat) (l : list A) : list A :=
  skipn (List.length l - n)%nat l.

(** [str(n)] and [int(s)] on integers.  [int] is modelled on plain
    decimal numerals with an optional minus sign; every other string is
    a [ValueError], here [None]. *)
Definition str_int (n : Z) : string := NilZero.string_of_int (Z.to_int n).
Definition int (s : string) : option Z := option_map Z.of_int (NilZero.int_of_string s).

(** [s.split(c)] for a one-character separator. *)
Fixpoint split (c : ascii) (s : string) : list string :=
  match s with
  | EmptyString => [EmptyString]
  | String a rest =>
      if Ascii.eqb a c then EmptyString :: split c rest
      else match split c rest with
           | [] => [String a EmptyString]
           | h :: t => String a h :: t
           end
  end.

(** [a or b] on optional decimals: [a] when truthy, else [b]. *)
Definition or_else (a b : option Q) : option Q :=
  if PyDecimal.opt_truthy a then a else b.

End Py.

(* ================================================================== *)
(** * domain/trade_lifecycle.py *)
(* ================================================================== *)

Module PositionSide.
Inductive t := long | short | unknown.
Definition eqb (a b : t) : bool :=
  match a, b with
  | long, long | short, short | unknown, unknown => true
  | _, _ => false
  end.
Definition value (a : t) : string :=
  match a with
  | long => "long"
  | short => "short"
  | unknown => "unknown"
  end.
End PositionSide.

Module Side.
Inductive t := buy | sell.
Definition eqb (a b : t) : bool :=
  match a, b with
  | buy, buy | sell, sell => true
  | _, _ => false
  end.
End Side.

Module TradeSide.
Inductive t := open | close | unknown.
Definition eqb (a b : t) : bool :=
  match a, b with
  | open, open | close, close | unknown, unknown => true
  | _, _ => false
  end.
End TradeSide.

Module Status.
Inductive t := open | closed.
Definition eqb (a b : t) : bool :=
  match a, b with
  | open, open | closed, closed => true
  | _, _ => false
  end.
End Status.

Definition datetime := Z.

Module ExecutionFill.
Record t := mk {
  ts : datetime;
  symbol : string;
  side : Side.t;
  price : Q;
  amount : Q;
  fee_cost : Q;
  trade_side : TradeSide.t;
  reported_profit_usdt : option Q;
  hold_side : PositionSide.t;
  exchange : string;
  trade_id : option string;
  order_id : option string
}.
End ExecutionFill.

Module TradePlan.
Record t := mk {
  planned_entry : option Q;
  planned_stop_loss : option Q;
  planned_take_profit : option Q;
  planned_risk_usdt : option Q;
  leverage : option Q
}.
(** [TradePlan()] *)
Definition default : t := mk None None None None None.
End TradePlan.

Module TradeMetrics.
Record t := mk {
  entry_ts : option datetime;
  exit_ts : option datetime;
  holding_seconds : option Z;
  entry_avg_price : option Q;
  exit_avg_price : option Q;
  max_abs_position_amount : option Q;
  max_abs_notional_usdt : option Q;
  realized_pnl_usdt : option Q;
  realized_pnl_pct : option Q;
  realized_pnl_pct_of_available_margin : option Q;
  total_fees_usdt : option Q;
  total_funding_usdt : option Q;
  available_margin_usdt_at_entry : option Q;
  equity_usdt_at_entry : option Q;
  fills_count : Z;
  adds_count : Z;
  reductions_count : Z
}.
(** [TradeMetrics(fills_count=0)]: every field at its default. *)
Definition default : t :=
  mk None None None None None None None None None None None None None None 0 0 0.
End TradeMetrics.

Module RiskMetrics.
Record t := mk {
  planned_stop_loss : option Q;
  actual_stop_loss : option Q;
  initial_risk_usdt : option Q;
  r_multiple : option Q;
  mae_usdt : option Q;
  mfe_usdt : option Q;
  mae_pct : option Q;
  mfe_pct : option Q
}.
(** [RiskMetrics()] *)
Definition default : t := mk None None None None None None None None.
(** [r.planned_stop_loss = v] *)
Definition set_planned_stop_loss (r : t) (v : option Q) : t :=
  mk v (actual_stop_loss r) (initial_risk_usdt r) (r_multiple r)
     (mae_usdt r) (mfe_usdt r) (mae_pct r) (mfe_pct r).
End RiskMetrics.

Module TradeLifecycle.

Record t := mk {
  lifecycle_id : string;
  exchange : string;
  symbol : string;
  position_side : PositionSide.t;
  fills : list ExecutionFill.t;
  funding_payments_usdt : list (datetime * Q);
  plan : TradePlan.t;
  metrics : TradeMetrics.t;
  risk : RiskMetrics.t;
  status : Status.t
}.

Definition set_metrics (lc : t) (m : TradeMetrics.t) : t :=
  mk (lifecycle_id lc) (exchange lc) (symbol lc) (position_side lc) (fills lc)
     (funding_payments_usdt lc) (plan lc) m (risk lc) (status lc).

Definition set_risk (lc : t) (r : RiskMetrics.t) : t :=
  mk (lifecycle_id lc) (exchange lc) (symbol lc) (position_side lc) (fills lc)
     (funding_payments_usdt lc) (plan lc) (metrics lc) r (status lc).

Definition set_status (lc : t) (s : Status.t) : t :=
  mk (lifecycle_id lc) (exchange lc) (symbol lc) (position_side lc) (fills lc)
     (funding_payments_usdt lc) (plan lc) (metrics lc) (risk lc) s.

(** [lc.fills.append(f)] *)
Definition append_fill (lc : t) (f : ExecutionFill.t) : t :=
  mk (lifecycle_id lc) (exchange lc) (symbol lc) (position_side lc) (fills lc ++ [f])
     (funding_payments_usdt lc) (plan lc) (metrics lc) (risk lc) (status lc).

(** ** The position-tracking loop of [recompute] *)

(** The local variables the loop carries from fill to fill. *)
Record PosState := mkPos {
  pos : Q;
  max_abs_pos : Q;
  avg_entry : Q;
  realized : Q;
  realized_reported : Q;
  has_reported : bool
}.

Definition init_pos : PosState := mkPos 0 0 0 0 0 false.

(** [delta = qty if f.side == "buy" else -qty] *)
Definition fill_delta (f : ExecutionFill.t) : Q :=
  if Side.eqb (ExecutionFill.side f) Side.buy
  then ExecutionFill.amount f
  else (- ExecutionFill.amount f)%Q.

(** [close_qty = min(abs(prev_pos), abs(delta))] *)
Definition close_qty (prev_pos delta : Q) : Q :=
  PyDecimal.min (Qabs prev_pos) (Qabs delta).

(** The test of the "same direction add" branch. *)
Definition same_direction (prev_pos delta : Q) : bool :=
  PyDecimal.eqb prev_pos 0
  || (PyDecimal.ltb 0 prev_pos && PyDecimal.ltb 0 delta)
  || (PyDecimal.ltb prev_pos 0 && PyDecimal.ltb delta 0).

(** One iteration of [for f in fills_sorted]. *)
Definition pos_step (st : PosState) (f : ExecutionFill.t) : PosState :=
  let realized_reported' :=
    match ExecutionFill.reported_profit_usdt f with
    | Some p => (realized_reported st + p)%Q
    | None => realized_reported st
    end in
  let has_reported' :=
    match ExecutionFill.reported_profit_usdt f with
    | Some _ => true
    | None => has_reported st
    end in
  let px := ExecutionFill.price f in
  let delta := fill_delta f in
  let prev_pos := pos st in
  if same_direction prev_pos delta then
    let new_pos := (prev_pos + delta)%Q in
    let avg :=
      if PyDecimal.eqb prev_pos 0 then px
      else ((avg_entry st * Qabs prev_pos + px * Qabs delta) / Qabs new_pos)%Q in
    mkPos new_pos (PyDecimal.max (max_abs_pos st) (Qabs new_pos)) avg
          (realized st) realized_reported' has_reported'
  else
    let cq := close_qty prev_pos delta in
    let realized' :=
      if PyDecimal.ltb 0 prev_pos && PyDecimal.ltb delta 0
      then (realized st + (px - avg_entry st) * cq)%Q
      else if PyDecimal.ltb prev_pos 0 && PyDecimal.ltb 0 delta
      then (realized st + (avg_entry st - px) * cq)%Q
      else realized st in
    let pos1 :=
      if PyDecimal.ltb 0 prev_pos then (prev_pos - cq)%Q else (prev_pos + cq)%Q in
    let remaining := (Qabs delta - cq)%Q in
    let pos2 :=
      if PyDecimal.ltb 0 remaining
      then ((if PyDecimal.ltb 0 delta then 1 else -1) * remaining)%Q
      else pos1 in
    let avg :=
      if PyDecimal.ltb 0 remaining then px else avg_entry st in
    mkPos pos2 (PyDecimal.max (max_abs_pos st) (Qabs pos2)) avg
          realized' realized_reported' has_reported'.

Definition run_positions (fs : list ExecutionFill.t) : PosState :=
  fold_left pos_step fs init_pos.

(** The inner function [wavg_price_by_trade_side]. *)
Definition wavg_price_by_trade_side
    (fills_sorted : list ExecutionFill.t) (ts : TradeSide.t) : option Q :=
  let '(px_qty, qty) :=
    fold_left
      (fun (acc : Q * Q) f =>
         if negb (TradeSide.eqb (ExecutionFill.trade_side f) ts) then acc
         else (fst acc + ExecutionFill.price f * ExecutionFill.amount f,
               snd acc + ExecutionFill.amount f)%Q)
      fills_sorted (0%Q, 0%Q) in
  if PyDecimal.eqb qty 0 then None else Some (px_qty / qty)%Q.

(** The counting loop: [(adds, reductions)]. *)
Definition count_trade_sides (fs : list ExecutionFill.t) : Z * Z :=
  fold_left
    (fun (acc : Z * Z) f =>
       match ExecutionFill.trade_side f with
       | TradeSide.open => (fst acc + 1, snd acc)
       | TradeSide.close => (fst acc, snd acc + 1)
       | TradeSide.unknown => acc
       end)
    fs (0, 0).

(** [base_realized = realized_reported if has_reported else realized] *)
Definition base_realized (st : PosState) : Q :=
  if has_reported st then realized_reported st else realized st.

Definition fills_sorted (lc : t) : list ExecutionFill.t :=
  Py.sorted ExecutionFill.ts (fills lc).

(** [x / d * 100] under the guard [if d and d != 0], else [None]. *)
Definition pct_of (x : Q) (d : option Q) : option Q :=
  match d with
  | Some n =>
      if PyDecimal.truthy n && negb (PyDecimal.eqb n 0)
      then Some (x / n * 100)%Q else None
  | None => None
  end.

(** The [TradeMetrics(...)] that [recompute] builds when there are fills,
    from the five things it reads: the fills, the funding payments, the
    status and the two snapshot fields of the previous metrics. *)
Definition derive_metrics (fills0 : list ExecutionFill.t)
    (funding : list (datetime * Q)) (st0 : Status.t)
    (margin equity : option Q) : TradeMetrics.t :=
  let fs := Py.sorted ExecutionFill.ts fills0 in
  let closed := Status.eqb st0 Status.closed in
  let entry_ts := option_map ExecutionFill.ts (hd_error fs) in
  let exit_ts :=
    if closed then option_map ExecutionFill.ts (Py.last_opt fs) else None in
  let holding_seconds :=
    match entry_ts, exit_ts with
    | Some a, Some b => Some (Z.quot (b - a) 1000000)
    | _, _ => None
    end in
  let total_fees := PyDecimal.sum (map ExecutionFill.fee_cost fs) in
  let total_funding := PyDecimal.sum (map snd funding) in
  let notionals :=
    map (fun f => Qabs (ExecutionFill.amount f * ExecutionFill.price f)) fs in
  let max_abs_notional := PyDecimal.max_list notionals in
  let st := run_positions fs in
  let max_abs_amount :=
    if PyDecimal.eqb (max_abs_pos st) 0 then None else Some (max_abs_pos st) in
  let entry_avg := wavg_price_by_trade_side fs TradeSide.open in
  let exit_avg :=
    if closed then wavg_price_by_trade_side fs TradeSide.close else None in
  let pnl := (base_realized st - total_fees + total_funding)%Q in
  let realized_pnl := if closed then Some pnl else None in
  let realized_pct := if closed then pct_of pnl max_abs_notional else None in
  let realized_pct_of_margin := if closed then pct_of pnl margin else None in
  TradeMetrics.mk entry_ts exit_ts holding_seconds entry_avg exit_avg
    max_abs_amount max_abs_notional realized_pnl realized_pct
    realized_pct_of_margin (Some total_fees) (Some total_funding)
    margin equity
    (Z.of_nat (List.length fs)) (fst (count_trade_sides fs))
    (snd (count_trade_sides fs)).

(** ** [TradeLifecycle.recompute] *)
Definition recompute (self : t) : t :=
  match fills self with
  | [] => set_metrics self TradeMetrics.default
  | _ :: _ =>
      let m :=
        derive_metrics (fills self) (funding_payments_usdt self) (status self)
          (TradeMetrics.available_margin_usdt_at_entry (metrics self))
          (TradeMetrics.equity_usdt_at_entry (metrics self)) in
      set_risk (set_metrics self m)
        (RiskMetrics.set_planned_stop_loss (risk self)
           (TradePlan.planned_stop_loss (plan self)))
  end.

End TradeLifecycle.

(* ================================================================== *)
(** * pipeline/aggregate_lifecycles.py *)
(* ================================================================== *)

Module Aggregate.

Local Open Scope string_scope.

Record AggregationResult := mkResult {
  lifecycles : list TradeLifecycle.t;
  warnings : list string
}.

(** The mutable locals of [aggregate_fills_to_lifecycles]: the two
    dictionaries keyed by [PositionSide] and the two output lists. *)
Record AggState := mkState {
  qty_by_side : PositionSide.t -> Q;
  current_by_side : PositionSide.t -> option TradeLifecycle.t;
  out_lifecycles : list TradeLifecycle.t;
  out_warnings : list string
}.

(** [d[ps] = v] on a dictionary whose keys are the three sides. *)
Definition upd {A : Type} (d : PositionSide.t -> A) (ps : PositionSide.t) (v : A)
  : PositionSide.t -> A :=
  fun k => if PositionSide.eqb k ps then v else d k.

Definition init_state : AggState :=
  mkState (fun _ => 0%Q) (fun _ => None) [] [].

(** The signed quantity the main loop hands to [_append]: [+amount] for
    [open], [-amount] for [close], and [+amount] for an untagged fill. *)
Definition signed_delta (f : ExecutionFill.t) : Q :=
  match ExecutionFill.trade_side f with
  | TradeSide.open => ExecutionFill.amount f
  | TradeSide.close => (- ExecutionFill.amount f)%Q
  | TradeSide.unknown => ExecutionFill.amount f
  end.

Section WithContext.

(** [datetime.isoformat], used only to build identifiers and warning
  texts. *)
Variable isoformat : datetime -> string.
Variables exchange symbol : string.

Definition _start (ps : PositionSide.t) (f : ExecutionFill.t) : TradeLifecycle.t :=
  TradeLifecycle.mk
    (exchange ++ ":" ++ symbol ++ ":" ++ PositionSide.value ps ++ ":"
       ++ isoformat (ExecutionFill.ts f))
    exchange symbol ps [f] [] TradePlan.default TradeMetrics.default
    RiskMetrics.default Status.open.

Definition _append (st : AggState) (ps : PositionSide.t) (f : ExecutionFill.t)
    (delta_qty : Q) : AggState :=
  let prev := qty_by_side st ps in
  let q := (qty_by_side st ps + delta_qty)%Q in
  match current_by_side st ps with
  | None =>
      if PyDecimal.eqb prev 0 && PyDecimal.ltb 0 delta_qty && PyDecimal.ltb 0 q then
        mkState (upd (qty_by_side st) ps q)
                (upd (current_by_side st) ps (Some (_start ps f)))
                (out_lifecycles st) (out_warnings st)
      else if PyDecimal.ltb delta_qty 0 then
        let tmp :=
          TradeLifecycle.recompute
            (TradeLifecycle.set_status (_start ps f) Status.closed) in
        mkState (upd (qty_by_side st) ps 0%Q)
                (upd (current_by_side st) ps None)
                (out_lifecycles st ++ [tmp])
                (out_warnings st ++
                   ["Symbol " ++ symbol ++ " (" ++ PositionSide.value ps
                      ++ "): saw close before open at "
                      ++ isoformat (ExecutionFill.ts f)
                      ++ " (window incomplete)."])
      else
        mkState (upd (qty_by_side st) ps q)
                (upd (current_by_side st) ps (Some (_start ps f)))
                (out_lifecycles st)
                (out_warnings st ++
                   ["Symbol " ++ symbol ++ " (" ++ PositionSide.value ps
                      ++ "): lifecycle started mid-position at "
                      ++ isoformat (ExecutionFill.ts f) ++ "."])
  | Some cur =>
      let cur1 := TradeLifecycle.append_fill cur f in
      if PyDecimal.leb q 0 then
        let cur2 :=
          TradeLifecycle.recompute (TradeLifecycle.set_status cur1 Status.closed) in
        mkState (upd (qty_by_side st) ps 0%Q)
                (upd (current_by_side st) ps None)
                (out_lifecycles st ++ [cur2])
                (out_warnings st)
      else
        mkState (upd (qty_by_side st) ps q)
                (upd (current_by_side st) ps (Some cur1))
                (out_lifecycles st) (out_warnings st)
  end.

(** The body of [for f in fs]. *)
Definition feed (st : AggState) (f : ExecutionFill.t) : AggState :=
  let ps := ExecutionFill.hold_side f in
  match ExecutionFill.trade_side f with
  | TradeSide.open => _append st ps f (ExecutionFill.amount f)
  | TradeSide.close => _append st ps f (- ExecutionFill.amount f)%Q
  | TradeSide.unknown =>
      let st1 :=
        mkState (qty_by_side st) (current_by_side st) (out_lifecycles st)
                (out_warnings st ++
                   ["Symbol " ++ symbol
                      ++ ": missing tradeSide; cannot reliably aggregate (hedge_mode)."]) in
      _append st1 ps f (ExecutionFill.amount f)
  end.

(** The body of the closing [for ps, cur in current_by_side.items()]. *)
Definition flush (st : AggState) (ps : PositionSide.t) : AggState :=
  match current_by_side st ps with
  | None => st
  | Some cur =>
      mkState (qty_by_side st) (current_by_side st)
              (out_lifecycles st ++
                 [TradeLifecycle.recompute (TradeLifecycle.set_status cur Status.open)])
              (out_warnings st)
  end.

Definition aggregate_fills_to_lifecycles (fills : list ExecutionFill.t)
  : AggregationResult :=
  let fs := Py.sorted ExecutionFill.ts fills in
  let st := fold_left feed fs init_state in
  let st' :=
    fold_left flush [PositionSide.long; PositionSide.short; PositionSide.unknown] st in
  mkResult (out_lifecycles st') (out_warnings st').

End WithContext.

(** The bucket's signed-quantity path of a fill list: the running
    quantity after each fill, by the aggregator's own deltas, from 0. *)
Fixpoint path_from (q : Q) (fs : list ExecutionFill.t) : list Q :=
  match fs with
  | [] => []
  | f :: rest => (q + signed_delta f)%Q :: path_from (q + signed_delta f)%Q rest
  end.

Definition qty_path (fs : list ExecutionFill.t) : list Q := path_from 0%Q fs.

(** The running quantity after the last fill. *)
Definition running_qty (fs : list ExecutionFill.t) : Q :=
  fold_left (fun q f => (q + signed_delta f)%Q) fs 0%Q.

End Aggregate.

(* ================================================================== *)
(** * analysis/events.py *)
(* ================================================================== *)

Module Events.

Local Open Scope string_scope.

Module EventLevel.
Inductive t := P0 | P1 | P2.
Definition eqb (a b : t) : bool :=
    match a, b with
    | P0, P0 | P1, P1 | P2, P2 => true
    | _, _ => false
    end.
End EventLevel.

Module TradeEventType.
Inductive t :=
  | open_completed
  | close_completed
  | stop_loss_triggered
  | big_loss_pct_equity
  | consecutive_losses
  | high_leverage_used
  | night_trading_us_eastern.
Definition eqb (a b : t) : bool :=
    match a, b with
    | open_completed, open_completed
    | close_completed, close_completed
    | stop_loss_triggered, stop_loss_triggered
    | big_loss_pct_equity, big_loss_pct_equity
    | consecutive_losses, consecutive_losses
    | high_leverage_used, high_leverage_used
    | night_trading_us_eastern, night_trading_us_eastern => true
    | _, _ => false
    end.
Definition value (a : t) : string :=
    match a with
    | open_completed => "open_completed"
    | close_completed => "close_completed"
    | stop_loss_triggered => "stop_loss_triggered"
    | big_loss_pct_equity => "big_loss_pct_equity"
    | consecutive_losses => "consecutive_losses"
    | high_leverage_used => "high_leverage_used"
    | night_trading_us_eastern => "night_trading_us_eastern"
    end.
End TradeEventType.

Module EvidenceFillRef.
Record t := mk {
    ts : datetime;
    side : Side.t;
    price : Q;
    amount : Q;
    trade_id : option string;
    order_id : option string
  }.
End EvidenceFillRef.

(** One row of the [window] list in the consecutive-losses evidence. *)
Module WindowRow.
Record t := mk {
    lifecycle_id : string;
    symbol : string;
    position_side : string;
    exit_ts : option datetime;
    realized_pnl_usdt : option Q
  }.
End WindowRow.

(** The [evidence] dictionary, one constructor per shape the detectors
    build.  Decimals and timestamps are kept as values where the source
    stores their [str()] / [isoformat()] rendering. *)
Inductive Evidence :=
| EvFill (fill : EvidenceFillRef.t)
| EvStopLoss (planned_stop_loss : Q) (trigger_fill : EvidenceFillRef.t)
             (comparison : string)
| EvBigLoss (realized_pnl_usdt base_balance_usdt_at_entry : Q)
            (base_balance_source : option string)
            (loss_pct_of_base_balance threshold_pct : Q) (comparison : string)
| EvHighLeverage (max_abs_notional_usdt base_balance_usdt_at_entry : Q)
                 (base_balance_source : option string)
                 (effective_leverage threshold : Q) (comparison : string)
| EvNight (entry_ts_utc entry_ts_us_eastern : datetime)
          (window_start window_end timezone comparison : string)
| EvConsecutive (n : Z) (window : list WindowRow.t) (comparison : string).

(** The texts [name_zh], [definition_zh] and [logic_zh] are looked up in
    the constant catalogue by [event_type] and are left out. *)
Module TradeEvent.
Record t := mk {
    event_id : string;
    event_type : TradeEventType.t;
    level : EventLevel.t;
    lifecycle_id : string;
    symbol : string;
    position_side : PositionSide.t;
    occurred_at : datetime;
    evidence : Evidence
  }.
End TradeEvent.

Definition _fills_sorted (lc : TradeLifecycle.t) : list ExecutionFill.t :=
  Py.sorted ExecutionFill.ts (TradeLifecycle.fills lc).

Definition _fill_ref (f : ExecutionFill.t) : EvidenceFillRef.t :=
  EvidenceFillRef.mk (ExecutionFill.ts f) (ExecutionFill.side f)
    (ExecutionFill.price f) (ExecutionFill.amount f)
    (ExecutionFill.trade_id f) (ExecutionFill.order_id f).

(** An event of [lc] whose id is [<lifecycle_id>:<event_type>]. *)
Definition mk_event (lc : TradeLifecycle.t) (ty : TradeEventType.t)
    (lvl : EventLevel.t) (at_ : datetime) (ev : Evidence) : TradeEvent.t :=
  TradeEvent.mk
    (TradeLifecycle.lifecycle_id lc ++ ":" ++ TradeEventType.value ty)
    ty lvl (TradeLifecycle.lifecycle_id lc) (TradeLifecycle.symbol lc)
    (TradeLifecycle.position_side lc) at_ ev.

(** The test of the stop-loss loop body: the fill is on the exit side
    and its price crosses the planned stop. *)
Definition stop_hit (ps : PositionSide.t) (planned_sl : Q) (f : ExecutionFill.t)
  : bool :=
  let entry_side := if PositionSide.eqb ps PositionSide.long then Side.buy else Side.sell in
  let exit_side := if Side.eqb entry_side Side.buy then Side.sell else Side.buy in
  if negb (Side.eqb (ExecutionFill.side f) exit_side) then false
  else if PositionSide.eqb ps PositionSide.long
          && PyDecimal.leb (ExecutionFill.price f) planned_sl then true
  else if PositionSide.eqb ps PositionSide.short
          && PyDecimal.leb planned_sl (ExecutionFill.price f) then true
  else false.

(** [(int(x) for x in s.split(":"))] unpacked into two names. *)
Definition parse_hm (s : string) : option (Z * Z) :=
  match Py.split ":"%char s with
  | [a; b] =>
      match Py.int a, Py.int b with
      | Some h, Some m => Some (h, m)
      | _, _ => None
      end
  | _ => None
  end.

Definition usec_per_minute : Z := 60000000.
Definition usec_per_hour : Z := 3600000000.

(** [.hour] and [.minute] of a wall-clock time given in microseconds. *)
Definition hour_of (local : datetime) : Z := (local / usec_per_hour) mod 24.
Definition minute_of (local : datetime) : Z := (local / usec_per_minute) mod 60.

(** The thresholds and windows passed by keyword. *)
Record Config := mkConfig {
  big_loss_threshold_pct_equity : Q;
  consecutive_losses_n : Z;
  high_leverage_threshold : Q;
  us_eastern_night_window : string * string
}.

Definition default_config : Config := mkConfig 5 3 10 ("22:00", "06:00").

(** [lc.metrics.available_margin_usdt_at_entry or lc.metrics.equity_usdt_at_entry] *)
Definition base_balance (lc : TradeLifecycle.t) : option Q :=
  Py.or_else (TradeMetrics.available_margin_usdt_at_entry (TradeLifecycle.metrics lc))
             (TradeMetrics.equity_usdt_at_entry (TradeLifecycle.metrics lc)).

Definition base_balance_source (lc : TradeLifecycle.t) : option string :=
  match TradeMetrics.available_margin_usdt_at_entry (TradeLifecycle.metrics lc) with
  | Some _ => Some "available_margin_usdt_at_entry"
  | None =>
      match TradeMetrics.equity_usdt_at_entry (TradeLifecycle.metrics lc) with
      | Some _ => Some "equity_usdt_at_entry"
      | None => None
      end
  end.

(** [x or d] on an optional timestamp (a [datetime] is always truthy). *)
Definition ts_or (x : option datetime) (d : datetime) : datetime :=
  match x with
  | Some t => t
  | None => d
  end.

(** ** The rules of [detect_events_for_lifecycle], in source order.
    Each takes the recomputed lifecycle and yields zero or one event. *)

Definition close_completed_rule (lc : TradeLifecycle.t) (last : ExecutionFill.t)
  : list TradeEvent.t :=
  if Status.eqb (TradeLifecycle.status lc) Status.closed then
    [mk_event lc TradeEventType.close_completed EventLevel.P2
              (ExecutionFill.ts last) (EvFill (_fill_ref last))]
  else [].

Definition stop_loss_rule (lc : TradeLifecycle.t) (fills : list ExecutionFill.t)
  : list TradeEvent.t :=
  match TradePlan.planned_stop_loss (TradeLifecycle.plan lc) with
  | None => []
  | Some planned_sl =>
      match find (stop_hit (TradeLifecycle.position_side lc) planned_sl) fills with
      | None => []
      | Some trigger_fill =>
          [mk_event lc TradeEventType.stop_loss_triggered EventLevel.P0
             (ExecutionFill.ts trigger_fill)
             (EvStopLoss planned_sl (_fill_ref trigger_fill)
                (if PositionSide.eqb (TradeLifecycle.position_side lc) PositionSide.long
                 then "price <= planned_stop_loss"
                 else "price >= planned_stop_loss"))]
      end
  end.

Definition big_loss_rule (cfg : Config) (lc : TradeLifecycle.t)
    (last : ExecutionFill.t) : list TradeEvent.t :=
  match TradeMetrics.realized_pnl_usdt (TradeLifecycle.metrics lc), base_balance lc with
  | Some pnl, Some base =>
      if PyDecimal.ltb 0 base then
        let loss_pct := (Qabs pnl / base * 100)%Q in
        if PyDecimal.ltb pnl 0
           && PyDecimal.leb (big_loss_threshold_pct_equity cfg) loss_pct then
          [mk_event lc TradeEventType.big_loss_pct_equity EventLevel.P0
             (ts_or (TradeMetrics.exit_ts (TradeLifecycle.metrics lc))
                    (ExecutionFill.ts last))
             (EvBigLoss pnl base (base_balance_source lc) loss_pct
                (big_loss_threshold_pct_equity cfg)
                "loss_pct_of_base_balance >= threshold_pct AND realized_pnl_usdt < 0")]
        else []
      else []
  | _, _ => []
  end.

Definition high_leverage_rule (cfg : Config) (lc : TradeLifecycle.t)
    (first : ExecutionFill.t) : list TradeEvent.t :=
  match TradeMetrics.max_abs_notional_usdt (TradeLifecycle.metrics lc), base_balance lc with
  | Some notional, Some base =>
      if PyDecimal.ltb 0 base then
        let effective_lev := (notional / base)%Q in
        if PyDecimal.leb (high_leverage_threshold cfg) effective_lev then
          [mk_event lc TradeEventType.high_leverage_used EventLevel.P1
             (ts_or (TradeMetrics.entry_ts (TradeLifecycle.metrics lc))
                    (ExecutionFill.ts first))
             (EvHighLeverage notional base (base_balance_source lc) effective_lev
                (high_leverage_threshold cfg) "effective_leverage >= threshold")]
        else []
      else []
  | _, _ => []
  end.

Section WithZone.

(** [entry_ts.astimezone(ZoneInfo("America/New_York"))] is the instant
  shifted by the zone's UTC offset at that instant.  The offset (in
  microseconds) comes from the time-zone database; [None] stands for
  every way the conversion can fail: [ZoneInfo] could not be
  imported, or the [try] block raised. *)
Variable utcoffset_eastern : datetime -> option Z.

Definition night_trading_rule (cfg : Config) (lc : TradeLifecycle.t)
    (first : ExecutionFill.t) : list TradeEvent.t :=
  let entry_ts :=
    ts_or (TradeMetrics.entry_ts (TradeLifecycle.metrics lc)) (ExecutionFill.ts first) in
  match utcoffset_eastern entry_ts with
  | None => []
  | Some off =>
      let entry_eastern := entry_ts + off in
      let '(start_s, end_s) := us_eastern_night_window cfg in
      match parse_hm start_s, parse_hm end_s with
      | Some (start_h, start_m), Some (end_h, end_m) =>
          let local_h := hour_of entry_eastern in
          let local_m := minute_of entry_eastern in
          let in_late :=
            ((start_h <? local_h) || ((local_h =? start_h) && (start_m <=? local_m)))%Z in
          let in_early :=
            ((local_h <? end_h) || ((local_h =? end_h) && (local_m <=? end_m)))%Z in
          if in_late || in_early then
            [mk_event lc TradeEventType.night_trading_us_eastern EventLevel.P1
               entry_ts
               (EvNight entry_ts entry_eastern start_s end_s "America/New_York"
                  "local_time >= start OR local_time <= end (cross-day window, inclusive end)")]
          else []
      | _, _ => []
      end
  end.

(** ** [detect_events_for_lifecycle]: the events it returns. *)
Definition detect_events_for_lifecycle (cfg : Config) (lc0 : TradeLifecycle.t)
  : list TradeEvent.t :=
  match TradeLifecycle.fills lc0 with
  | [] => []
  | _ :: _ =>
      let lc := TradeLifecycle.recompute lc0 in
      match _fills_sorted lc with
      | [] => []
      | first :: rest =>
          let last := List.last rest first in
          [mk_event lc TradeEventType.open_completed EventLevel.P2
             (ExecutionFill.ts first) (EvFill (_fill_ref first))]
          ++ close_completed_rule lc last
          ++ stop_loss_rule lc (first :: rest)
          ++ big_loss_rule cfg lc last
          ++ high_leverage_rule cfg lc first
          ++ night_trading_rule cfg lc first
      end
  end.

(** The lifecycle as [detect_events_for_lifecycle] leaves it: it calls
  [lc.recompute()] unless the fill list is empty. *)
Definition detect_events_effect (lc0 : TradeLifecycle.t) : TradeLifecycle.t :=
  match TradeLifecycle.fills lc0 with
  | [] => lc0
  | _ :: _ => TradeLifecycle.recompute lc0
  end.

(** ** The cross-lifecycle part of [detect_events_for_lifecycles] *)

(** The list comprehension [closed]. *)
Definition has_exit_and_pnl (lc : TradeLifecycle.t) : bool :=
  match TradeMetrics.exit_ts (TradeLifecycle.metrics lc),
        TradeMetrics.realized_pnl_usdt (TradeLifecycle.metrics lc) with
  | Some _, Some _ => true
  | _, _ => false
  end.

(** The sort key [x.metrics.exit_ts] (present on every filtered item). *)
Definition exit_key (lc : TradeLifecycle.t) : Z :=
  ts_or (TradeMetrics.exit_ts (TradeLifecycle.metrics lc)) 0.

(** [(w.metrics.realized_pnl_usdt or Decimal("0")) < 0] *)
Definition is_loss (w : TradeLifecycle.t) : bool :=
  PyDecimal.ltb
    (match Py.or_else (TradeMetrics.realized_pnl_usdt (TradeLifecycle.metrics w))
                      (Some 0%Q) with
     | Some p => p
     | None => 0%Q
     end) 0.

Definition window_row (w : TradeLifecycle.t) : WindowRow.t :=
  WindowRow.mk (TradeLifecycle.lifecycle_id w) (TradeLifecycle.symbol w)
    (PositionSide.value (TradeLifecycle.position_side w))
    (TradeMetrics.exit_ts (TradeLifecycle.metrics w))
    (TradeMetrics.realized_pnl_usdt (TradeLifecycle.metrics w)).

Definition closed_sorted (lcs : list TradeLifecycle.t) : list TradeLifecycle.t :=
  Py.sorted exit_key (filter has_exit_and_pnl lcs).

Definition consecutive_losses_rule (cfg : Config) (lcs : list TradeLifecycle.t)
  : list TradeEvent.t :=
  let n := consecutive_losses_n cfg in
  let cs := closed_sorted lcs in
  if ((2 <=? n) && (n <=? Z.of_nat (List.length cs)))%Z then
    let window := Py.lastn (Z.to_nat n) cs in
    if forallb is_loss window then
      match Py.last_opt window with
      | None => []
      | Some last =>
          [TradeEvent.mk
             (TradeLifecycle.lifecycle_id last ++ ":"
                ++ TradeEventType.value TradeEventType.consecutive_losses ++ ":"
                ++ Py.str_int n)
             TradeEventType.consecutive_losses EventLevel.P0
             (TradeLifecycle.lifecycle_id last) (TradeLifecycle.symbol last)
             (TradeLifecycle.position_side last) (exit_key last)
             (EvConsecutive n (map window_row window)
                "last_n_realized_pnl_usdt_all < 0")]
      end
    else []
  else [].

(** ** [detect_events_for_lifecycles] *)
Definition detect_events_for_lifecycles (cfg : Config)
    (lifecycles : list TradeLifecycle.t) : list TradeEvent.t :=
  (* for lc in lcs: lc.recompute() *)
  let lcs1 := map TradeLifecycle.recompute lifecycles in
  (* per-lifecycle events; each call recomputes its lifecycle again *)
  let out := flat_map (detect_events_for_lifecycle cfg) lcs1 in
  let lcs2 := map detect_events_effect lcs1 in
  out ++ consecutive_losses_rule cfg lcs2.

End WithZone.

End Events.

(* ================================================================== *)
(** * reports/generator.py *)
(* ================================================================== *)

Module Generator.

(** The [breakdown] dictionary has the four fixed keys
    ["base"], ["P0"], ["P1"], ["P2"]. *)
Record Breakdown := mkBreakdown {
  base : Z;
  P0 : Z;
  P1 : Z;
  P2 : Z
}.

Record DisciplineScore := mkScore {
  score : Z;
  breakdown : Breakdown
}.

(** The loop body of [compute_discipline_score] on [(score, breakdown)]. *)
Definition score_step (acc : Z * Breakdown) (e : Events.TradeEvent.t) : Z * Breakdown :=
  let '(sc, bd) := acc in
  match Events.TradeEvent.level e with
  | Events.EventLevel.P0 => (sc - 20, mkBreakdown (base bd) (P0 bd - 20) (P1 bd) (P2 bd))
  | Events.EventLevel.P1 => (sc - 8, mkBreakdown (base bd) (P0 bd) (P1 bd - 8) (P2 bd))
  | Events.EventLevel.P2 => (sc, mkBreakdown (base bd) (P0 bd) (P1 bd) (P2 bd + 0))
  end.

Definition compute_discipline_score (events : list Events.TradeEvent.t)
  : DisciplineScore :=
  let '(sc, bd) := fold_left score_step events (100, mkBreakdown 100 0 0 0) in
  mkScore (if sc <? 0 then 0 else sc) bd.

(** The number of events of a severity, as the specification counts them. *)
Definition count_level (lvl : Events.EventLevel.t) (events : list Events.TradeEvent.t)
  : Z :=
  Z.of_nat
    (List.length
       (filter (fun e => Events.EventLevel.eqb (Events.TradeEvent.level e) lvl) events)).

End Generator.

(* ================================================================== *)
(** * Vocabulary of the specification *)
(* ================================================================== *)

Module Spec.

(** The exchange-reported profit values carried by a fill list, in order. *)
Definition reported_profits (fs : list ExecutionFill.t) : list Q :=
  flat_map
    (fun f =>
       match ExecutionFill.reported_profit_usdt f with
       | Some p => [p]
       | None => []
       end)
    fs.

(** At least one fill carries an exchange-reported profit. *)
Definition any_reported (fs : list ExecutionFill.t) : bool :=
  existsb
    (fun f =>
       match ExecutionFill.reported_profit_usdt f with
       | Some _ => true
       | None => false
       end)
    fs.

(** The same fill with its exchange-reported profit erased. *)
Definition without_report (f : ExecutionFill.t) : ExecutionFill.t :=
  ExecutionFill.mk (ExecutionFill.ts f) (ExecutionFill.symbol f) (ExecutionFill.side f)
    (ExecutionFill.price f) (ExecutionFill.amount f) (ExecutionFill.fee_cost f)
    (ExecutionFill.trade_side f) None (ExecutionFill.hold_side f)
    (ExecutionFill.exchange f) (ExecutionFill.trade_id f) (ExecutionFill.order_id f).

(** Two loop states that agree on the position tracking: position,
    high-water mark, average entry and internal realized total. *)
Definition same_tracking (a b : TradeLifecycle.PosState) : Prop :=
  TradeLifecycle.pos a = TradeLifecycle.pos b
  /\ TradeLifecycle.max_abs_pos a = TradeLifecycle.max_abs_pos b
  /\ TradeLifecycle.avg_entry a = TradeLifecycle.avg_entry b
  /\ TradeLifecycle.realized a = TradeLifecycle.realized b.

(** A fill on the exit side whose price crosses the planned stop:
    a sell at or below it for a long, a buy at or above it for a short. *)
Definition crosses_stop (ps : PositionSide.t) (stop : Q) (f : ExecutionFill.t) : Prop :=
  match ps with
  | PositionSide.long =>
      ExecutionFill.side f = Side.sell /\ (ExecutionFill.price f <= stop)%Q
  | PositionSide.short =>
      ExecutionFill.side f = Side.buy /\ (stop <= ExecutionFill.price f)%Q
  | PositionSide.unknown => False
  end.

(** Minutes since local midnight of a wall-clock time in microseconds. *)
Definition minute_of_day (local : datetime) : Z :=
  (local / Events.usec_per_minute) mod 1440.

(** The cross-midnight window [[22:00, 06:00]], both ends included, on
    minutes since midnight. *)
Definition in_night_window (minute_of_day : Z) : Prop :=
  22 * 60 <= minute_of_day \/ minute_of_day <= 6 * 60.

(** An event list contains an event of a given type. *)
Definition fires (ty : Events.TradeEventType.t) (events : list Events.TradeEvent.t)
  : Prop :=
  exists e, In e events /\ Events.TradeEvent.event_type e = ty.

(** How many events of a given type an event list contains. *)
Definition count_type (ty : Events.TradeEventType.t)
    (events : list Events.TradeEvent.t) : nat :=
  List.length
    (filter (fun e => Events.TradeEventType.eqb (Events.TradeEvent.event_type e) ty)
            events).

(** The realized PnL of a recomputed lifecycle is a loss. *)
Definition loss (lc : TradeLifecycle.t) : Prop :=
  exists p, TradeMetrics.realized_pnl_usdt (TradeLifecycle.metrics lc) = Some p
            /\ (p < 0)%Q.

(** A quantity path that is not negative after the first fill and
    strictly positive after every later one. *)
Definition nonneg_then_positive (path : list Q) : Prop :=
  match path with
  | [] => True
  | q :: rest => (0 <= q)%Q /\ Forall (fun x => (0 < x)%Q) rest
  end.

(** What holds of the quantity path of a lifecycle the aggregator emits:
    a closed one ends at or below zero and is positive in between; an
    open one stays positive after its first fill. *)
Definition emitted_path_ok (lc : TradeLifecycle.t) : Prop :=
  let path := Aggregate.qty_path (TradeLifecycle.fills lc) in
  (TradeLifecycle.status lc = Status.closed ->
     exists init q, path = init ++ [q] /\ (q <= 0)%Q /\ nonneg_then_positive init)
  /\ (TradeLifecycle.status lc = Status.open ->
        path <> [] /\ nonneg_then_positive path).

(** The in-progress lifecycle of a bucket agrees with the bucket counter. *)
Definition in_progress_ok (cur : TradeLifecycle.t) (qty : Q) : Prop :=
  TradeLifecycle.status cur = Status.open
  /\ TradeLifecycle.fills cur <> []
  /\ nonneg_then_positive (Aggregate.qty_path (TradeLifecycle.fills cur))
  /\ qty = Aggregate.running_qty (TradeLifecycle.fills cur).

(** The loop invariant of the aggregator. *)
Definition agg_invariant (st : Aggregate.AggState) : Prop :=
  (forall ps,
     match Aggregate.current_by_side st ps with
     | Some cur => in_progress_ok cur (Aggregate.qty_by_side st ps)
     | None => Aggregate.qty_by_side st ps = 0%Q
     end)
  /\ Forall emitted_path_ok (Aggregate.out_lifecycles st).

End Spec.

(* ================================================================== *)
(** * reports/generator.py: event statistics *)
(* ================================================================== *)

Module ReportStats.

Local Open Scope string_scope.

(** [EventLevel.value]: the string each member of the enum stands for. *)
Definition level_value (l : Events.EventLevel.t) : string :=
  match l with
  | Events.EventLevel.P0 => "P0"
  | Events.EventLevel.P1 => "P1"
  | Events.EventLevel.P2 => "P2"
  end.

(** [collections.Counter] over strings: a dictionary from key to count,
    kept in insertion order as Python dictionaries are.  Counting a key
    increments its entry, or appends a new entry with count 1. *)
Fixpoint counter_add (k : string) (c : list (string * Z)) : list (string * Z) :=
  match c with
  | [] => [(k, 1)]
  | (k', v) :: c' =>
      if String.eqb k' k then (k', v + 1) :: c' else (k', v) :: counter_add k c'
  end.

Definition Counter (l : list string) : list (string * Z) :=
  fold_left (fun c k => counter_add k c) l [].

(** [d.get(k, default)] *)
Definition get (d : list (string * Z)) (k : string) (default : Z) : Z :=
  match find (fun kv => String.eqb (fst kv) k) d with
  | Some kv => snd kv
  | None => default
  end.

(** The dictionary [_events_stats] returns has the four fixed keys
    ["P0"], ["P1"], ["P2"], ["total"]. *)
Record Stats := mkStats {
  stats_P0 : Z;
  stats_P1 : Z;
  stats_P2 : Z;
  stats_total : Z
}.

Definition _events_stats (events : list Events.TradeEvent.t) : Stats :=
  let c := Counter (map (fun e => level_value (Events.TradeEvent.level e)) events) in
  mkStats (get c "P0" 0) (get c "P1" 0) (get c "P2" 0) (Z.of_nat (List.length events)).

(** [e.level in (EventLevel.P0, EventLevel.P1)] *)
Definition is_p0_or_p1 (e : Events.TradeEvent.t) : bool :=
  Events.EventLevel.eqb (Events.TradeEvent.level e) Events.EventLevel.P0
  || Events.EventLevel.eqb (Events.TradeEvent.level e) Events.EventLevel.P1.

Definition _behavior_patterns (events : list Events.TradeEvent.t) : list (string * Z) :=
  Counter (map (fun e => Events.TradeEventType.value (Events.TradeEvent.event_type e))
               (filter is_p0_or_p1 events)).

End ReportStats.

(* ================================================================== *)
(** * reports/generator.py: the most costly lifecycles *)
(* ================================================================== *)

Module ReportRanking.

(** [l.sort(key=key, reverse=True)] on decimal keys: a stable sort into
    non-increasing key order (elements with equal keys keep their
    original order).  Each element is inserted after the elements of the
    sorted tail whose key is larger. *)
Fixpoint insert_desc {A : Type} (key : A -> Q) (x : A) (l : list A) : list A :=
  match l with
  | [] => [x]
  | y :: l' => if PyDecimal.ltb (key x) (key y) then y :: insert_desc key x l' else x :: l
  end.

Definition sort_desc {A : Type} (key : A -> Q) (l : list A) : list A :=
  fold_right (insert_desc key) [] l.

(** [l[:n]] for an integer [n]: the first [n] elements, or all but the
    last [-n] when [n] is negative. *)
Definition slice_to {A : Type} (n : Z) (l : list A) : list A :=
  if 0 <=? n then firstn (Z.to_nat n) l
  else firstn (Z.to_nat (Z.of_nat (List.length l) + n)) l.

(** One row of the result.  The loss and the timestamps are kept as
    values where the source stores their [str()] / [isoformat()]
    rendering; a missing timestamp stands for the empty string. *)
Record Row := mkRow {
  lifecycle_id : string;
  symbol : string;
  side : string;
  loss_usdt : Q;
  entry_ts : option datetime;
  exit_ts : option datetime
}.

(** The loop over [lifecycles]: each one is recomputed, and entered in
    [losers] with the magnitude of its realized PnL when that is below
    0. *)
Definition losers (lifecycles : list TradeLifecycle.t) : list (Q * TradeLifecycle.t) :=
  flat_map
    (fun lc0 =>
       let lc := TradeLifecycle.recompute lc0 in
       match TradeMetrics.realized_pnl_usdt (TradeLifecycle.metrics lc) with
       | None => []
       | Some pnl => if PyDecimal.ltb pnl 0 then [(Qabs pnl, lc)] else []
       end)
    lifecycles.

Definition row_of (x : Q * TradeLifecycle.t) : Row :=
  let '(loss_abs, lc) := x in
  mkRow (TradeLifecycle.lifecycle_id lc) (TradeLifecycle.symbol lc)
        (PositionSide.value (TradeLifecycle.position_side lc))
        loss_abs
        (TradeMetrics.entry_ts (TradeLifecycle.metrics lc))
        (TradeMetrics.exit_ts (TradeLifecycle.metrics lc)).

Definition _top_costly_mistakes (lifecycles : list TradeLifecycle.t) (top_n : Z)
  : list Row :=
  map row_of (slice_to top_n (sort_desc fst (losers lifecycles))).

End ReportRanking.

(* ================================================================== *)
(** * Further vocabulary for properties of the code *)
(* ================================================================== *)

Module Props.

(** The fills carrying a given trade-side tag, and how many there are. *)
Definition tagged (tag : TradeSide.t) (fs : list ExecutionFill.t)
  : list ExecutionFill.t :=
  filter (fun f => TradeSide.eqb (ExecutionFill.trade_side f) tag) fs.

Definition count_tag (tag : TradeSide.t) (fs : list ExecutionFill.t) : Z :=
  Z.of_nat (List.length (tagged tag fs)).

(** The sum of a list of rationals. *)
Definition sumQ (l : list Q) : Q := fold_right Qplus 0%Q l.

(** Price times amount of a fill, and its absolute value, the notional. *)
Definition price_amount (f : ExecutionFill.t) : Q :=
  (ExecutionFill.price f * ExecutionFill.amount f)%Q.

Definition notional (f : ExecutionFill.t) : Q :=
  Qabs (ExecutionFill.amount f * ExecutionFill.price f).

(** The tracked position after the first [k] fills of a list. *)
Definition pos_after (k : nat) (fs : list ExecutionFill.t) : Q :=
  TradeLifecycle.pos (TradeLifecycle.run_positions (firstn k fs)).

(** A lifecycle with another fill list. *)
Definition with_fills (lc : TradeLifecycle.t) (fs : list ExecutionFill.t)
  : TradeLifecycle.t :=
  TradeLifecycle.mk (TradeLifecycle.lifecycle_id lc) (TradeLifecycle.exchange lc)
    (TradeLifecycle.symbol lc) (TradeLifecycle.position_side lc) fs
    (TradeLifecycle.funding_payments_usdt lc) (TradeLifecycle.plan lc)
    (TradeLifecycle.metrics lc) (TradeLifecycle.risk lc) (TradeLifecycle.status lc).


(** What a weighted average price over the fills of one tag must be: the
    sum of price times amount over the sum of amounts, within the price
    range of those fills when no amount is negative; absent exactly when
    the amounts sum to zero. *)
Definition weighted_average_of (tag : TradeSide.t) (fs : list ExecutionFill.t)
    (r : option Q) : Prop :=
  let sel := tagged tag fs in
  match r with
  | Some avg =>
      ~ (sumQ (map ExecutionFill.amount sel) == 0)%Q
      /\ (avg == sumQ (map price_amount sel) / sumQ (map ExecutionFill.amount sel))%Q
      /\ forall lo hi,
           (forall f, In f sel ->
                      (0 <= ExecutionFill.amount f)%Q
                      /\ (lo <= ExecutionFill.price f)%Q
                      /\ (ExecutionFill.price f <= hi)%Q) ->
           (lo <= avg)%Q /\ (avg <= hi)%Q
  | None => (sumQ (map ExecutionFill.amount sel) == 0)%Q
  end.


(** ** Vocabulary for the aggregator *)

(** The fills held by the in-progress lifecycle of a bucket. *)
Definition bucket_fills (st : Aggregate.AggState) (ps : PositionSide.t)
  : list ExecutionFill.t :=
  match Aggregate.current_by_side st ps with
  | Some cur => TradeLifecycle.fills cur
  | None => []
  end.

(** Every fill the aggregator state holds: those of the emitted
    lifecycles and those of the three buckets. *)
Definition held_fills (st : Aggregate.AggState) : list ExecutionFill.t :=
  List.concat (map TradeLifecycle.fills (Aggregate.out_lifecycles st))
  ++ bucket_fills st PositionSide.long
  ++ bucket_fills st PositionSide.short
  ++ bucket_fills st PositionSide.unknown.

(** The lifecycles the closing loop appends for the buckets still in
    progress. *)
Definition flushed (st : Aggregate.AggState) : list TradeLifecycle.t :=
  flat_map
    (fun ps =>
       match Aggregate.current_by_side st ps with
       | Some cur =>
           [TradeLifecycle.recompute (TradeLifecycle.set_status cur Status.open)]
       | None => []
       end)
    [PositionSide.long; PositionSide.short; PositionSide.unknown].

(** A lifecycle as the aggregator builds it for an exchange and symbol:
    it has fills, all on the lifecycle's side, and its identifier is made
    of exchange, symbol, side and the timestamp of its first fill. *)
Definition built_for (isoformat : datetime -> string) (exchange symbol : string)
    (lc : TradeLifecycle.t) : Prop :=
  TradeLifecycle.exchange lc = exchange
  /\ TradeLifecycle.symbol lc = symbol
  /\ Forall (fun f => ExecutionFill.hold_side f = TradeLifecycle.position_side lc)
            (TradeLifecycle.fills lc)
  /\ exists first rest,
       TradeLifecycle.fills lc = first :: rest
       /\ TradeLifecycle.lifecycle_id lc
          = (exchange ++ ":" ++ symbol ++ ":"
               ++ PositionSide.value (TradeLifecycle.position_side lc) ++ ":"
               ++ isoformat (ExecutionFill.ts first))%string.

(** The fills of a lifecycle are in time order. *)
Definition in_time_order (lc : TradeLifecycle.t) : Prop :=
  StronglySorted (Py.key_le ExecutionFill.ts) (TradeLifecycle.fills lc).

(** The invariant of the aggregator loop on the shape of lifecycles. *)
Definition shape_invariant (isoformat : datetime -> string) (exchange symbol : string)
    (st : Aggregate.AggState) : Prop :=
  (forall ps cur,
     Aggregate.current_by_side st ps = Some cur ->
     TradeLifecycle.position_side cur = ps
     /\ TradeLifecycle.status cur = Status.open
     /\ built_for isoformat exchange symbol cur)
  /\ Forall (fun lc => TradeLifecycle.status lc = Status.closed
                       /\ built_for isoformat exchange symbol lc
                       /\ TradeLifecycle.recompute lc = lc)
            (Aggregate.out_lifecycles st).

(** The invariant of the aggregator loop on time order, with the fills
    still to come. *)
Definition order_invariant (upcoming : list ExecutionFill.t)
    (st : Aggregate.AggState) : Prop :=
  (forall ps cur,
     Aggregate.current_by_side st ps = Some cur ->
     in_time_order cur
     /\ forall g f, In g (TradeLifecycle.fills cur) -> In f upcoming ->
                    ExecutionFill.ts g <= ExecutionFill.ts f)
  /\ Forall in_time_order (Aggregate.out_lifecycles st).

(** A lifecycle that did not start on a fill of positive signed
    quantity: a lone close, or a start on a zero quantity. *)
Definition irregular_start (lc : TradeLifecycle.t) : bool :=
  match TradeLifecycle.fills lc with
  | first :: _ => negb (PyDecimal.ltb 0 (Aggregate.signed_delta first))
  | [] => false
  end.

Definition count_irregular (lcs : list TradeLifecycle.t) : Z :=
  Z.of_nat (List.length (filter irregular_start lcs)).

(** The irregular starts among the buckets in progress. *)
Definition irregular_in_progress (st : Aggregate.AggState) : Z :=
  count_irregular
    (flat_map
       (fun ps =>
          match Aggregate.current_by_side st ps with
          | Some cur => [cur]
          | None => []
          end)
       [PositionSide.long; PositionSide.short; PositionSide.unknown]).


(** The contribution of one bucket to the irregular starts in progress. *)
Definition irregular_bucket (o : option TradeLifecycle.t) : Z :=
  match o with
  | Some cur => if irregular_start cur then 1 else 0
  | None => 0
  end.

(** Warnings not yet explained by an irregular start. *)
Definition warning_balance (st : Aggregate.AggState) : Z :=
  Z.of_nat (List.length (Aggregate.out_warnings st))
  - count_irregular (Aggregate.out_lifecycles st)
  - irregular_in_progress st.


(** ** Vocabulary for the detectors *)

(** The order in which [detect_events_for_lifecycle] evaluates its
    rules. *)
Definition rule_order : list Events.TradeEventType.t :=
  [Events.TradeEventType.open_completed;
   Events.TradeEventType.close_completed;
   Events.TradeEventType.stop_loss_triggered;
   Events.TradeEventType.big_loss_pct_equity;
   Events.TradeEventType.high_leverage_used;
   Events.TradeEventType.night_trading_us_eastern].

(** The balance the margin-dependent rules divide by: the available
    margin when attached and not zero, otherwise the equity. *)
Definition effective_base (margin equity : option Q) (base : Q) : Prop :=
  (margin = Some base /\ ~ (base == 0)%Q)
  \/ ((margin = None \/ exists a, margin = Some a /\ (a == 0)%Q)
      /\ equity = Some base).

(** An event belongs to a lifecycle: it carries its identifier, symbol
    and side, and its own identifier is [<lifecycle_id>:<event_type>]. *)
Definition event_of (lc : TradeLifecycle.t) (e : Events.TradeEvent.t) : Prop :=
  Events.TradeEvent.lifecycle_id e = TradeLifecycle.lifecycle_id lc
  /\ Events.TradeEvent.symbol e = TradeLifecycle.symbol lc
  /\ Events.TradeEvent.position_side e = TradeLifecycle.position_side lc
  /\ Events.TradeEvent.event_id e
     = (TradeLifecycle.lifecycle_id lc ++ ":"
          ++ Events.TradeEventType.value (Events.TradeEvent.event_type e))%string.


(** ** Vocabulary for the report statistics *)

(** The level each rule of the detectors gives its events. *)
Definition level_of_type (ty : Events.TradeEventType.t) : Events.EventLevel.t :=
  match ty with
  | Events.TradeEventType.open_completed
  | Events.TradeEventType.close_completed => Events.EventLevel.P2
  | Events.TradeEventType.stop_loss_triggered
  | Events.TradeEventType.big_loss_pct_equity
  | Events.TradeEventType.consecutive_losses => Events.EventLevel.P0
  | Events.TradeEventType.high_leverage_used
  | Events.TradeEventType.night_trading_us_eastern => Events.EventLevel.P1
  end.

(** The number of events of a type, as an integer. *)
Definition count_of (ty : Events.TradeEventType.t) (events : list Events.TradeEvent.t)
  : Z :=
  Z.of_nat (Spec.count_type ty events).

(** The number of events of a type whose level is P0 or P1. *)
Definition count_flagged (ty : Events.TradeEventType.t)
    (events : list Events.TradeEvent.t) : Z :=
  Z.of_nat (Spec.count_type ty (filter ReportStats.is_p0_or_p1 events)).

(** The keys of a dictionary and the sum of its values. *)
Definition keys (d : list (string * Z)) : list string := map fst d.
Definition total (d : list (string * Z)) : Z :=
  fold_right (fun kv acc => snd kv + acc) 0 d.


(** ** Vocabulary for the ranking of losses *)

(** A lifecycle that, once recomputed, has a realized PnL below 0, and
    the magnitude of that loss. *)
Definition loses (lc : TradeLifecycle.t) (amount : Q) : Prop :=
  exists pnl,
    TradeMetrics.realized_pnl_usdt (TradeLifecycle.metrics (TradeLifecycle.recompute lc))
    = Some pnl
    /\ (pnl < 0)%Q /\ amount = Qabs pnl.

Definition is_loser (lc : TradeLifecycle.t) : bool :=
  match TradeMetrics.realized_pnl_usdt
          (TradeLifecycle.metrics (TradeLifecycle.recompute lc)) with
  | Some pnl => PyDecimal.ltb pnl 0
  | None => false
  end.

(** The row the ranking shows for a lifecycle. *)
Definition row_for (lc : TradeLifecycle.t) (amount : Q) : ReportRanking.Row :=
  ReportRanking.row_of (amount, TradeLifecycle.recompute lc).

(** Rows in non-increasing order of loss. *)
Definition by_loss_desc (rows : list ReportRanking.Row) : Prop :=
  StronglySorted
    (fun a b => (ReportRanking.loss_usdt b <= ReportRanking.loss_usdt a)%Q) rows.

End Props.

(* ================================================================== *)
(** * Sample data used by the worked examples *)
(* ================================================================== *)

Module Samples.

Local Open Scope string_scope.

(** A fill of ["BTC/USDT:USDT"] without fee or identifiers. *)
Definition fill (ts : datetime) (side : Side.t) (price amount : Q)
    (trade_side : TradeSide.t) (hold_side : PositionSide.t)
    (reported : option Q) : ExecutionFill.t :=
  ExecutionFill.mk ts "BTC/USDT:USDT" side price amount 0%Q trade_side reported
    hold_side "bitget" None None.

(** A lifecycle with default plan, metrics and risk. *)
Definition lifecycle (id : string) (ps : PositionSide.t)
    (fills : list ExecutionFill.t) (status : Status.t) : TradeLifecycle.t :=
  TradeLifecycle.mk id "bitget" "BTC/USDT:USDT" ps fills [] TradePlan.default
    TradeMetrics.default RiskMetrics.default status.

(** The same, with a planned stop-loss. *)
Definition with_stop (lc : TradeLifecycle.t) (stop : Q) : TradeLifecycle.t :=
  TradeLifecycle.mk (TradeLifecycle.lifecycle_id lc) (TradeLifecycle.exchange lc)
    (TradeLifecycle.symbol lc) (TradeLifecycle.position_side lc)
    (TradeLifecycle.fills lc) (TradeLifecycle.funding_payments_usdt lc)
    (TradePlan.mk None (Some stop) None None None)
    (TradeLifecycle.metrics lc) (TradeLifecycle.risk lc) (TradeLifecycle.status lc).

(** The same, with account snapshots attached to the metrics. *)
Definition with_snapshot (lc : TradeLifecycle.t) (margin equity : option Q)
  : TradeLifecycle.t :=
  TradeLifecycle.set_metrics lc
    (TradeMetrics.mk None None None None None None None None None None None None
       margin equity 0 0 0).

(** A closed one-fill lifecycle whose realized PnL is [pnl], exiting at
    [exit_ts]: the single fill reports the profit and carries no fee. *)
Definition closed_with_pnl (id : string) (exit_ts : datetime) (pnl : Q)
  : TradeLifecycle.t :=
  lifecycle id PositionSide.long
    [fill exit_ts Side.sell 100 1 TradeSide.close PositionSide.long (Some pnl)]
    Status.closed.

(** An event of a given severity. *)
Definition event_of_level (lvl : Events.EventLevel.t) : Events.TradeEvent.t :=
  Events.TradeEvent.mk "lc:e" Events.TradeEventType.open_completed lvl "lc"
    "BTC/USDT:USDT" PositionSide.long 0
    (Events.EvConsecutive 0 [] "").

(** Eastern Standard Time all year round: UTC-5, in microseconds. *)
Definition est_offset (t : datetime) : option Z := Some (-5 * 3600000000).

(** A zone database that cannot be loaded. *)
Definition no_zone (t : datetime) : option Z := None.

(** [isoformat] stand-in for identifiers: the decimal rendering of the
    microsecond count. *)
Definition iso (t : datetime) : string := Py.str_int t.

End Samples.

(* ================================================================== *)
(** * Facts about the Python primitives *)
(* ================================================================== *)

Lemma eqb_Qeq (a b : Q) : PyDecimal.eqb a b = true <-> (a == b)%Q.
Proof. unfold PyDecimal.eqb. apply Qeq_bool_iff. Qed.

Lemma eqb_false_Qeq (a b : Q) : PyDecimal.eqb a b = false <-> ~ (a == b)%Q.
Proof.
  rewrite <- eqb_Qeq. destruct (PyDecimal.eqb a b); split; congruence.
Qed.

Lemma leb_Qle (a b : Q) : PyDecimal.leb a b = true <-> (a <= b)%Q.
Proof. unfold PyDecimal.leb. apply Qle_bool_iff. Qed.

Lemma ltb_Qlt (a b : Q) : PyDecimal.ltb a b = true <-> (a < b)%Q.
Proof.
  unfold PyDecimal.ltb. rewrite negb_true_iff.
  split; intros H.
  - apply Qnot_le_lt. intros Hle. apply Qle_bool_iff in Hle. congruence.
  - destruct (Qle_bool b a) eqn:E; [|reflexivity].
    apply Qle_bool_iff in E. exfalso. apply (Qlt_not_le _ _ H E).
Qed.

Lemma ltb_false_Qle (a b : Q) : PyDecimal.ltb a b = false <-> (b <= a)%Q.
Proof.
  unfold PyDecimal.ltb. rewrite negb_false_iff. apply Qle_bool_iff.
Qed.

Lemma leb_false_Qlt (a b : Q) : PyDecimal.leb a b = false <-> (b < a)%Q.
Proof.
  rewrite <- ltb_Qlt. unfold PyDecimal.ltb, PyDecimal.leb.
  destruct (Qle_bool a b); simpl; split; congruence.
Qed.

Lemma min_Qmin (a b : Q) : (PyDecimal.min a b == Qmin a b)%Q.
Proof.
  unfold PyDecimal.min. destruct (PyDecimal.ltb b a) eqn:E.
  - apply ltb_Qlt in E. symmetry. apply Q.min_r. apply Qlt_le_weak, E.
  - apply ltb_false_Qle in E. symmetry. apply Q.min_l. exact E.
Qed.

(** ** [sorted]: a permutation, ordered by key, and stable. *)

Section Sorted.

Context {A : Type} (key : A -> Z).

Lemma insert_by_perm (x : A) (l : list A) :
  Permutation (Py.insert_by key x l) (x :: l).
Proof.
  induction l as [|y l IH]; simpl.
  - apply Permutation_refl.
  - destruct (key x <=? key y).
    + apply Permutation_refl.
    + eapply Permutation_trans; [apply perm_skip, IH | apply perm_swap].
Qed.

Lemma sorted_perm (l : list A) : Permutation (Py.sorted key l) l.
Proof.
  induction l as [|x l IH]; simpl.
  - apply perm_nil.
  - eapply Permutation_trans; [apply insert_by_perm | apply perm_skip, IH].
Qed.

Lemma sorted_In (l : list A) (x : A) : In x (Py.sorted key l) <-> In x l.
Proof.
  split; apply Permutation_in; [|apply Permutation_sym]; apply sorted_perm.
Qed.

Lemma sorted_length (l : list A) : List.length (Py.sorted key l) = List.length l.
Proof. apply Permutation_length, sorted_perm. Qed.

Lemma sorted_nil_iff (l : list A) : Py.sorted key l = [] <-> l = [].
Proof.
  split; intros H.
  - apply length_zero_iff_nil. rewrite <- sorted_length, H. reflexivity.
  - subst. reflexivity.
Qed.

Lemma insert_by_sorted (x : A) (l : list A) :
  StronglySorted (Py.key_le key) l -> StronglySorted (Py.key_le key) (Py.insert_by key x l).
Proof.
  induction l as [|y l IH]; simpl; intros Hs.
  - constructor; [constructor | constructor].
  - inversion Hs as [|? ? Hs' Hall]; subst.
    destruct (key x <=? key y) eqn:E.
    + apply Z.leb_le in E. constructor; [exact Hs|].
      constructor; [exact E|].
      eapply Forall_impl; [|exact Hall]. unfold Py.key_le. intros; lia.
    + apply Z.leb_gt in E. constructor; [apply IH, Hs'|].
      eapply Permutation_Forall; [apply Permutation_sym, insert_by_perm|].
      constructor; [unfold Py.key_le; lia | exact Hall].
Qed.

Lemma sorted_sorted (l : list A) : StronglySorted (Py.key_le key) (Py.sorted key l).
Proof.
  induction l as [|x l IH]; simpl; [constructor | apply insert_by_sorted, IH].
Qed.

(** Stability: elements with equal keys keep their relative order. *)
Lemma insert_by_stable (k : Z) (x : A) (l : list A) :
  filter (fun y => key y =? k) (Py.insert_by key x l)
  = filter (fun y => key y =? k) (x :: l).
Proof.
  induction l as [|y l IH]; [reflexivity|].
  cbn [Py.insert_by]. destruct (key x <=? key y) eqn:E; [reflexivity|].
  apply Z.leb_gt in E. cbn [filter] in *. rewrite IH.
  destruct (key x =? k) eqn:Ex; [|reflexivity].
  apply Z.eqb_eq in Ex.
  assert (Ey : (key y =? k) = false) by (apply Z.eqb_neq; lia).
  rewrite Ey. reflexivity.
Qed.

Lemma sorted_stable (k : Z) (l : list A) :
  filter (fun y => key y =? k) (Py.sorted key l) = filter (fun y => key y =? k) l.
Proof.
  induction l as [|x l IH]; [reflexivity|].
  cbn [Py.sorted fold_right]. rewrite insert_by_stable. cbn [filter].
  fold (Py.sorted key l). rewrite IH. reflexivity.
Qed.

Lemma existsb_insert_by (p : A -> bool) (x : A) (l : list A) :
  existsb p (Py.insert_by key x l) = p x || existsb p l.
Proof.
  induction l as [|y l IH]; simpl; [reflexivity|].
  destruct (key x <=? key y); simpl; [reflexivity|].
  rewrite IH. destruct (p x), (p y); reflexivity.
Qed.

Lemma existsb_sorted (p : A -> bool) (l : list A) :
  existsb p (Py.sorted key l) = existsb p l.
Proof.
  induction l as [|x l IH]; simpl; [reflexivity|].
  rewrite existsb_insert_by, IH. reflexivity.
Qed.

End Sorted.

(* ================================================================== *)
(** * The discipline score *)
(* ================================================================== *)

Section Score.

Import Generator.
Import Events.

Lemma count_level_cons (lvl : EventLevel.t) (e : TradeEvent.t) (es : list TradeEvent.t) :
  count_level lvl (e :: es) =
  (if EventLevel.eqb (TradeEvent.level e) lvl then 1 else 0) + count_level lvl es.
Proof.
  unfold count_level. simpl.
  destruct (EventLevel.eqb (TradeEvent.level e) lvl); simpl List.length; lia.
Qed.

Lemma count_level_nonneg (lvl : EventLevel.t) (es : list TradeEvent.t) :
  0 <= count_level lvl es.
Proof. unfold count_level. lia. Qed.

Lemma score_fold (es : list TradeEvent.t) (sc : Z) (bd : Breakdown) :
  fst (fold_left score_step es (sc, bd)) =
  sc - 20 * count_level EventLevel.P0 es - 8 * count_level EventLevel.P1 es.
Proof.
  revert sc bd. induction es as [|e es IH]; intros sc bd.
  - unfold count_level. simpl. lia.
  - cbn [fold_left]. rewrite !count_level_cons.
    assert (Hs : fst (score_step (sc, bd) e) =
                 sc - 20 * (if EventLevel.eqb (TradeEvent.level e) EventLevel.P0 then 1 else 0)
                    - 8 * (if EventLevel.eqb (TradeEvent.level e) EventLevel.P1 then 1 else 0)).
    { unfold score_step. destruct (TradeEvent.level e); simpl; lia. }
    destruct (score_step (sc, bd) e) as [sc' bd']. simpl in Hs.
    rewrite IH, Hs. destruct (TradeEvent.level e); cbn [EventLevel.eqb]; lia.
Qed.

Lemma score_eq (es : list TradeEvent.t) :
  score (compute_discipline_score es) =
  Z.max 0 (100 - 20 * count_level EventLevel.P0 es - 8 * count_level EventLevel.P1 es).
Proof.
  unfold compute_discipline_score.
  pose proof (score_fold es 100 (mkBreakdown 100 0 0 0)) as H.
  destruct (fold_left score_step es (100, mkBreakdown 100 0 0 0)) as [sc bd].
  cbn [fst] in H. cbn [score]. rewrite <- H.
  destruct (sc <? 0) eqn:E; [apply Z.ltb_lt in E | apply Z.ltb_ge in E]; lia.
Qed.

Lemma score_fold_levels (es es' : list TradeEvent.t) (acc : Z * Breakdown) :
  map TradeEvent.level es = map TradeEvent.level es' ->
  fold_left score_step es acc = fold_left score_step es' acc.
Proof.
  revert es' acc. induction es as [|e es IH]; intros [|e' es'] acc Hm;
    simpl in Hm; try discriminate; [reflexivity|].
  injection Hm as Hl Hm. cbn [fold_left].
  replace (score_step acc e') with (score_step acc e).
  - apply IH, Hm.
  - unfold score_step. rewrite Hl. reflexivity.
Qed.

Lemma count_level_drop_P2 (lvl : EventLevel.t) (es : list TradeEvent.t) :
  lvl <> EventLevel.P2 ->
  count_level lvl
    (filter (fun e => negb (EventLevel.eqb (TradeEvent.level e) EventLevel.P2)) es)
  = count_level lvl es.
Proof.
  intros Hl. induction es as [|e es IH]; [reflexivity|].
  simpl filter. destruct (TradeEvent.level e) eqn:E; simpl negb; cbv iota;
    rewrite ?count_level_cons, ?E, IH; destruct lvl; simpl; congruence || lia.
Qed.

(** C6.  The discipline score is [max(0, 100 - 20*#P0 - 8*#P1)]: an
    integer between 0 and 100; events of level P2 do not change it
    (removing them all leaves the score as it was); the whole result is
    determined by the list of the events' levels; and three events of
    levels P0, P0, P1 score 52. *)
Theorem C6_discipline_score :
  forall events : list TradeEvent.t,
    score (compute_discipline_score events)
    = Z.max 0 (100 - 20 * count_level EventLevel.P0 events
                   - 8 * count_level EventLevel.P1 events)
    /\ 0 <= score (compute_discipline_score events) <= 100
    /\ score (compute_discipline_score
                (filter (fun e => negb (EventLevel.eqb (TradeEvent.level e) EventLevel.P2))
                        events))
       = score (compute_discipline_score events)
    /\ (forall events' : list TradeEvent.t,
          map TradeEvent.level events = map TradeEvent.level events' ->
          compute_discipline_score events = compute_discipline_score events')
    /\ score (compute_discipline_score
                (map Samples.event_of_level
                     [EventLevel.P0; EventLevel.P0; EventLevel.P1])) = 52.
Proof.
  intros events. refine (conj _ (conj _ (conj _ (conj _ _)))).
  - apply score_eq.
  - rewrite score_eq.
    pose proof (count_level_nonneg EventLevel.P0 events).
    pose proof (count_level_nonneg EventLevel.P1 events). lia.
  - rewrite !score_eq, !count_level_drop_P2; [reflexivity | discriminate | discriminate].
  - intros events' Hm. unfold compute_discipline_score.
    rewrite (score_fold_levels events events' _ Hm). reflexivity.
  - reflexivity.
Qed.

(** The purity clause of C6 at two different event lists with the same
    levels. *)
Lemma C6_discipline_score_witness :
  let es := [Samples.event_of_level EventLevel.P0; Samples.event_of_level EventLevel.P2] in
  let es' :=
    [TradeEvent.mk "x" TradeEventType.stop_loss_triggered EventLevel.P0 "x" "ETH"
       PositionSide.short 7 (EvConsecutive 1 [] "c");
     TradeEvent.mk "y" TradeEventType.close_completed EventLevel.P2 "y" "ETH"
       PositionSide.short 9 (EvConsecutive 2 [] "d")] in
  map TradeEvent.level es = map TradeEvent.level es'
  /\ compute_discipline_score es = compute_discipline_score es'.
Proof.
  intros es es'. split; [reflexivity|].
  apply (proj1 (proj2 (proj2 (proj2 (C6_discipline_score es)))) es'). reflexivity.
Defined.

End Score.

(* ================================================================== *)
(** * Metrics recomputation *)
(* ================================================================== *)

Section Recompute.

Import TradeLifecycle.

(** Case analysis on whether the lifecycle has fills. *)
Ltac by_fills lc :=
  destruct lc as [? ? ? ? [|? ?] ? ? ? ? ?]; reflexivity.

Lemma recompute_fills (lc : t) : fills (recompute lc) = fills lc.
Proof. by_fills lc. Qed.

Lemma recompute_status (lc : t) : status (recompute lc) = status lc.
Proof. by_fills lc. Qed.

Lemma recompute_plan (lc : t) : plan (recompute lc) = plan lc.
Proof. by_fills lc. Qed.

Lemma recompute_position_side (lc : t) :
  position_side (recompute lc) = position_side lc.
Proof. by_fills lc. Qed.

Lemma recompute_identity (lc : t) :
  lifecycle_id (recompute lc) = lifecycle_id lc /\ symbol (recompute lc) = symbol lc.
Proof. split; by_fills lc. Qed.

Lemma recompute_metrics (lc : t) :
  fills lc <> [] ->
  metrics (recompute lc) =
  derive_metrics (fills lc) (funding_payments_usdt lc) (status lc)
    (TradeMetrics.available_margin_usdt_at_entry (metrics lc))
    (TradeMetrics.equity_usdt_at_entry (metrics lc)).
Proof.
  destruct lc as [? ? ? ? [|? ?] ? ? ? ? ?]; [cbn; congruence | reflexivity].
Qed.

Lemma recompute_idem (lc : t) : recompute (recompute lc) = recompute lc.
Proof.
  destruct lc as [id ex sy ps fs fu pl me ri st].
  destruct fs as [|f fs]; reflexivity.
Qed.

(** C8.  Recomputing twice leaves the lifecycle, and so its metrics, as
    recomputing once does; and the metrics that recompute produces are
    determined by the fills, the funding payments, the status and the two
    attached snapshot fields. *)
Theorem C8_recompute_idempotent :
  forall lc : t,
    recompute (recompute lc) = recompute lc
    /\ metrics (recompute (recompute lc)) = metrics (recompute lc)
    /\ (forall lc' : t,
          fills lc' = fills lc ->
          funding_payments_usdt lc' = funding_payments_usdt lc ->
          status lc' = status lc ->
          TradeMetrics.available_margin_usdt_at_entry (metrics lc')
          = TradeMetrics.available_margin_usdt_at_entry (metrics lc) ->
          TradeMetrics.equity_usdt_at_entry (metrics lc')
          = TradeMetrics.equity_usdt_at_entry (metrics lc) ->
          metrics (recompute lc') = metrics (recompute lc)).
Proof.
  intros lc. refine (conj _ (conj _ _)).
  - apply recompute_idem.
  - rewrite recompute_idem. reflexivity.
  - intros lc' Hf Hu Hs Ha He. unfold recompute. rewrite Hf.
    destruct (fills lc); [reflexivity|].
    cbn [metrics set_risk set_metrics]. rewrite Hu, Hs, Ha, He. reflexivity.
Qed.

(** The dependency clause of C8 at two lifecycles that differ in
    identity, plan and stale metrics but agree on what recompute reads. *)
Lemma C8_recompute_idempotent_witness :
  let fs := [Samples.fill 1 Side.buy 100 10 TradeSide.open PositionSide.long None;
             Samples.fill 2 Side.sell 110 10 TradeSide.close PositionSide.long None] in
  let lc := Samples.with_snapshot
              (Samples.lifecycle "a" PositionSide.long fs Status.closed)
              (Some 500%Q) None in
  let lc' :=
    mk "b" "other" "ETH" PositionSide.short fs [] (TradePlan.mk None (Some 1%Q) None None None)
       (TradeMetrics.mk (Some 9) None None None None None None (Some 3%Q) None None None None
          (Some 500%Q) None 7 7 7)
       RiskMetrics.default Status.closed in
  metrics (recompute lc') = metrics (recompute lc).
Proof.
  intros fs lc lc'.
  apply (proj2 (proj2 (C8_recompute_idempotent lc)) lc'); reflexivity.
Defined.

(** C10.  With an empty fill list, recompute only replaces the metrics by
    the default [TradeMetrics] (fills_count 0, no snapshot values) and
    leaves the risk record as it was, so the planned stop of the plan is
    not copied; with a non-empty fill list it is copied. *)
Theorem C10_recompute_empty_fills :
  forall lc : t,
    (fills lc = [] ->
       recompute lc = set_metrics lc TradeMetrics.default
       /\ metrics (recompute lc) = TradeMetrics.default
       /\ TradeMetrics.fills_count (metrics (recompute lc)) = 0
       /\ TradeMetrics.available_margin_usdt_at_entry (metrics (recompute lc)) = None
       /\ TradeMetrics.equity_usdt_at_entry (metrics (recompute lc)) = None
       /\ risk (recompute lc) = risk lc)
    /\ (fills lc <> [] ->
          RiskMetrics.planned_stop_loss (risk (recompute lc))
          = TradePlan.planned_stop_loss (plan lc)
          /\ TradeMetrics.available_margin_usdt_at_entry (metrics (recompute lc))
             = TradeMetrics.available_margin_usdt_at_entry (metrics lc)
          /\ TradeMetrics.equity_usdt_at_entry (metrics (recompute lc))
             = TradeMetrics.equity_usdt_at_entry (metrics lc)).
Proof.
  intros lc. split; intros H; unfold recompute.
  - rewrite H. repeat split.
  - destruct (fills lc); [congruence|]. repeat split.
Qed.

(** C10 at a lifecycle without fills that has both snapshots attached and
    a planned stop of 95: the snapshots are gone and the risk record still
    has no planned stop. *)
Lemma C10_recompute_empty_fills_witness :
  let lc := Samples.with_stop
              (Samples.with_snapshot
                 (Samples.lifecycle "a" PositionSide.long [] Status.closed)
                 (Some 500%Q) (Some 900%Q)) 95 in
  TradeMetrics.available_margin_usdt_at_entry (metrics lc) = Some 500%Q
  /\ TradePlan.planned_stop_loss (plan lc) = Some 95%Q
  /\ TradeMetrics.available_margin_usdt_at_entry (metrics (recompute lc)) = None
  /\ TradeMetrics.equity_usdt_at_entry (metrics (recompute lc)) = None
  /\ RiskMetrics.planned_stop_loss (risk (recompute lc)) = None.
Proof.
  intros lc.
  destruct (proj1 (C10_recompute_empty_fills lc) eq_refl)
    as (_ & _ & _ & Ha & He & Hr).
  refine (conj eq_refl (conj eq_refl (conj Ha (conj He _)))).
  rewrite Hr. reflexivity.
Defined.

End Recompute.

(* ================================================================== *)
(** * Realized PnL *)
(* ================================================================== *)

Section RealizedPnl.

Import TradeLifecycle.

(** The reported-profit accumulators of the loop do not depend on the
    position tracking. *)
Lemma pos_step_reported (st : PosState) (f : ExecutionFill.t) :
  realized_reported (pos_step st f)
  = fold_left Qplus (Spec.reported_profits [f]) (realized_reported st)
  /\ has_reported (pos_step st f) = has_reported st || Spec.any_reported [f].
Proof.
  unfold pos_step, Spec.reported_profits, Spec.any_reported.
  cbn [flat_map existsb].
  destruct (same_direction (pos st) (fill_delta f));
    destruct (ExecutionFill.reported_profit_usdt f); simpl;
    rewrite ?orb_false_r, ?orb_true_r; split; reflexivity.
Qed.

Lemma run_reported (fs : list ExecutionFill.t) (st : PosState) :
  realized_reported (fold_left pos_step fs st)
  = fold_left Qplus (Spec.reported_profits fs) (realized_reported st)
  /\ has_reported (fold_left pos_step fs st) = has_reported st || Spec.any_reported fs.
Proof.
  revert st. induction fs as [|f fs IH]; intros st.
  - simpl. rewrite orb_false_r. split; reflexivity.
  - cbn [fold_left]. destruct (IH (pos_step st f)) as [IH1 IH2].
    destruct (pos_step_reported st f) as [H1 H2].
    rewrite IH1, IH2, H1, H2. split.
    + change (f :: fs) with ([f] ++ fs).
      unfold Spec.reported_profits. rewrite flat_map_app, fold_left_app. reflexivity.
    + unfold Spec.any_reported. simpl. rewrite orb_false_r, orb_assoc. reflexivity.
Qed.

Lemma base_realized_eq (fs : list ExecutionFill.t) :
  base_realized (run_positions fs)
  = if Spec.any_reported fs
    then PyDecimal.sum (Spec.reported_profits fs)
    else realized (run_positions fs).
Proof.
  unfold base_realized, run_positions.
  destruct (run_reported fs init_pos) as [H1 H2].
  rewrite H2, H1. reflexivity.
Qed.

(** The position tracking of the loop does not read the reported
    profits. *)
Lemma pos_step_tracking (a b : PosState) (f : ExecutionFill.t) :
  Spec.same_tracking a b ->
  Spec.same_tracking (pos_step a f) (pos_step b (Spec.without_report f)).
Proof.
  intros (Hp & Hm & Ha & Hr). unfold pos_step.
  change (fill_delta (Spec.without_report f)) with (fill_delta f).
  change (ExecutionFill.price (Spec.without_report f)) with (ExecutionFill.price f).
  rewrite <- Hp, <- Hm, <- Ha, <- Hr.
  destruct (same_direction (pos a) (fill_delta f)); repeat split.
Qed.

Lemma run_tracking (fs : list ExecutionFill.t) (a b : PosState) :
  Spec.same_tracking a b ->
  Spec.same_tracking (fold_left pos_step fs a)
                     (fold_left pos_step (map Spec.without_report fs) b).
Proof.
  revert a b. induction fs as [|f fs IH]; intros a b H; [exact H|].
  cbn [map fold_left]. apply IH, pos_step_tracking, H.
Qed.





Lemma pct_of_eq (x : Q) (d : option Q) :
  pct_of x d =
  match d with
  | Some n => if PyDecimal.eqb n 0 then None else Some (x / n * 100)%Q
  | None => None
  end.
Proof.
  unfold pct_of, PyDecimal.truthy. destruct d as [n|]; [|reflexivity].
  destruct (PyDecimal.eqb n 0); reflexivity.
Qed.

Lemma derive_metrics_pct (fs : list ExecutionFill.t) (fu : list (datetime * Q))
    (st : Status.t) (margin equity : option Q) :
  let m := derive_metrics fs fu st margin equity in
  TradeMetrics.realized_pnl_pct m
  = match TradeMetrics.realized_pnl_usdt m with
    | Some pnl => pct_of pnl (TradeMetrics.max_abs_notional_usdt m)
    | None => None
    end
  /\ TradeMetrics.realized_pnl_pct_of_available_margin m
     = match TradeMetrics.realized_pnl_usdt m with
       | Some pnl => pct_of pnl margin
       | None => None
       end.
Proof.
  unfold derive_metrics.
  cbn [TradeMetrics.realized_pnl_usdt TradeMetrics.realized_pnl_pct
       TradeMetrics.max_abs_notional_usdt
       TradeMetrics.realized_pnl_pct_of_available_margin].
  destruct (Status.eqb st Status.closed); split; reflexivity.
Qed.



End RealizedPnl.

(* ================================================================== *)
(** * Closing and reversing a position *)
(* ================================================================== *)

Section Reversal.

Import TradeLifecycle.

Lemma same_direction_long_sell (prev delta : Q) :
  (0 < prev)%Q -> (delta < 0)%Q -> same_direction prev delta = false.
Proof.
  intros Hp Hd. unfold same_direction.
  assert (E1 : PyDecimal.eqb prev 0 = false) by (apply eqb_false_Qeq; lra).
  assert (E2 : PyDecimal.ltb 0 delta = false) by (apply ltb_false_Qle; lra).
  assert (E3 : PyDecimal.ltb prev 0 = false) by (apply ltb_false_Qle; lra).
  rewrite E1, E2, E3, andb_false_r. reflexivity.
Qed.

Lemma same_direction_short_buy (prev delta : Q) :
  (prev < 0)%Q -> (0 < delta)%Q -> same_direction prev delta = false.
Proof.
  intros Hp Hd. unfold same_direction.
  assert (E1 : PyDecimal.eqb prev 0 = false) by (apply eqb_false_Qeq; lra).
  assert (E2 : PyDecimal.ltb 0 prev = false) by (apply ltb_false_Qle; lra).
  assert (E3 : PyDecimal.ltb delta 0 = false) by (apply ltb_false_Qle; lra).
  rewrite E1, E2, E3, andb_false_r. reflexivity.
Qed.



End Reversal.

(* ================================================================== *)
(** * Per-lifecycle detection: which rule an event comes from *)
(* ================================================================== *)

Section Detection.

Import Events.

Variable utcoffset_eastern : datetime -> option Z.
Variable cfg : Config.

(** Every event of a rule has the rule's type and level. *)
Ltac rule_events :=
  repeat match goal with
         | |- context [match ?x with _ => _ end] => destruct x
         end;
  simpl; intros e He;
  repeat match goal with
         | H : _ \/ _ |- _ => destruct H
         | H : False |- _ => destruct H
         end;
  subst; split; reflexivity.

Lemma close_completed_rule_events (lc : TradeLifecycle.t) (last : ExecutionFill.t) :
  forall e, In e (close_completed_rule lc last) ->
            TradeEvent.event_type e = TradeEventType.close_completed
            /\ TradeEvent.level e = EventLevel.P2.
Proof. unfold close_completed_rule. rule_events. Qed.

Lemma stop_loss_rule_events (lc : TradeLifecycle.t) (fs : list ExecutionFill.t) :
  forall e, In e (stop_loss_rule lc fs) ->
            TradeEvent.event_type e = TradeEventType.stop_loss_triggered
            /\ TradeEvent.level e = EventLevel.P0.
Proof. unfold stop_loss_rule. rule_events. Qed.

Lemma big_loss_rule_events (lc : TradeLifecycle.t) (last : ExecutionFill.t) :
  forall e, In e (big_loss_rule cfg lc last) ->
            TradeEvent.event_type e = TradeEventType.big_loss_pct_equity
            /\ TradeEvent.level e = EventLevel.P0.
Proof. unfold big_loss_rule. rule_events. Qed.

Lemma high_leverage_rule_events (lc : TradeLifecycle.t) (first : ExecutionFill.t) :
  forall e, In e (high_leverage_rule cfg lc first) ->
            TradeEvent.event_type e = TradeEventType.high_leverage_used
            /\ TradeEvent.level e = EventLevel.P1.
Proof. unfold high_leverage_rule. rule_events. Qed.

Lemma night_trading_rule_events (lc : TradeLifecycle.t) (first : ExecutionFill.t) :
  forall e, In e (night_trading_rule utcoffset_eastern cfg lc first) ->
            TradeEvent.event_type e = TradeEventType.night_trading_us_eastern
            /\ TradeEvent.level e = EventLevel.P1.
Proof. unfold night_trading_rule. rule_events. Qed.

Lemma fills_sorted_recompute (lc : TradeLifecycle.t) :
  _fills_sorted (TradeLifecycle.recompute lc) = _fills_sorted lc.
Proof. unfold _fills_sorted. rewrite recompute_fills. reflexivity. Qed.

(** The event list of a lifecycle with fills, rule by rule. *)
Lemma detect_decomp (lc : TradeLifecycle.t) :
  TradeLifecycle.fills lc <> [] ->
  exists first rest,
    _fills_sorted lc = first :: rest
    /\ detect_events_for_lifecycle utcoffset_eastern cfg lc =
       let lc' := TradeLifecycle.recompute lc in
       [mk_event lc' TradeEventType.open_completed EventLevel.P2
          (ExecutionFill.ts first) (EvFill (_fill_ref first))]
       ++ close_completed_rule lc' (List.last rest first)
       ++ stop_loss_rule lc' (first :: rest)
       ++ big_loss_rule cfg lc' (List.last rest first)
       ++ high_leverage_rule cfg lc' first
       ++ night_trading_rule utcoffset_eastern cfg lc' first.
Proof.
  intros Hne. unfold detect_events_for_lifecycle.
  destruct (TradeLifecycle.fills lc) as [|f0 fs0] eqn:Ef; [congruence|].
  rewrite fills_sorted_recompute.
  destruct (_fills_sorted lc) as [|first rest] eqn:Es.
  - unfold _fills_sorted in Es. apply sorted_nil_iff in Es. congruence.
  - exists first, rest. split; reflexivity.
Qed.

Lemma detect_empty (lc : TradeLifecycle.t) :
  TradeLifecycle.fills lc = [] ->
  detect_events_for_lifecycle utcoffset_eastern cfg lc = [].
Proof. intros H. unfold detect_events_for_lifecycle. rewrite H. reflexivity. Qed.

(** An event of the stop-loss type can only come from the stop-loss rule,
    and every event of that rule is returned. *)
Lemma detect_stop_loss_iff (lc : TradeLifecycle.t) (e : TradeEvent.t) :
  TradeLifecycle.fills lc <> [] ->
  (In e (detect_events_for_lifecycle utcoffset_eastern cfg lc)
   /\ TradeEvent.event_type e = TradeEventType.stop_loss_triggered)
  <-> In e (stop_loss_rule (TradeLifecycle.recompute lc) (_fills_sorted lc)).
Proof.
  intros Hne. destruct (detect_decomp lc Hne) as (first & rest & Es & Hd).
  rewrite Hd, Es. cbv zeta. split.
  - intros [Hin Hty]. rewrite !in_app_iff in Hin.
    destruct Hin as [Hin|[Hin|[Hin|[Hin|[Hin|Hin]]]]]; try exact Hin; exfalso.
    + destruct Hin as [<-|[]]. discriminate.
    + apply close_completed_rule_events in Hin. destruct Hin; congruence.
    + apply big_loss_rule_events in Hin. destruct Hin; congruence.
    + apply high_leverage_rule_events in Hin. destruct Hin; congruence.
    + apply night_trading_rule_events in Hin. destruct Hin; congruence.
  - intros Hin. split.
    + rewrite !in_app_iff. auto.
    + apply (stop_loss_rule_events _ _ _ Hin).
Qed.

(** Likewise for the night-trading rule. *)
Lemma detect_night_iff (lc : TradeLifecycle.t) (e : TradeEvent.t) :
  TradeLifecycle.fills lc <> [] ->
  (In e (detect_events_for_lifecycle utcoffset_eastern cfg lc)
   /\ TradeEvent.event_type e = TradeEventType.night_trading_us_eastern)
  <-> exists first rest,
        _fills_sorted lc = first :: rest
        /\ In e (night_trading_rule utcoffset_eastern cfg
                   (TradeLifecycle.recompute lc) first).
Proof.
  intros Hne. destruct (detect_decomp lc Hne) as (first & rest & Es & Hd).
  rewrite Hd. cbv zeta. split.
  - intros [Hin Hty]. exists first, rest. split; [exact Es|].
    rewrite !in_app_iff in Hin.
    destruct Hin as [Hin|[Hin|[Hin|[Hin|[Hin|Hin]]]]]; try exact Hin; exfalso.
    + destruct Hin as [<-|[]]. discriminate.
    + apply close_completed_rule_events in Hin. destruct Hin; congruence.
    + apply stop_loss_rule_events in Hin. destruct Hin; congruence.
    + apply big_loss_rule_events in Hin. destruct Hin; congruence.
    + apply high_leverage_rule_events in Hin. destruct Hin; congruence.
  - intros (first' & rest' & Es' & Hin).
    rewrite Es in Es'. injection Es' as <- <-. split.
    + rewrite !in_app_iff. auto 10.
    + apply (night_trading_rule_events _ _ _ Hin).
Qed.

(** No per-lifecycle rule emits a consecutive-losses event. *)
Lemma detect_no_consecutive (lc : TradeLifecycle.t) (e : TradeEvent.t) :
  In e (detect_events_for_lifecycle utcoffset_eastern cfg lc) ->
  TradeEvent.event_type e <> TradeEventType.consecutive_losses.
Proof.
  intros Hin Hty.
  destruct (TradeLifecycle.fills lc) as [|f0 fs0] eqn:Ef.
  - rewrite (detect_empty lc Ef) in Hin. destruct Hin.
  - assert (Hne : TradeLifecycle.fills lc <> []) by congruence.
    destruct (detect_decomp lc Hne) as (first & rest & Es & Hd).
    rewrite Hd in Hin. cbv zeta in Hin. rewrite !in_app_iff in Hin.
    destruct Hin as [Hin|[Hin|[Hin|[Hin|[Hin|Hin]]]]].
    + destruct Hin as [<-|[]]. discriminate.
    + apply close_completed_rule_events in Hin. destruct Hin; congruence.
    + apply stop_loss_rule_events in Hin. destruct Hin; congruence.
    + apply big_loss_rule_events in Hin. destruct Hin; congruence.
    + apply high_leverage_rule_events in Hin. destruct Hin; congruence.
    + apply night_trading_rule_events in Hin. destruct Hin; congruence.
Qed.

End Detection.

(* ================================================================== *)
(** * The stop-loss rule *)
(* ================================================================== *)

Section StopLoss.

Import Events.

Lemma stop_hit_crosses (ps : PositionSide.t) (sl : Q) (f : ExecutionFill.t) :
  stop_hit ps sl f = true <-> Spec.crosses_stop ps sl f.
Proof.
  unfold stop_hit, Spec.crosses_stop.
  destruct ps; destruct (ExecutionFill.side f); simpl;
    rewrite ?andb_false_l, ?andb_true_l;
    try (split; [discriminate | intros []; discriminate || contradiction]).
  - destruct (PyDecimal.leb (ExecutionFill.price f) sl) eqn:E.
    + apply leb_Qle in E. split; auto.
    + apply leb_false_Qlt in E. split; [discriminate|]. intros [_ H]. lra.
  - destruct (PyDecimal.leb sl (ExecutionFill.price f)) eqn:E.
    + apply leb_Qle in E. split; auto.
    + apply leb_false_Qlt in E. split; [discriminate|]. intros [_ H]. lra.
Qed.

Lemma find_split {A : Type} (p : A -> bool) (l : list A) (x : A) :
  find p l = Some x ->
  exists before after,
    l = before ++ x :: after /\ p x = true /\ forall y, In y before -> p y = false.
Proof.
  induction l as [|a l IH]; simpl; [discriminate|].
  destruct (p a) eqn:E.
  - intros [= <-]. exists [], l. repeat split; [exact E | intros y []].
  - intros H. destruct (IH H) as (b & c & -> & Hx & Hb).
    exists (a :: b), c. repeat split; [exact Hx|].
    intros y [<-|Hy]; [exact E | apply Hb, Hy].
Qed.

Lemma sorted_after {A : Type} (R : A -> A -> Prop) (before after : list A) (x : A) :
  StronglySorted R (before ++ x :: after) -> forall y, In y after -> R x y.
Proof.
  induction before as [|b before IH]; simpl; intros Hs y Hy.
  - inversion Hs as [|? ? _ Hall]; subst.
    rewrite Forall_forall in Hall. apply Hall, Hy.
  - inversion Hs; subst. apply IH; assumption.
Qed.

Variable utcoffset_eastern : datetime -> option Z.
Variable cfg : Config.

Lemma stop_loss_example :
  let sell96 := Samples.fill 1 Side.sell 96 1 TradeSide.close PositionSide.long None in
  let sell94 := Samples.fill 2 Side.sell 94 1 TradeSide.close PositionSide.long None in
  let lc0 := Samples.with_stop
               (Samples.lifecycle "a" PositionSide.long [sell96; sell94]
                  Status.closed) 95 in
  exists e,
    In e (detect_events_for_lifecycle utcoffset_eastern cfg lc0)
    /\ TradeEvent.event_type e = TradeEventType.stop_loss_triggered
    /\ TradeEvent.occurred_at e = 2
    /\ TradeEvent.evidence e
       = EvStopLoss 95 (_fill_ref sell94) "price <= planned_stop_loss".
Proof.
  intros sell96 sell94 lc0.
  pose (e0 := mk_event (TradeLifecycle.recompute lc0)
                TradeEventType.stop_loss_triggered EventLevel.P0 2
                (EvStopLoss 95 (_fill_ref sell94) "price <= planned_stop_loss")).
  assert (H : In e0 (stop_loss_rule (TradeLifecycle.recompute lc0) (_fills_sorted lc0))).
  { left. reflexivity. }
  apply (detect_stop_loss_iff utcoffset_eastern cfg lc0 e0) in H; [|discriminate].
  destruct H as [Hin Hty].
  exists e0. repeat split; assumption.
Qed.


End StopLoss.


(* ================================================================== *)
(** * The night-trading rule *)
(* ================================================================== *)

Section NightTrading.

Import Events.

Lemma minute_of_day_eq (local : datetime) :
  Spec.minute_of_day local = 60 * hour_of local + minute_of local
  /\ 0 <= hour_of local < 24
  /\ 0 <= minute_of local < 60.
Proof.
  unfold Spec.minute_of_day, hour_of, minute_of, usec_per_hour, usec_per_minute.
  replace 3600000000 with (60000000 * 60) by reflexivity.
  rewrite <- Z.div_div by lia.
  generalize (local / 60000000). intros q.
  pose proof (Z.mod_pos_bound (q / 60) 24 ltac:(lia)).
  pose proof (Z.mod_pos_bound q 60 ltac:(lia)).
  repeat split; try lia.
  Z.div_mod_to_equations. lia.
Qed.

(** The test of the rule under the default window. *)
Lemma default_window_test (local : datetime) :
  ((22 <? hour_of local) || ((hour_of local =? 22) && (0 <=? minute_of local))
   || ((hour_of local <? 6) || ((hour_of local =? 6) && (minute_of local <=? 0)))) = true
  <-> Spec.in_night_window (Spec.minute_of_day local).
Proof.
  destruct (minute_of_day_eq local) as (-> & Hh & Hm).
  unfold Spec.in_night_window.
  rewrite !orb_true_iff, !andb_true_iff, !Z.ltb_lt, !Z.leb_le, !Z.eqb_eq. lia.
Qed.

Variable utcoffset_eastern : datetime -> option Z.

Lemma entry_ts_recompute (lc : TradeLifecycle.t) (first : ExecutionFill.t)
    (rest : list ExecutionFill.t) :
  _fills_sorted lc = first :: rest ->
  TradeMetrics.entry_ts (TradeLifecycle.metrics (TradeLifecycle.recompute lc))
  = Some (ExecutionFill.ts first).
Proof.
  intros Es.
  assert (Hne : TradeLifecycle.fills lc <> []).
  { intros He. unfold _fills_sorted in Es. rewrite He in Es. discriminate. }
  rewrite (recompute_metrics lc Hne). unfold TradeLifecycle.derive_metrics.
  cbn [TradeMetrics.entry_ts]. unfold _fills_sorted in Es. rewrite Es. reflexivity.
Qed.

(** What the rule returns under the default configuration. *)
Lemma night_rule_default (lc : TradeLifecycle.t) (first : ExecutionFill.t)
    (rest : list ExecutionFill.t) (e : TradeEvent.t) :
  _fills_sorted lc = first :: rest ->
  In e (night_trading_rule utcoffset_eastern default_config
          (TradeLifecycle.recompute lc) first)
  <-> exists off,
        utcoffset_eastern (ExecutionFill.ts first) = Some off
        /\ Spec.in_night_window (Spec.minute_of_day (ExecutionFill.ts first + off))
        /\ e = mk_event (TradeLifecycle.recompute lc)
                 TradeEventType.night_trading_us_eastern EventLevel.P1
                 (ExecutionFill.ts first)
                 (EvNight (ExecutionFill.ts first) (ExecutionFill.ts first + off)
                    "22:00" "06:00" "America/New_York"
                    "local_time >= start OR local_time <= end (cross-day window, inclusive end)").
Proof.
  intros Es. unfold night_trading_rule.
  rewrite (entry_ts_recompute lc first rest Es). cbn [ts_or].
  destruct (utcoffset_eastern (ExecutionFill.ts first)) as [off|].
  - change (us_eastern_night_window default_config) with ("22:00"%string, "06:00"%string).
    cbv iota beta zeta.
    change (parse_hm "22:00") with (Some (22, 0)).
    change (parse_hm "06:00") with (Some (6, 0)).
    cbv iota beta.
    pose proof (default_window_test (ExecutionFill.ts first + off)) as Hw.
    destruct (_ || _) eqn:Et.
    + split.
      * intros [<-|[]]. exists off. repeat split. apply Hw. reflexivity.
      * intros (off' & [= <-] & _ & ->). left. reflexivity.
    + split; [intros [] |].
      intros (off' & [= <-] & Hin & _). apply Hw in Hin. discriminate.
  - split; [intros [] | intros (off & Hoff & _); discriminate].
Qed.


End NightTrading.


(* ================================================================== *)
(** * The consecutive-losses rule *)
(* ================================================================== *)

Section ConsecutiveLosses.

Import Events.

Lemma count_type_app (ty : TradeEventType.t) (l1 l2 : list TradeEvent.t) :
  Spec.count_type ty (l1 ++ l2) = (Spec.count_type ty l1 + Spec.count_type ty l2)%nat.
Proof. unfold Spec.count_type. rewrite filter_app, length_app. reflexivity. Qed.

Lemma type_eqb_eq (a b : TradeEventType.t) : TradeEventType.eqb a b = true <-> a = b.
Proof. destruct a, b; simpl; split; congruence. Qed.

Lemma count_type_none (ty : TradeEventType.t) (l : list TradeEvent.t) :
  (forall e, In e l -> TradeEvent.event_type e <> ty) -> Spec.count_type ty l = 0%nat.
Proof.
  unfold Spec.count_type. induction l as [|e l IH]; intros H; [reflexivity|].
  simpl. destruct (TradeEventType.eqb (TradeEvent.event_type e) ty) eqn:E.
  - apply type_eqb_eq in E. exfalso. apply (H e); [left; reflexivity | exact E].
  - apply IH. intros e' He'. apply H. right. exact He'.
Qed.

Lemma effect_recompute (lc : TradeLifecycle.t) :
  detect_events_effect (TradeLifecycle.recompute lc) = TradeLifecycle.recompute lc.
Proof.
  unfold detect_events_effect. rewrite recompute_fills.
  destruct (TradeLifecycle.fills lc); [reflexivity | apply recompute_idem].
Qed.

Lemma map_effect_recompute (lcs : list TradeLifecycle.t) :
  map detect_events_effect (map TradeLifecycle.recompute lcs)
  = map TradeLifecycle.recompute lcs.
Proof.
  rewrite map_map. apply map_ext. intros lc. apply effect_recompute.
Qed.

Lemma is_loss_iff (w : TradeLifecycle.t) : is_loss w = true <-> Spec.loss w.
Proof.
  unfold is_loss, Spec.loss, Py.or_else, PyDecimal.opt_truthy, PyDecimal.truthy.
  destruct (TradeMetrics.realized_pnl_usdt (TradeLifecycle.metrics w)) as [p|].
  - destruct (PyDecimal.eqb p 0) eqn:E; simpl.
    + apply eqb_Qeq in E. split; [discriminate|].
      intros (q & [= <-] & Hq). lra.
    + rewrite ltb_Qlt. split.
      * intros H. exists p. split; [reflexivity | exact H].
      * intros (q & [= <-] & Hq). exact Hq.
  - simpl. split; [discriminate | intros (q & Hq & _); discriminate].
Qed.

Lemma lastn_length {A : Type} (n : nat) (l : list A) :
  (n <= List.length l)%nat -> List.length (Py.lastn n l) = n.
Proof. intros H. unfold Py.lastn. rewrite length_skipn. lia. Qed.

Lemma last_opt_some {A : Type} (l : list A) :
  l <> [] -> exists x, Py.last_opt l = Some x.
Proof.
  intros H. unfold Py.last_opt. destruct (rev l) as [|x r] eqn:E.
  - exfalso. apply H. apply (f_equal (@rev A)) in E. rewrite rev_involutive in E.
    exact E.
  - exists x. reflexivity.
Qed.

(** When the cross-lifecycle rule emits: at most one event, of the
    consecutive-losses type, under the guard [n >= 2], with at least [n]
    considered lifecycles, the last [n] of which are all losses. *)
Lemma consecutive_rule_spec (cfg : Config) (lcs : list TradeLifecycle.t) :
  let n := consecutive_losses_n cfg in
  let rule := consecutive_losses_rule cfg lcs in
  (List.length rule <= 1)%nat
  /\ (forall e, In e rule ->
                TradeEvent.event_type e = TradeEventType.consecutive_losses)
  /\ (rule <> [] <->
      2 <= n /\ n <= Z.of_nat (List.length (closed_sorted lcs))
      /\ Forall Spec.loss (Py.lastn (Z.to_nat n) (closed_sorted lcs))).
Proof.
  intros n rule. subst rule. unfold consecutive_losses_rule. fold n.
  destruct (2 <=? n) eqn:E2; [apply Z.leb_le in E2 | apply Z.leb_gt in E2];
    [|simpl; repeat split; try (intros; lia || contradiction || congruence)].
  destruct (n <=? Z.of_nat (List.length (closed_sorted lcs))) eqn:E3;
    [apply Z.leb_le in E3 | apply Z.leb_gt in E3];
    [|simpl; repeat split; try (intros; lia || contradiction || congruence)].
  cbn [andb].
  destruct (forallb is_loss (Py.lastn (Z.to_nat n) (closed_sorted lcs))) eqn:Ef.
  - assert (Hall : Forall Spec.loss (Py.lastn (Z.to_nat n) (closed_sorted lcs))).
    { apply Forall_forall. intros w Hw. apply is_loss_iff.
      rewrite forallb_forall in Ef. apply Ef, Hw. }
    destruct (last_opt_some (Py.lastn (Z.to_nat n) (closed_sorted lcs))) as [x Hx].
    { intros Hnil. apply (f_equal (@List.length _)) in Hnil.
      rewrite lastn_length in Hnil by lia. simpl in Hnil. lia. }
    rewrite Hx. repeat split; try (simpl; lia); try assumption.
    + intros e [<-|[]]. reflexivity.
    + discriminate.
  - simpl. repeat split; try (intros; lia || contradiction || congruence).
    intros (_ & _ & Hall). exfalso.
    assert (Ht : forallb is_loss (Py.lastn (Z.to_nat n) (closed_sorted lcs)) = true).
    { apply forallb_forall. intros w Hw. apply is_loss_iff.
      rewrite Forall_forall in Hall. apply Hall, Hw. }
    congruence.
Qed.

Variable utcoffset_eastern : datetime -> option Z.

(** The batch detector's events of the consecutive-losses type are
    exactly those of the cross-lifecycle rule on the recomputed batch. *)
Lemma batch_consecutive (cfg : Config) (lcs : list TradeLifecycle.t) :
  let events := detect_events_for_lifecycles utcoffset_eastern cfg lcs in
  let rule := consecutive_losses_rule cfg (map TradeLifecycle.recompute lcs) in
  Spec.count_type TradeEventType.consecutive_losses events = List.length rule
  /\ (Spec.fires TradeEventType.consecutive_losses events <-> rule <> []).
Proof.
  intros events rule. subst events rule. unfold detect_events_for_lifecycles.
  rewrite map_effect_recompute.
  set (out := flat_map _ _). set (rule := consecutive_losses_rule _ _).
  assert (Hout : forall e, In e out ->
                           TradeEvent.event_type e <> TradeEventType.consecutive_losses).
  { intros e He. subst out. apply in_flat_map in He. destruct He as (lc & _ & He).
    apply (detect_no_consecutive _ _ _ _ He). }
  destruct (consecutive_rule_spec cfg (map TradeLifecycle.recompute lcs))
    as (_ & Hty & _). fold rule in Hty.
  split.
  - rewrite count_type_app, (count_type_none _ _ Hout). simpl.
    unfold Spec.count_type. induction rule as [|e r IH]; [reflexivity|].
    simpl. rewrite (proj2 (type_eqb_eq _ _) (Hty e (or_introl eq_refl))).
    simpl. f_equal. apply IH. intros e' He'. apply Hty. right. exact He'.
  - split.
    + intros (e & Hin & He). apply in_app_iff in Hin. destruct Hin as [Hin|Hin].
      * exfalso. apply (Hout e Hin He).
      * intros Hnil. rewrite Hnil in Hin. destruct Hin.
    + intros Hne. destruct rule as [|e r]; [congruence|].
      exists e. split; [apply in_app_iff; right; left; reflexivity|].
      apply Hty. left. reflexivity.
Qed.

(** C5 (amended).  The batch detector returns at most one
    consecutive-losses event.  Among the recomputed lifecycles that have
    both an exit timestamp and a realized PnL, sorted by exit time, it
    returns one exactly when the window size N is at least 2, there are
    at least N such lifecycles, and the last N all have a realized PnL
    below 0.  With N = 3, the PnLs -1, -2, -3, +1, -4 in exit order do
    not fire, and +1, -1, -2, -3 (the final three all losses) do. *)
Theorem C5_consecutive_losses :
  forall (cfg : Config) (lcs : list TradeLifecycle.t),
    let n := consecutive_losses_n cfg in
    let events := detect_events_for_lifecycles utcoffset_eastern cfg lcs in
    let considered := closed_sorted (map TradeLifecycle.recompute lcs) in
    (Spec.count_type TradeEventType.consecutive_losses events <= 1)%nat
    /\ (Spec.fires TradeEventType.consecutive_losses events
        <-> 2 <= n /\ n <= Z.of_nat (List.length considered)
            /\ Forall Spec.loss (Py.lastn (Z.to_nat n) considered))
    /\ (n < 2 -> ~ Spec.fires TradeEventType.consecutive_losses events)
    /\ ~ Spec.fires TradeEventType.consecutive_losses
           (detect_events_for_lifecycles utcoffset_eastern default_config
              [Samples.closed_with_pnl "d" 4 1; Samples.closed_with_pnl "a" 1 (-1);
               Samples.closed_with_pnl "e" 5 (-4); Samples.closed_with_pnl "b" 2 (-2);
               Samples.closed_with_pnl "c" 3 (-3)])
    /\ Spec.fires TradeEventType.consecutive_losses
         (detect_events_for_lifecycles utcoffset_eastern default_config
            [Samples.closed_with_pnl "b" 2 (-1); Samples.closed_with_pnl "a" 1 1;
             Samples.closed_with_pnl "d" 4 (-3); Samples.closed_with_pnl "c" 3 (-2)]).
Proof.
  intros cfg lcs n events considered.
  destruct (batch_consecutive cfg lcs) as [Hcount Hfires].
  destruct (consecutive_rule_spec cfg (map TradeLifecycle.recompute lcs))
    as (Hlen & _ & Hrule).
  fold events in Hcount, Hfires. fold n considered in Hrule.
  refine (conj _ (conj _ (conj _ (conj _ _)))).
  - rewrite Hcount. exact Hlen.
  - rewrite Hfires. exact Hrule.
  - intros Hn Hf. apply Hfires, Hrule in Hf. lia.
  - intros Hf. apply (batch_consecutive default_config) in Hf. apply Hf. reflexivity.
  - apply (batch_consecutive default_config). discriminate.
Qed.

End ConsecutiveLosses.

(** The claim of C5 read on every window size fails at [N = 1]: a batch
    of one closed lifecycle with PnL -1 has all of its last 1 considered
    entries losing, and no consecutive-losses event is returned. *)
Lemma C5_counterexample :
  let cfg := Events.mkConfig 5 1 10 ("22:00"%string, "06:00"%string) in
  let lcs := [Samples.closed_with_pnl "a" 1 (-1)] in
  Forall Spec.loss
    (Py.lastn (Z.to_nat (Events.consecutive_losses_n cfg))
       (Events.closed_sorted (map TradeLifecycle.recompute lcs)))
  /\ ~ Spec.fires Events.TradeEventType.consecutive_losses
         (Events.detect_events_for_lifecycles Samples.est_offset cfg lcs).
Proof.
  intros cfg lcs. split.
  - repeat constructor. eexists. split; reflexivity.
  - intros Hf. apply (batch_consecutive Samples.est_offset cfg lcs) in Hf.
    apply Hf. reflexivity.
Qed.

(** C5 at window size 2 on two closed lifecycles with PnLs -1 and -2. *)
Lemma C5_consecutive_losses_witness :
  let cfg := Events.mkConfig 5 2 10 ("22:00"%string, "06:00"%string) in
  let lcs := [Samples.closed_with_pnl "a" 1 (-1); Samples.closed_with_pnl "b" 2 (-2)] in
  Spec.fires Events.TradeEventType.consecutive_losses
    (Events.detect_events_for_lifecycles Samples.est_offset cfg lcs).
Proof.
  intros cfg lcs.
  apply (proj1 (proj2 (C5_consecutive_losses Samples.est_offset cfg lcs))).
  refine (conj _ (conj _ _)).
  - cbn. lia.
  - cbn. lia.
  - repeat constructor; eexists; split; reflexivity.
Defined.

(* ================================================================== *)
(** * The aggregator's quantity path *)
(* ================================================================== *)

Section AggregatorPath.

Import Aggregate.

Lemma position_side_eqb_eq (a b : PositionSide.t) :
  PositionSide.eqb a b = true <-> a = b.
Proof. destruct a, b; simpl; split; congruence. Qed.

Lemma path_from_snoc (fs : list ExecutionFill.t) (f : ExecutionFill.t) (q : Q) :
  path_from q (fs ++ [f])
  = path_from q fs
    ++ [(fold_left (fun a g => (a + signed_delta g)%Q) fs q + signed_delta f)%Q].
Proof.
  revert q. induction fs as [|g fs IH]; intros q; simpl; [reflexivity|].
  rewrite IH. reflexivity.
Qed.

Lemma qty_path_snoc (fs : list ExecutionFill.t) (f : ExecutionFill.t) :
  qty_path (fs ++ [f]) = qty_path fs ++ [(running_qty fs + signed_delta f)%Q].
Proof. apply path_from_snoc. Qed.

Lemma running_qty_snoc (fs : list ExecutionFill.t) (f : ExecutionFill.t) :
  running_qty (fs ++ [f]) = (running_qty fs + signed_delta f)%Q.
Proof. unfold running_qty. rewrite fold_left_app. reflexivity. Qed.

Lemma qty_path_nonempty (fs : list ExecutionFill.t) : fs <> [] -> qty_path fs <> [].
Proof. destruct fs; [congruence | discriminate]. Qed.

Lemma nonneg_then_positive_snoc (path : list Q) (q : Q) :
  path <> [] -> Spec.nonneg_then_positive path -> (0 < q)%Q ->
  Spec.nonneg_then_positive (path ++ [q]).
Proof.
  destruct path as [|a path]; [congruence|]. intros _ [Ha Hall] Hq. simpl. split.
  - exact Ha.
  - apply Forall_app. split; [exact Hall | constructor; [exact Hq | constructor]].
Qed.

(** Emitting a lifecycle after [set_status] and [recompute] keeps its
    fills and the status just set. *)
Lemma emitted_fills_status (lc : TradeLifecycle.t) (s : Status.t) :
  TradeLifecycle.fills (TradeLifecycle.recompute (TradeLifecycle.set_status lc s))
  = TradeLifecycle.fills lc
  /\ TradeLifecycle.status (TradeLifecycle.recompute (TradeLifecycle.set_status lc s)) = s.
Proof. rewrite recompute_fills, recompute_status. split; reflexivity. Qed.

Lemma emitted_closed_ok (lc : TradeLifecycle.t) (init : list Q) (q : Q) :
  qty_path (TradeLifecycle.fills lc) = init ++ [q] -> (q <= 0)%Q ->
  Spec.nonneg_then_positive init ->
  Spec.emitted_path_ok
    (TradeLifecycle.recompute (TradeLifecycle.set_status lc Status.closed)).
Proof.
  intros Hp Hq Hi. unfold Spec.emitted_path_ok.
  destruct (emitted_fills_status lc Status.closed) as [-> ->]. split.
  - intros _. exists init, q. repeat split; assumption.
  - discriminate.
Qed.

Lemma emitted_open_ok (lc : TradeLifecycle.t) :
  TradeLifecycle.fills lc <> [] ->
  Spec.nonneg_then_positive (qty_path (TradeLifecycle.fills lc)) ->
  Spec.emitted_path_ok
    (TradeLifecycle.recompute (TradeLifecycle.set_status lc Status.open)).
Proof.
  intros Hne Hp. unfold Spec.emitted_path_ok.
  destruct (emitted_fills_status lc Status.open) as [-> ->]. split.
  - discriminate.
  - intros _. split; [apply qty_path_nonempty, Hne | exact Hp].
Qed.

Variable isoformat : datetime -> string.
Variables exchange symbol : string.

(** Bucket-wise reading of a state after [d[ps] = v]. *)
Ltac by_bucket ps ps' :=
  unfold upd; destruct (PositionSide.eqb ps' ps) eqn:?.

Lemma append_invariant (st : AggState) (ps : PositionSide.t) (f : ExecutionFill.t) :
  Spec.agg_invariant st ->
  Spec.agg_invariant (_append isoformat exchange symbol st ps f (signed_delta f)).
Proof.
  intros [Hb He]. pose proof (Hb ps) as Hps. unfold _append.
  set (d := signed_delta f) in *.
  destruct (current_by_side st ps) as [cur|] eqn:Ecur.
  - (* a lifecycle is in progress *)
    destruct Hps as (Hst & Hne & Hpath & Hq).
    destruct (PyDecimal.leb (qty_by_side st ps + d) 0) eqn:El.
    + apply leb_Qle in El. split; cbn [current_by_side qty_by_side out_lifecycles].
      * intros ps'. by_bucket ps ps'; [reflexivity | apply Hb].
      * apply Forall_app. split; [exact He|]. constructor; [|constructor].
        apply (emitted_closed_ok (TradeLifecycle.append_fill cur f)
                 (qty_path (TradeLifecycle.fills cur)) (qty_by_side st ps + d)%Q).
        -- cbn [TradeLifecycle.append_fill TradeLifecycle.fills].
           rewrite qty_path_snoc, Hq. reflexivity.
        -- exact El.
        -- exact Hpath.
    + apply leb_false_Qlt in El. split; cbn [current_by_side qty_by_side out_lifecycles].
      * intros ps'. by_bucket ps ps'; [|apply Hb].
        unfold Spec.in_progress_ok.
        cbn [TradeLifecycle.append_fill TradeLifecycle.fills TradeLifecycle.status].
        refine (conj Hst (conj _ (conj _ _))).
        -- destruct (TradeLifecycle.fills cur); discriminate.
        -- rewrite qty_path_snoc. apply nonneg_then_positive_snoc.
           ++ apply qty_path_nonempty, Hne.
           ++ exact Hpath.
           ++ rewrite <- Hq. exact El.
        -- rewrite running_qty_snoc, Hq. reflexivity.
      * exact He.
  - (* no lifecycle in progress: the counter is at zero *)
    rewrite Hps. change (PyDecimal.eqb 0 0) with true. cbn [andb].
    destruct (PyDecimal.ltb 0 d && PyDecimal.ltb 0 (0 + d)) eqn:Epos.
    + apply andb_true_iff in Epos. destruct Epos as [_ Epos]. apply ltb_Qlt in Epos.
      split; cbn [current_by_side qty_by_side out_lifecycles]; [|exact He].
      intros ps'. by_bucket ps ps'; [|apply Hb].
      unfold Spec.in_progress_ok. cbn. repeat split; try discriminate.
      * fold d. lra.
      * constructor.
    + destruct (PyDecimal.ltb d 0) eqn:Eneg.
      * apply ltb_Qlt in Eneg.
        split; cbn [current_by_side qty_by_side out_lifecycles].
        -- intros ps'. by_bucket ps ps'; [reflexivity | apply Hb].
        -- apply Forall_app. split; [exact He|]. constructor; [|constructor].
           apply (emitted_closed_ok (_start isoformat exchange symbol ps f) []
                    (0 + d)%Q); [reflexivity | lra | exact I].
      * apply ltb_false_Qle in Eneg.
        split; cbn [current_by_side qty_by_side out_lifecycles]; [|exact He].
        intros ps'. by_bucket ps ps'; [|apply Hb].
        unfold Spec.in_progress_ok. cbn. repeat split; try discriminate.
        -- fold d. lra.
        -- constructor.
Qed.

Lemma feed_invariant (st : AggState) (f : ExecutionFill.t) :
  Spec.agg_invariant st -> Spec.agg_invariant (feed isoformat exchange symbol st f).
Proof.
  intros Hinv. unfold feed.
  destruct (ExecutionFill.trade_side f) eqn:E.
  - pose proof (append_invariant st (ExecutionFill.hold_side f) f Hinv) as H.
    unfold signed_delta in H. rewrite E in H. exact H.
  - pose proof (append_invariant st (ExecutionFill.hold_side f) f Hinv) as H.
    unfold signed_delta in H. rewrite E in H. exact H.
  - set (st1 := mkState _ _ _ _).
    assert (Hinv1 : Spec.agg_invariant st1) by exact Hinv.
    pose proof (append_invariant st1 (ExecutionFill.hold_side f) f Hinv1) as H.
    unfold signed_delta in H. rewrite E in H. exact H.
Qed.

Lemma flush_invariant (st : AggState) (ps : PositionSide.t) :
  Spec.agg_invariant st -> Spec.agg_invariant (flush st ps).
Proof.
  intros [Hb He]. unfold flush. pose proof (Hb ps) as Hps.
  destruct (current_by_side st ps) as [cur|]; [|split; assumption].
  destruct Hps as (_ & Hne & Hpath & _).
  split; cbn [current_by_side qty_by_side out_lifecycles]; [exact Hb|].
  apply Forall_app. split; [exact He|]. constructor; [|constructor].
  apply emitted_open_ok; assumption.
Qed.

Lemma fold_invariant {A : Type} (step : AggState -> A -> AggState) (l : list A) :
  (forall st a, Spec.agg_invariant st -> Spec.agg_invariant (step st a)) ->
  forall st, Spec.agg_invariant st -> Spec.agg_invariant (fold_left step l st).
Proof.
  intros Hstep. induction l as [|a l IH]; intros st Hinv; [exact Hinv|].
  simpl. apply IH, Hstep, Hinv.
Qed.

Lemma aggregate_emitted_ok (fills : list ExecutionFill.t) :
  Forall Spec.emitted_path_ok
    (lifecycles (aggregate_fills_to_lifecycles isoformat exchange symbol fills)).
Proof.
  unfold aggregate_fills_to_lifecycles. cbn [lifecycles].
  apply (fold_invariant flush); [apply flush_invariant|].
  apply (fold_invariant (feed isoformat exchange symbol)); [apply feed_invariant|].
  split; [intros ps; reflexivity | constructor].
Qed.

End AggregatorPath.

Lemma qty_path_last (fs : list ExecutionFill.t) (init : list Q) (q : Q) :
  Aggregate.qty_path fs = init ++ [q] -> q = Aggregate.running_qty fs.
Proof.
  destruct fs as [|f fs] using rev_ind.
  - destruct init; discriminate.
  - rewrite qty_path_snoc, running_qty_snoc. intros H.
    apply app_inj_tail in H. destruct H as [_ H]. symmetry. exact H.
Qed.

(** The claim of C3 on closed lifecycles fails on an overshooting close:
    opening 10 and then closing 15 on the long side yields one closed
    lifecycle whose running quantity after its last fill is
    [0 + 10 - 15], not 0. *)
Lemma C3_counterexample :
  let fills :=
    [Samples.fill 1 Side.buy 100 10 TradeSide.open PositionSide.long None;
     Samples.fill 2 Side.sell 110 15 TradeSide.close PositionSide.long None] in
  let res :=
    Aggregate.aggregate_fills_to_lifecycles Samples.iso "bitget" "BTC/USDT:USDT" fills in
  exists lc,
    Aggregate.lifecycles res = [lc]
    /\ TradeLifecycle.status lc = Status.closed
    /\ TradeLifecycle.fills lc = fills
    /\ Aggregate.running_qty (TradeLifecycle.fills lc) = (0 + 10 + - (15))%Q
    /\ ~ (Aggregate.running_qty (TradeLifecycle.fills lc) == 0)%Q.
Proof.
  intros fills res. eexists. split; [reflexivity|].
  split; [reflexivity|]. split; [reflexivity|]. split; [reflexivity|].
  discriminate.
Qed.

(** C3 (amended).  For every lifecycle the aggregator emits, take the
    running quantities after each of its fills, by the aggregator's own
    signed deltas, from 0.  If the lifecycle is closed, the quantity after
    its last fill is at most 0 (it is below 0 when the closing fill
    overshoots, or when a lone close opens the window), while before that
    it is not negative after the first fill and positive after every
    later one.  If the lifecycle is open, the quantity is not negative
    after the first fill and positive, hence not 0, after every later
    one. *)
Theorem C3_aggregator_quantity_path :
  forall (isoformat : datetime -> string) (exchange symbol : string)
         (fills : list ExecutionFill.t) (lc : TradeLifecycle.t),
    In lc (Aggregate.lifecycles
             (Aggregate.aggregate_fills_to_lifecycles isoformat exchange symbol fills)) ->
    let path := Aggregate.qty_path (TradeLifecycle.fills lc) in
    (TradeLifecycle.status lc = Status.closed ->
       exists init q,
         path = init ++ [q]
         /\ q = Aggregate.running_qty (TradeLifecycle.fills lc)
         /\ (q <= 0)%Q
         /\ Spec.nonneg_then_positive init)
    /\ (TradeLifecycle.status lc = Status.open ->
          exists q rest,
            path = q :: rest
            /\ (0 <= q)%Q
            /\ Forall (fun x => (0 < x)%Q) rest
            /\ Forall (fun x => ~ (x == 0)%Q) rest).
Proof.
  intros isoformat exchange symbol fills lc Hin path.
  pose proof (aggregate_emitted_ok isoformat exchange symbol fills) as Hall.
  rewrite Forall_forall in Hall. destruct (Hall lc Hin) as [Hclosed Hopen].
  fold path in Hclosed, Hopen. split.
  - intros Hst. destruct (Hclosed Hst) as (init & q & Hp & Hq & Hi).
    exists init, q. repeat split; try assumption.
    apply (qty_path_last _ init). exact Hp.
  - intros Hst. destruct (Hopen Hst) as [Hne Hp].
    destruct path as [|q rest]; [congruence|]. destruct Hp as [Hq Hrest].
    exists q, rest. repeat split; try assumption.
    eapply Forall_impl; [|exact Hrest]. cbv beta. intros x Hx Hz. lra.
Qed.

(** C3 at the overshooting close: the emitted closed lifecycle has the
    path [[0 + 10; 0 + 10 - 15]], ending below 0. *)
Lemma C3_aggregator_quantity_path_witness :
  let fills :=
    [Samples.fill 1 Side.buy 100 10 TradeSide.open PositionSide.long None;
     Samples.fill 2 Side.sell 110 15 TradeSide.close PositionSide.long None] in
  let res :=
    Aggregate.aggregate_fills_to_lifecycles Samples.iso "bitget" "BTC/USDT:USDT" fills in
  exists lc,
    In lc (Aggregate.lifecycles res)
    /\ TradeLifecycle.status lc = Status.closed
    /\ exists init q,
         Aggregate.qty_path (TradeLifecycle.fills lc) = init ++ [q] /\ (q <= 0)%Q.
Proof.
  intros fills res.
  pose (lc := hd (Samples.lifecycle "" PositionSide.unknown [] Status.open)
                 (Aggregate.lifecycles res)).
  assert (Hin : In lc (Aggregate.lifecycles res)) by (left; reflexivity).
  assert (Hst : TradeLifecycle.status lc = Status.closed) by reflexivity.
  exists lc. refine (conj Hin (conj Hst _)).
  destruct (proj1 (C3_aggregator_quantity_path Samples.iso "bitget" "BTC/USDT:USDT"
                     fills lc Hin) Hst) as (init & q & Hp & _ & Hq & _).
  exists init, q. split; assumption.
Defined.

(* ================================================================== *)
(** * More on the discipline score *)
(* ================================================================== *)

Section ScoreMore.

Import Generator.
Import Events.

Lemma score_fold_closed (es : list TradeEvent.t) (sc : Z) (bd : Breakdown) :
  fold_left score_step es (sc, bd)
  = (sc - 20 * count_level EventLevel.P0 es - 8 * count_level EventLevel.P1 es,
     mkBreakdown (base bd) (P0 bd - 20 * count_level EventLevel.P0 es)
                 (P1 bd - 8 * count_level EventLevel.P1 es) (P2 bd)).
Proof.
  revert sc bd. induction es as [|e es IH]; intros sc bd.
  - unfold count_level. destruct bd. cbn.
    apply f_equal2; [lia | apply f_equal4; lia].
  - cbn [fold_left]. rewrite !count_level_cons.
    destruct (TradeEvent.level e) eqn:El.
    + replace (score_step (sc, bd) e)
        with (sc - 20, mkBreakdown (base bd) (P0 bd - 20) (P1 bd) (P2 bd))
        by (unfold score_step; rewrite El; reflexivity).
      rewrite IH. cbn [EventLevel.eqb base P0 P1 P2].
      apply f_equal2; [lia | apply f_equal4; lia].
    + replace (score_step (sc, bd) e)
        with (sc - 8, mkBreakdown (base bd) (P0 bd) (P1 bd - 8) (P2 bd))
        by (unfold score_step; rewrite El; reflexivity).
      rewrite IH. cbn [EventLevel.eqb base P0 P1 P2].
      apply f_equal2; [lia | apply f_equal4; lia].
    + replace (score_step (sc, bd) e)
        with (sc, mkBreakdown (base bd) (P0 bd) (P1 bd) (P2 bd + 0))
        by (unfold score_step; rewrite El; reflexivity).
      rewrite IH. cbn [EventLevel.eqb base P0 P1 P2].
      apply f_equal2; [lia | apply f_equal4; lia].
Qed.

Lemma count_level_perm (lvl : EventLevel.t) (es es' : list TradeEvent.t) :
  Permutation es es' -> count_level lvl es = count_level lvl es'.
Proof.
  intros H. induction H as [|x l l' _ IH|x y l|l l' l'' _ IH1 _ IH2].
  - reflexivity.
  - rewrite !count_level_cons, IH. reflexivity.
  - rewrite !count_level_cons. lia.
  - congruence.
Qed.

Lemma count_level_app (lvl : EventLevel.t) (es es' : list TradeEvent.t) :
  count_level lvl (es ++ es') = count_level lvl es + count_level lvl es'.
Proof.
  unfold count_level. rewrite filter_app, length_app. lia.
Qed.

(** X1.  The breakdown returned with the score has base 100, the total P0
    penalty (-20 per event), the total P1 penalty (-8 per event) and 0 for
    P2, and the score is their sum floored at 0. *)
Theorem score_breakdown_accounts_for_score :
  forall events : list TradeEvent.t,
    let r := compute_discipline_score events in
    base (breakdown r) = 100
    /\ P0 (breakdown r) = - 20 * count_level EventLevel.P0 events
    /\ P1 (breakdown r) = - 8 * count_level EventLevel.P1 events
    /\ P2 (breakdown r) = 0
    /\ score r
       = Z.max 0 (base (breakdown r) + P0 (breakdown r) + P1 (breakdown r)
                  + P2 (breakdown r)).
Proof.
  intros events r. subst r. unfold compute_discipline_score.
  rewrite score_fold_closed. cbn [score breakdown base P0 P1 P2].
  repeat split; try lia.
  destruct (_ <? 0) eqn:E; [apply Z.ltb_lt in E | apply Z.ltb_ge in E]; lia.
Qed.

(** X2.  The score and its breakdown do not depend on the order of the
    events. *)
Theorem score_invariant_under_reordering :
  forall events events' : list TradeEvent.t,
    Permutation events events' ->
    compute_discipline_score events = compute_discipline_score events'.
Proof.
  intros events events' H. unfold compute_discipline_score.
  rewrite !score_fold_closed.
  rewrite (count_level_perm EventLevel.P0 _ _ H), (count_level_perm EventLevel.P1 _ _ H).
  reflexivity.
Qed.

Lemma score_invariant_under_reordering_witness :
  let a := Samples.event_of_level EventLevel.P0 in
  let b := Samples.event_of_level EventLevel.P1 in
  let c := Samples.event_of_level EventLevel.P2 in
  compute_discipline_score [a; b; c] = compute_discipline_score [c; a; b].
Proof.
  intros a b c. apply score_invariant_under_reordering.
  apply Permutation_sym. apply (Permutation_cons_append [a; b] c).
Defined.

(** X3.  More events never raise the score; and the score is 0 exactly when
    the penalties reach 100. *)
Theorem score_monotone_and_zero :
  forall events more : list TradeEvent.t,
    score (compute_discipline_score (events ++ more))
    <= score (compute_discipline_score events)
    /\ (score (compute_discipline_score events) = 0
        <-> 100 <= 20 * count_level EventLevel.P0 events
                   + 8 * count_level EventLevel.P1 events).
Proof.
  intros events more. rewrite !score_eq, !count_level_app.
  pose proof (count_level_nonneg EventLevel.P0 more).
  pose proof (count_level_nonneg EventLevel.P1 more).
  split; lia.
Qed.

End ScoreMore.

(* ================================================================== *)
(** * More on metrics recomputation: timestamps and counts *)
(* ================================================================== *)

Section RecomputeTimes.

Import TradeLifecycle.

Lemma last_opt_cons {A : Type} (a : A) (l : list A) :
  Py.last_opt (a :: l) = Some (List.last l a).
Proof.
  unfold Py.last_opt. destruct l as [|b l] using rev_ind; [reflexivity|].
  rewrite app_comm_cons, rev_unit, last_last. reflexivity.
Qed.

Lemma sorted_head_min {A : Type} (key : A -> Z) (a : A) (l : list A) :
  StronglySorted (Py.key_le key) (a :: l) ->
  forall x, In x (a :: l) -> key a <= key x.
Proof.
  intros Hs x [<-|Hx]; [lia|].
  inversion Hs as [|? ? _ Hall]; subst. rewrite Forall_forall in Hall.
  apply Hall, Hx.
Qed.

Lemma last_cons_default {A : Type} (l : list A) (a b : A) :
  List.last (b :: l) a = List.last l b.
Proof.
  revert a b. induction l as [|c l IH]; intros a b; [reflexivity|].
  change (List.last (b :: c :: l) a) with (List.last (c :: l) a).
  rewrite (IH a c). symmetry. apply IH.
Qed.

Lemma sorted_last_max {A : Type} (key : A -> Z) (l : list A) (a : A) :
  StronglySorted (Py.key_le key) (a :: l) ->
  In (List.last l a) (a :: l)
  /\ forall x, In x (a :: l) -> key x <= key (List.last l a).
Proof.
  revert a. induction l as [|b l IH]; intros a Hs.
  - split; [left; reflexivity|]. intros x [<-|[]]. cbn. lia.
  - inversion Hs as [|? ? Hs' Hall]; subst.
    destruct (IH b Hs') as [Hin Hmax]. rewrite last_cons_default.
    split; [right; exact Hin|].
    intros x [<-|Hx]; [|apply Hmax, Hx].
    apply Z.le_trans with (key b).
    + rewrite Forall_forall in Hall. apply Hall. left. reflexivity.
    + apply Hmax. left. reflexivity.
Qed.



Lemma filter_length_insert_by {A : Type} (key : A -> Z) (p : A -> bool) (x : A)
    (l : list A) :
  List.length (filter p (Py.insert_by key x l)) = List.length (filter p (x :: l)).
Proof.
  induction l as [|y l IH]; [reflexivity|].
  cbn [Py.insert_by]. destruct (key x <=? key y); [reflexivity|].
  cbn [filter] in *. destruct (p y), (p x); cbn [List.length] in *; lia.
Qed.

Lemma filter_length_sorted {A : Type} (key : A -> Z) (p : A -> bool) (l : list A) :
  List.length (filter p (Py.sorted key l)) = List.length (filter p l).
Proof.
  induction l as [|x l IH]; [reflexivity|].
  cbn [Py.sorted fold_right]. rewrite filter_length_insert_by. fold (Py.sorted key l).
  cbn [filter]. destruct (p x); cbn [List.length]; rewrite IH; reflexivity.
Qed.

Lemma count_trade_sides_fold (fs : list ExecutionFill.t) (a b : Z) :
  fold_left
    (fun (acc : Z * Z) f =>
       match ExecutionFill.trade_side f with
       | TradeSide.open => (fst acc + 1, snd acc)
       | TradeSide.close => (fst acc, snd acc + 1)
       | TradeSide.unknown => acc
       end) fs (a, b)
  = (a + Props.count_tag TradeSide.open fs, b + Props.count_tag TradeSide.close fs).
Proof.
  revert a b. induction fs as [|f fs IH]; intros a b.
  - unfold Props.count_tag. cbn. f_equal; lia.
  - cbn [fold_left]. unfold Props.count_tag, Props.tagged in *. cbn [filter].
    destruct (ExecutionFill.trade_side f); cbn [fst snd TradeSide.eqb];
      rewrite IH; cbn [List.length]; f_equal; lia.
Qed.

Lemma count_tag_total (fs : list ExecutionFill.t) :
  Props.count_tag TradeSide.open fs + Props.count_tag TradeSide.close fs
  + Props.count_tag TradeSide.unknown fs = Z.of_nat (List.length fs).
Proof.
  unfold Props.count_tag, Props.tagged. induction fs as [|f fs IH]; [reflexivity|].
  cbn [filter]. destruct (ExecutionFill.trade_side f);
    cbn [TradeSide.eqb List.length]; lia.
Qed.

(** X5.  After recompute, fills_count is the number of fills, adds_count the
    number of fills tagged open and reductions_count the number tagged
    close; untagged fills are counted in neither, so the three tags add up
    to fills_count. *)
Theorem recompute_counts :
  forall lc : t,
    let m := metrics (recompute lc) in
    TradeMetrics.fills_count m = Z.of_nat (List.length (fills lc))
    /\ TradeMetrics.adds_count m = Props.count_tag TradeSide.open (fills lc)
    /\ TradeMetrics.reductions_count m = Props.count_tag TradeSide.close (fills lc)
    /\ TradeMetrics.adds_count m + TradeMetrics.reductions_count m
       + Props.count_tag TradeSide.unknown (fills lc)
       = TradeMetrics.fills_count m.
Proof.
  intros lc m. subst m.
  destruct (fills lc) as [|f0 fs0] eqn:Ef.
  { assert (Hm : metrics (recompute lc) = TradeMetrics.default).
    { unfold recompute. rewrite Ef. reflexivity. }
    rewrite Hm. repeat split. }
  assert (Hne : fills lc <> []) by congruence.
  rewrite (recompute_metrics lc Hne), Ef. unfold derive_metrics.
  cbn [TradeMetrics.fills_count TradeMetrics.adds_count TradeMetrics.reductions_count].
  unfold count_trade_sides. rewrite count_trade_sides_fold. cbn [fst snd].
  unfold Props.count_tag, Props.tagged. rewrite !filter_length_sorted, sorted_length.
  pose proof (count_tag_total (f0 :: fs0)) as Ht.
  unfold Props.count_tag, Props.tagged in Ht.
  repeat split; lia.
Qed.

End RecomputeTimes.

(* ================================================================== *)
(** * More on metrics recomputation: prices and exposure *)
(* ================================================================== *)

Section RecomputeExposure.

Import TradeLifecycle.

Lemma wavg_fold (tag : TradeSide.t) (fs : list ExecutionFill.t) (a b : Q) :
  let r :=
    fold_left
      (fun (acc : Q * Q) f =>
         if negb (TradeSide.eqb (ExecutionFill.trade_side f) tag) then acc
         else (fst acc + ExecutionFill.price f * ExecutionFill.amount f,
               snd acc + ExecutionFill.amount f)%Q)
      fs (a, b) in
  (fst r == a + Props.sumQ (map Props.price_amount (Props.tagged tag fs)))%Q
  /\ (snd r == b + Props.sumQ (map ExecutionFill.amount (Props.tagged tag fs)))%Q.
Proof.
  revert a b. induction fs as [|f fs IH]; intros a b; cbn zeta.
  - cbn. split; ring.
  - cbn [fold_left]. unfold Props.tagged in *. cbn [filter].
    destruct (TradeSide.eqb (ExecutionFill.trade_side f) tag); cbn [negb].
    + destruct (IH (fst (a, b) + ExecutionFill.price f * ExecutionFill.amount f)%Q
                   (snd (a, b) + ExecutionFill.amount f)%Q) as [H1 H2].
      cbn zeta in H1, H2. rewrite H1, H2. cbn [map fst snd].
      unfold Props.price_amount, Props.sumQ. cbn [fold_right]. split; ring.
    + apply IH.
Qed.

Lemma sumQ_tagged_perm (g : ExecutionFill.t -> Q) (tag : TradeSide.t)
    (l l' : list ExecutionFill.t) :
  Permutation l l' ->
  (Props.sumQ (map g (Props.tagged tag l)) == Props.sumQ (map g (Props.tagged tag l')))%Q.
Proof.
  unfold Props.tagged. intros H.
  induction H as [|x l l' _ IH|x y l|l l' l'' _ IH1 _ IH2].
  - reflexivity.
  - cbn [filter]. destruct (TradeSide.eqb _ _); [|exact IH].
    unfold Props.sumQ in *. cbn [map fold_right].
    apply Qplus_comp; [reflexivity | exact IH].
  - cbn [filter]. unfold Props.sumQ.
    destruct (TradeSide.eqb (ExecutionFill.trade_side x) tag),
             (TradeSide.eqb (ExecutionFill.trade_side y) tag);
      cbn [map fold_right]; ring.
  - rewrite IH1. exact IH2.
Qed.

Lemma sumQ_bounds (lo hi : Q) (l : list ExecutionFill.t) :
  (forall f, In f l ->
             (0 <= ExecutionFill.amount f)%Q
             /\ (lo <= ExecutionFill.price f)%Q /\ (ExecutionFill.price f <= hi)%Q) ->
  (0 <= Props.sumQ (map ExecutionFill.amount l))%Q
  /\ (lo * Props.sumQ (map ExecutionFill.amount l)
      <= Props.sumQ (map Props.price_amount l))%Q
  /\ (Props.sumQ (map Props.price_amount l)
      <= hi * Props.sumQ (map ExecutionFill.amount l))%Q.
Proof.
  induction l as [|f l IH]; intros H.
  - cbn. repeat split; lra.
  - destruct (H f (or_introl eq_refl)) as (Ha & Hlo & Hhi).
    destruct (IH (fun g Hg => H g (or_intror Hg))) as (I0 & I1 & I2).
    unfold Props.sumQ in *. cbn [map fold_right].
    set (S := fold_right Qplus 0%Q (map ExecutionFill.amount l)) in *.
    set (T := fold_right Qplus 0%Q (map Props.price_amount l)) in *.
    unfold Props.price_amount.
    assert (H1 : (lo * ExecutionFill.amount f
                  <= ExecutionFill.price f * ExecutionFill.amount f)%Q)
      by (apply Qmult_le_compat_r; assumption).
    assert (H2 : (ExecutionFill.price f * ExecutionFill.amount f
                  <= hi * ExecutionFill.amount f)%Q)
      by (apply Qmult_le_compat_r; assumption).
    repeat split; lra.
Qed.

Lemma wavg_weighted_average (tag : TradeSide.t) (l : list ExecutionFill.t) :
  Props.weighted_average_of tag l
    (wavg_price_by_trade_side (Py.sorted ExecutionFill.ts l) tag).
Proof.
  unfold wavg_price_by_trade_side, Props.weighted_average_of.
  pose proof (wavg_fold tag (Py.sorted ExecutionFill.ts l) 0 0) as Hf.
  cbn zeta in Hf. destruct (fold_left _ _ _) as [px_qty qty].
  cbn [fst snd] in Hf. destruct Hf as [H1 H2].
  rewrite (sumQ_tagged_perm Props.price_amount tag _ _
             (sorted_perm ExecutionFill.ts l)) in H1.
  rewrite (sumQ_tagged_perm ExecutionFill.amount tag _ _
             (sorted_perm ExecutionFill.ts l)) in H2.
  set (S1 := Props.sumQ (map Props.price_amount (Props.tagged tag l))) in *.
  set (S2 := Props.sumQ (map ExecutionFill.amount (Props.tagged tag l))) in *.
  assert (E1 : (px_qty == S1)%Q) by (rewrite H1; ring).
  assert (E2 : (qty == S2)%Q) by (rewrite H2; ring).
  destruct (PyDecimal.eqb qty 0) eqn:Eq.
  - apply eqb_Qeq in Eq. rewrite <- E2. exact Eq.
  - apply eqb_false_Qeq in Eq.
    assert (Hnz : ~ (S2 == 0)%Q) by (rewrite <- E2; exact Eq).
    refine (conj Hnz (conj _ _)).
    + rewrite E1, E2. reflexivity.
    + intros lo hi Hb.
      destruct (sumQ_bounds lo hi (Props.tagged tag l) Hb) as (B0 & B1 & B2).
      fold S1 S2 in B0, B1, B2.
      assert (Hpos : (0 < S2)%Q).
      { destruct (Qlt_le_dec 0 S2) as [Hlt|Hle]; [exact Hlt|].
        exfalso. apply Hnz. lra. }
      rewrite E1, E2. split.
      * apply Qle_shift_div_l; assumption.
      * apply Qle_shift_div_r; assumption.
Qed.



Lemma fold_max_spec (xs : list Q) (x : Q) :
  let n := fold_left PyDecimal.max xs x in
  (n = x \/ In n xs) /\ (x <= n)%Q /\ forall y, In y xs -> (y <= n)%Q.
Proof.
  revert x. induction xs as [|a xs IH]; intros x; cbn zeta.
  - cbn. repeat split; [left; reflexivity | lra | intros y []].
  - cbn [fold_left]. destruct (IH (PyDecimal.max x a)) as (Hin & Hle & Hall).
    cbn zeta in Hin, Hle, Hall.
    assert (Hmax : (PyDecimal.max x a = x \/ PyDecimal.max x a = a)
                   /\ (x <= PyDecimal.max x a)%Q /\ (a <= PyDecimal.max x a)%Q).
    { unfold PyDecimal.max. destruct (PyDecimal.ltb x a) eqn:E.
      - apply ltb_Qlt in E. repeat split; [right; reflexivity | lra | lra].
      - apply ltb_false_Qle in E. repeat split; [left; reflexivity | lra | lra]. }
    destruct Hmax as (Hc & Hx & Ha).
    refine (conj _ (conj _ _)).
    + destruct Hin as [Hin|Hin]; [|right; right; exact Hin].
      rewrite Hin. destruct Hc as [->| ->]; [left; reflexivity | right; left; reflexivity].
    + lra.
    + intros y [<-|Hy]; [lra | apply Hall, Hy].
Qed.

(** X7.  For a lifecycle with fills, max_abs_notional_usdt is the notional
    ([|amount * price|]) of one of the fills and no fill has a larger
    one. *)
Theorem recompute_max_notional :
  forall lc : t,
    fills lc <> [] ->
    exists n,
      TradeMetrics.max_abs_notional_usdt (metrics (recompute lc)) = Some n
      /\ (exists f, In f (fills lc) /\ n = Props.notional f)
      /\ (forall f, In f (fills lc) -> (Props.notional f <= n)%Q)
      /\ (0 <= n)%Q.
Proof.
  intros lc Hne. rewrite (recompute_metrics lc Hne). unfold derive_metrics.
  cbn [TradeMetrics.max_abs_notional_usdt].
  pose proof (sorted_In ExecutionFill.ts (fills lc)) as Hin.
  destruct (Py.sorted ExecutionFill.ts (fills lc)) as [|first rest] eqn:Es.
  { apply sorted_nil_iff in Es. congruence. }
  cbn [map PyDecimal.max_list].
  set (g := fun f => Qabs (ExecutionFill.amount f * ExecutionFill.price f)).
  destruct (fold_max_spec (map g rest) (g first)) as (Hn & Hle & Hall).
  cbn zeta in Hn, Hle, Hall.
  exists (fold_left PyDecimal.max (map g rest) (g first)).
  refine (conj eq_refl (conj _ (conj _ _))).
  - destruct Hn as [Hn|Hn].
    + exists first. split; [apply Hin; left; reflexivity | exact Hn].
    + apply in_map_iff in Hn. destruct Hn as (f & Hf & Hfin).
      exists f. split; [apply Hin; right; exact Hfin | symmetry; exact Hf].
  - intros f Hf. apply Hin in Hf. destruct Hf as [<-|Hf]; [exact Hle|].
    apply Hall. apply in_map. exact Hf.
  - apply Qle_trans with (g first); [apply Qabs_nonneg | exact Hle].
Qed.

Lemma recompute_max_notional_witness :
  let fs := [Samples.fill 1 Side.buy 100 2 TradeSide.open PositionSide.long None;
             Samples.fill 2 Side.sell 90 3 TradeSide.close PositionSide.long None] in
  let lc := Samples.lifecycle "a" PositionSide.long fs Status.closed in
  exists n,
    TradeMetrics.max_abs_notional_usdt (metrics (recompute lc)) = Some n
    /\ (Qabs (3 * 90) <= n)%Q.
Proof.
  intros fs lc.
  destruct (recompute_max_notional lc ltac:(discriminate)) as (n & Hn & _ & Hall & _).
  exists n. split; [exact Hn|].
  apply (Hall (Samples.fill 2 Side.sell 90 3 TradeSide.close PositionSide.long None)).
  right. left. reflexivity.
Defined.

End RecomputeExposure.

(* ================================================================== *)
(** * More on the position-tracking loop *)
(* ================================================================== *)

Section PositionLoop.

Import TradeLifecycle.

Lemma max_cases (a b : Q) :
  (PyDecimal.max a b = a \/ PyDecimal.max a b = b)
  /\ (a <= PyDecimal.max a b)%Q /\ (b <= PyDecimal.max a b)%Q.
Proof.
  unfold PyDecimal.max. destruct (PyDecimal.ltb a b) eqn:E.
  - apply ltb_Qlt in E. repeat split; [right; reflexivity | lra | lra].
  - apply ltb_false_Qle in E. repeat split; [left; reflexivity | lra | lra].
Qed.

Lemma pos_step_max (st : PosState) (f : ExecutionFill.t) :
  max_abs_pos (pos_step st f)
  = PyDecimal.max (max_abs_pos st) (Qabs (pos (pos_step st f))).
Proof.
  unfold pos_step. destruct (same_direction (pos st) (fill_delta f)); reflexivity.
Qed.

Lemma firstn_snoc_fold (fs : list ExecutionFill.t) (f : ExecutionFill.t) (st : PosState)
    (k : nat) :
  fold_left pos_step (firstn (S k) (f :: fs)) st
  = fold_left pos_step (firstn k fs) (pos_step st f).
Proof. reflexivity. Qed.

(** The high-water mark along a run started in any state. *)
Lemma run_high_water (fs : list ExecutionFill.t) (st : PosState) :
  let final := fold_left pos_step fs st in
  (max_abs_pos st <= max_abs_pos final)%Q
  /\ (forall k, (1 <= k <= List.length fs)%nat ->
                (Qabs (pos (fold_left pos_step (firstn k fs) st))
                 <= max_abs_pos final)%Q)
  /\ (max_abs_pos final = max_abs_pos st
      \/ exists k, (1 <= k <= List.length fs)%nat
                   /\ max_abs_pos final
                      = Qabs (pos (fold_left pos_step (firstn k fs) st))).
Proof.
  revert st. induction fs as [|f fs IH]; intros st; cbn zeta.
  - cbn [fold_left]. refine (conj _ (conj _ _)).
    + lra.
    + intros k Hk. cbn [List.length] in Hk. lia.
    + left. reflexivity.
  - cbn [fold_left]. destruct (IH (pos_step st f)) as (Hmono & Hall & Hatt).
    cbn zeta in Hmono, Hall, Hatt.
    pose proof (pos_step_max st f) as Hm.
    destruct (max_cases (max_abs_pos st) (Qabs (pos (pos_step st f))))
      as (Hc & Hl & Hr).
    rewrite <- Hm in Hc, Hl, Hr.
    refine (conj _ (conj _ _)).
    + lra.
    + intros k Hk. cbn [List.length] in Hk.
      destruct k as [|k]; [lia|]. rewrite firstn_snoc_fold.
      destruct k as [|k].
      * cbn [firstn fold_left]. lra.
      * apply Hall. lia.
    + destruct Hatt as [Hatt|(k & Hk & Hatt)].
      * rewrite Hatt. destruct Hc as [Hc|Hc].
        -- left. exact Hc.
        -- right. exists 1%nat. split; [cbn [List.length]; lia|]. exact Hc.
      * right. exists (S k). split; [cbn [List.length]; lia|].
        rewrite firstn_snoc_fold. exact Hatt.
Qed.

(** X8.  max_abs_position_amount is the high-water mark of the tracked
    position over the time-sorted fills: when present it is positive, no
    position along the way exceeds it in size and one attains it; it is
    absent exactly when the tracked position is zero after every fill. *)
Theorem recompute_position_high_water :
  forall lc : t,
    fills lc <> [] ->
    let m := metrics (recompute lc) in
    let fs := fills_sorted lc in
    (forall a, TradeMetrics.max_abs_position_amount m = Some a ->
               (0 < a)%Q
               /\ (forall k, (Qabs (Props.pos_after k fs) <= a)%Q)
               /\ exists k, a = Qabs (Props.pos_after k fs))
    /\ (TradeMetrics.max_abs_position_amount m = None ->
          forall k, (Props.pos_after k fs == 0)%Q).
Proof.
  intros lc Hne m fs. subst m. rewrite (recompute_metrics lc Hne).
  unfold derive_metrics. cbn [TradeMetrics.max_abs_position_amount].
  fold (fills_sorted lc). fold fs.
  destruct (run_high_water fs init_pos) as (Hmono & Hall & Hatt).
  cbn zeta in Hmono, Hall, Hatt. fold (run_positions fs) in Hmono, Hall, Hatt.
  change (max_abs_pos init_pos) with 0%Q in Hmono, Hatt.
  assert (Hbound : forall k, (Qabs (Props.pos_after k fs) <= max_abs_pos (run_positions fs))%Q).
  { intros k. unfold Props.pos_after. destruct k as [|k].
    - cbn. exact Hmono.
    - destruct (Nat.le_gt_cases (S k) (List.length fs)) as [Hle|Hgt].
      + apply Hall. lia.
      + rewrite firstn_all2 by lia.
        assert (Hlen : (1 <= List.length fs)%nat).
        { destruct fs as [|f0 fs0] eqn:Efs; [|cbn; lia].
          exfalso. apply Hne. apply (sorted_nil_iff ExecutionFill.ts). exact Efs. }
        pose proof (Hall (List.length fs) (conj Hlen (Nat.le_refl _))) as Hl.
        rewrite firstn_all in Hl. exact Hl. }
  destruct (PyDecimal.eqb (max_abs_pos (run_positions fs)) 0) eqn:E.
  - apply eqb_Qeq in E. split; [discriminate|]. intros _ k.
    pose proof (Hbound k) as Hk. rewrite E in Hk.
    apply Qabs_Qle_condition in Hk. lra.
  - apply eqb_false_Qeq in E. split; [|discriminate].
    intros a [= <-]. refine (conj _ (conj Hbound _)).
    + destruct (Qlt_le_dec 0 (max_abs_pos (run_positions fs))) as [Hlt|Hle];
        [exact Hlt|]. exfalso. apply E. lra.
    + destruct Hatt as [Hatt|(k & _ & Hatt)].
      * exfalso. apply E. rewrite Hatt. reflexivity.
      * exists k. exact Hatt.
Qed.

(** A position built to 5, cut to 2 and reversed to -7: the mark is 7. *)
Lemma recompute_position_high_water_witness :
  let fs := [Samples.fill 1 Side.buy 100 5 TradeSide.open PositionSide.long None;
             Samples.fill 2 Side.sell 100 3 TradeSide.close PositionSide.long None;
             Samples.fill 3 Side.sell 100 9 TradeSide.close PositionSide.long None] in
  let lc := Samples.lifecycle "a" PositionSide.long fs Status.closed in
  exists a,
    TradeMetrics.max_abs_position_amount (metrics (recompute lc)) = Some a
    /\ (0 < a)%Q /\ (Qabs (Props.pos_after 1 (fills_sorted lc)) <= a)%Q.
Proof.
  intros fs lc.
  destruct (recompute_position_high_water lc ltac:(discriminate)) as [Hsome _].
  destruct (TradeMetrics.max_abs_position_amount (metrics (recompute lc)))
    as [a|] eqn:E; [|discriminate].
  destruct (Hsome a eq_refl) as (Hpos & Hall & _).
  exists a. refine (conj eq_refl (conj Hpos (Hall 1%nat))).
Defined.

Lemma same_direction_true (prev delta : Q) :
  same_direction prev delta = true
  <-> (prev == 0)%Q \/ ((0 < prev)%Q /\ (0 < delta)%Q) \/ ((prev < 0)%Q /\ (delta < 0)%Q).
Proof.
  unfold same_direction.
  rewrite !orb_true_iff, !andb_true_iff, !ltb_Qlt, eqb_Qeq. tauto.
Qed.



End PositionLoop.

(* ================================================================== *)
(** * Order of the fill list, and a full round trip *)
(* ================================================================== *)

Section FillOrder.

Import TradeLifecycle.

Context {A : Type} (key : A -> Z).

Lemma sorted_strict (l : list A) :
  StronglySorted (Py.key_le key) l -> NoDup (map key l) ->
  StronglySorted (fun x y => key x < key y) l.
Proof.
  induction l as [|a l IH]; intros Hs Hnd; [constructor|].
  inversion Hs as [|? ? Hs' Hall]; subst. inversion Hnd as [|? ? Hnotin Hnd']; subst.
  constructor; [apply IH; assumption|].
  rewrite Forall_forall in *. intros x Hx. specialize (Hall x Hx).
  unfold Py.key_le in Hall.
  assert (key a <> key x).
  { intros E. apply Hnotin. rewrite E. apply in_map. exact Hx. }
  lia.
Qed.

Lemma strict_sorted_unique (l1 l2 : list A) :
  StronglySorted (fun x y => key x < key y) l1 ->
  StronglySorted (fun x y => key x < key y) l2 ->
  Permutation l1 l2 -> l1 = l2.
Proof.
  revert l2. induction l1 as [|a l1 IH]; intros l2 H1 H2 Hp.
  - apply Permutation_nil in Hp. subst. reflexivity.
  - destruct l2 as [|b l2].
    { apply Permutation_sym, Permutation_nil in Hp. discriminate. }
    inversion H1 as [|? ? H1' Hall1]; subst. inversion H2 as [|? ? H2' Hall2]; subst.
    rewrite Forall_forall in Hall1, Hall2.
    assert (Hab : a = b).
    { assert (Ha : In a (b :: l2)) by (apply (Permutation_in _ Hp); left; reflexivity).
      assert (Hb : In b (a :: l1))
        by (apply (Permutation_in _ (Permutation_sym Hp)); left; reflexivity).
      destruct Ha as [Ha|Ha]; [symmetry; exact Ha|].
      destruct Hb as [Hb|Hb]; [exact Hb|].
      specialize (Hall1 b Hb). specialize (Hall2 a Ha). lia. }
    subst b. f_equal. apply IH; try assumption.
    apply (Permutation_cons_inv Hp).
Qed.

Lemma sorted_of_permutation (l l' : list A) :
  Permutation l l' -> NoDup (map key l) -> Py.sorted key l = Py.sorted key l'.
Proof.
  intros Hp Hnd.
  assert (Hnd' : NoDup (map key l')).
  { apply (Permutation_NoDup (Permutation_map key Hp) Hnd). }
  apply strict_sorted_unique.
  - apply sorted_strict; [apply sorted_sorted|].
    apply (Permutation_NoDup
             (Permutation_map key (Permutation_sym (sorted_perm key l))) Hnd).
  - apply sorted_strict; [apply sorted_sorted|].
    apply (Permutation_NoDup
             (Permutation_map key (Permutation_sym (sorted_perm key l'))) Hnd').
  - eapply Permutation_trans; [apply sorted_perm|].
    eapply Permutation_trans; [exact Hp|]. apply Permutation_sym, sorted_perm.
Qed.

End FillOrder.

Section FillOrderMetrics.

Import TradeLifecycle.

(** X10.  When the fills have pairwise distinct timestamps, the order in which
    the fill list holds them does not matter: recompute yields the same
    metrics for every reordering of the list. *)
Theorem recompute_ignores_fill_order :
  forall (lc : t) (fs' : list ExecutionFill.t),
    Permutation (fills lc) fs' ->
    NoDup (map ExecutionFill.ts (fills lc)) ->
    metrics (recompute (Props.with_fills lc fs')) = metrics (recompute lc).
Proof.
  intros lc fs' Hp Hnd.
  destruct (fills lc) as [|f0 fs0] eqn:Ef.
  { apply Permutation_nil in Hp. subst fs'.
    unfold recompute. cbn [Props.with_fills fills]. rewrite Ef. reflexivity. }
  assert (Hne : fills lc <> []) by congruence.
  assert (Hne' : fills (Props.with_fills lc fs') <> []).
  { cbn [Props.with_fills fills]. intros ->.
    apply Permutation_sym, Permutation_nil in Hp. discriminate. }
  rewrite (recompute_metrics lc Hne), (recompute_metrics _ Hne').
  cbn [Props.with_fills fills funding_payments_usdt status metrics].
  unfold derive_metrics. rewrite Ef.
  rewrite <- (sorted_of_permutation ExecutionFill.ts (f0 :: fs0) fs' Hp Hnd).
  reflexivity.
Qed.

Lemma recompute_ignores_fill_order_witness :
  let a := Samples.fill 1 Side.buy 100 10 TradeSide.open PositionSide.long None in
  let b := Samples.fill 2 Side.sell 110 4 TradeSide.close PositionSide.long None in
  let c := Samples.fill 3 Side.sell 120 6 TradeSide.close PositionSide.long None in
  let lc := Samples.lifecycle "a" PositionSide.long [a; b; c] Status.closed in
  metrics (recompute (Props.with_fills lc [c; a; b])) = metrics (recompute lc).
Proof.
  intros a b c lc. apply recompute_ignores_fill_order.
  - apply Permutation_sym. apply (Permutation_cons_append [a; b] c).
  - repeat constructor; cbn; intuition discriminate.
Defined.

Lemma sorted_pair (f1 f2 : ExecutionFill.t) :
  ExecutionFill.ts f1 < ExecutionFill.ts f2 ->
  Py.sorted ExecutionFill.ts [f1; f2] = [f1; f2]
  /\ Py.sorted ExecutionFill.ts [f2; f1] = [f1; f2].
Proof.
  intros H. cbn.
  destruct (ExecutionFill.ts f1 <=? ExecutionFill.ts f2) eqn:E1;
    [|apply Z.leb_gt in E1; lia].
  destruct (ExecutionFill.ts f2 <=? ExecutionFill.ts f1) eqn:E2;
    [apply Z.leb_le in E2; lia|].
  split; reflexivity.
Qed.

Lemma min_cases (a b : Q) :
  (PyDecimal.min a b = a \/ PyDecimal.min a b = b).
Proof. unfold PyDecimal.min. destruct (PyDecimal.ltb b a); auto. Qed.

(** X11.  A full round trip.  A closed lifecycle of two fills without reported
    profit, an entry of a positive amount and a later exit of the same
    amount on the other side, has realized PnL
    [(exit - entry) * amount] when bought first (a long) and
    [(entry - exit) * amount] when sold first (a short), less both fees,
    plus the funding payments; and the tracked position ends flat. *)
Theorem round_trip_realized_pnl :
  forall (lc : t) (f1 f2 : ExecutionFill.t),
    fills lc = [f1; f2] \/ fills lc = [f2; f1] ->
    ExecutionFill.ts f1 < ExecutionFill.ts f2 ->
    status lc = Status.closed ->
    ExecutionFill.reported_profit_usdt f1 = None ->
    ExecutionFill.reported_profit_usdt f2 = None ->
    ExecutionFill.side f1 <> ExecutionFill.side f2 ->
    (0 < ExecutionFill.amount f1)%Q ->
    (ExecutionFill.amount f2 == ExecutionFill.amount f1)%Q ->
    exists pnl,
      TradeMetrics.realized_pnl_usdt (metrics (recompute lc)) = Some pnl
      /\ (pnl ==
          (if Side.eqb (ExecutionFill.side f1) Side.buy
           then (ExecutionFill.price f2 - ExecutionFill.price f1)
           else (ExecutionFill.price f1 - ExecutionFill.price f2))
          * ExecutionFill.amount f1
          - (ExecutionFill.fee_cost f1 + ExecutionFill.fee_cost f2)
          + PyDecimal.sum (map snd (funding_payments_usdt lc)))%Q
      /\ (Props.pos_after 2 (fills_sorted lc) == 0)%Q.
Proof.
  intros lc f1 f2 Hfills Hts Hst Hr1 Hr2 Hside Hq Heq.
  assert (Hne : fills lc <> []) by (destruct Hfills as [-> | ->]; discriminate).
  assert (Hsorted : fills_sorted lc = [f1; f2]).
  { unfold fills_sorted. destruct (sorted_pair f1 f2 Hts) as [S1 S2].
    destruct Hfills as [-> | ->]; assumption. }
  rewrite (recompute_metrics lc Hne). unfold derive_metrics.
  cbn [TradeMetrics.realized_pnl_usdt]. rewrite Hst. cbn [Status.eqb].
  fold (fills_sorted lc). rewrite Hsorted.
  eexists. split; [reflexivity|].
  unfold Props.pos_after, run_positions, base_realized.
  cbn [firstn fold_left map PyDecimal.sum].
  (* first fill: the position is flat *)
  assert (E1 : pos_step init_pos f1
               = mkPos (0 + fill_delta f1)
                       (PyDecimal.max 0 (Qabs (0 + fill_delta f1)))
                       (ExecutionFill.price f1) 0 0 false).
  { unfold pos_step. rewrite Hr1. reflexivity. }
  rewrite E1. clear E1.
  set (d1 := fill_delta f1). set (d2 := fill_delta f2).
  unfold pos_step. rewrite Hr2. cbn [pos avg_entry realized realized_reported has_reported
                                     max_abs_pos].
  fold d2.
  pose proof (min_cases (Qabs (0 + d1)) (Qabs d2)) as Hmin.
  unfold close_qty.
  destruct (ExecutionFill.side f1) eqn:S1, (ExecutionFill.side f2) eqn:S2;
    try congruence; cbn [Side.eqb].
  - (* buy then sell *)
    assert (D1 : d1 = ExecutionFill.amount f1) by (unfold d1, fill_delta; rewrite S1; reflexivity).
    assert (D2 : d2 = (- ExecutionFill.amount f2)%Q)
      by (unfold d2, fill_delta; rewrite S2; reflexivity).
    assert (A1 : (Qabs (0 + d1) == ExecutionFill.amount f1)%Q)
      by (rewrite D1, Qabs_pos; lra).
    assert (A2 : (Qabs d2 == ExecutionFill.amount f1)%Q)
      by (rewrite D2, Qabs_opp, Qabs_pos; lra).
    rewrite (same_direction_long_sell (0 + d1) d2) by (rewrite ?D1, ?D2; lra).
    rewrite (proj2 (ltb_Qlt 0 (0 + d1))) by (rewrite D1; lra).
    rewrite (proj2 (ltb_Qlt d2 0)) by (rewrite D2; lra).
    cbn [andb].
    assert (M : (PyDecimal.min (Qabs (0 + d1)) (Qabs d2) == ExecutionFill.amount f1)%Q)
      by (destruct Hmin as [-> | ->]; assumption).
    rewrite (proj2 (ltb_false_Qle 0 (Qabs d2 - PyDecimal.min (Qabs (0 + d1)) (Qabs d2))))
      by (rewrite M, A2; lra).
    cbn [pos realized has_reported realized_reported]. split.
    + rewrite M. unfold PyDecimal.sum. cbn [fold_left map]. ring.
    + rewrite M, D1. ring.
  - (* sell then buy *)
    assert (D1 : d1 = (- ExecutionFill.amount f1)%Q)
      by (unfold d1, fill_delta; rewrite S1; reflexivity).
    assert (D2 : d2 = ExecutionFill.amount f2) by (unfold d2, fill_delta; rewrite S2; reflexivity).
    assert (A1 : (Qabs (0 + d1) == ExecutionFill.amount f1)%Q).
    { rewrite D1. setoid_replace (0 + - ExecutionFill.amount f1)%Q
        with (- ExecutionFill.amount f1)%Q by ring.
      rewrite Qabs_opp, Qabs_pos; lra. }
    assert (A2 : (Qabs d2 == ExecutionFill.amount f1)%Q)
      by (rewrite D2, Qabs_pos; lra).
    rewrite (same_direction_short_buy (0 + d1) d2) by (rewrite ?D1, ?D2; lra).
    rewrite (proj2 (ltb_false_Qle 0 (0 + d1))) by (rewrite D1; lra).
    rewrite (proj2 (ltb_Qlt (0 + d1) 0)) by (rewrite D1; lra).
    rewrite (proj2 (ltb_Qlt 0 d2)) by (rewrite D2; lra).
    cbn [andb].
    assert (M : (PyDecimal.min (Qabs (0 + d1)) (Qabs d2) == ExecutionFill.amount f1)%Q)
      by (destruct Hmin as [-> | ->]; assumption).
    rewrite (proj2 (ltb_false_Qle 0 (Qabs d2 - PyDecimal.min (Qabs (0 + d1)) (Qabs d2))))
      by (rewrite M, A2; lra).
    cbn [pos realized has_reported realized_reported]. split.
    + rewrite M. unfold PyDecimal.sum. cbn [fold_left map]. ring.
    + rewrite M, D1. ring.
Qed.

(** A short: sold 4 at 100 (fee 1), bought back 4 at 90 (fee 2), one
    funding payment of -3; the fills are listed exit first. *)
Lemma round_trip_realized_pnl_witness :
  let f1 := ExecutionFill.mk 10 "BTC/USDT:USDT" Side.sell 100 4 1 TradeSide.open None
              PositionSide.short "bitget" None None in
  let f2 := ExecutionFill.mk 20 "BTC/USDT:USDT" Side.buy 90 4 2 TradeSide.close None
              PositionSide.short "bitget" None None in
  let lc := mk "a" "bitget" "BTC/USDT:USDT" PositionSide.short [f2; f1] [(15, (-3)%Q)]
              TradePlan.default TradeMetrics.default RiskMetrics.default Status.closed in
  exists pnl,
    TradeMetrics.realized_pnl_usdt (metrics (recompute lc)) = Some pnl
    /\ (pnl == (100 - 90) * 4 - (1 + 2) + (0 + -3))%Q.
Proof.
  intros f1 f2 lc.
  destruct (round_trip_realized_pnl lc f1 f2) as (pnl & Hp & Hv & _);
    try reflexivity; try discriminate.
  - right. reflexivity.
  - exists pnl. split; [exact Hp | exact Hv].
Defined.

End FillOrderMetrics.

(* ================================================================== *)
(** * The aggregator: every fill lands in exactly one lifecycle *)
(* ================================================================== *)

Section AggregatorPartition.

Import Aggregate.

Variable isoformat : datetime -> string.
Variables exchange symbol : string.

(** Permutations of concatenations: bring the same block to the front on
    both sides. *)
Ltac perm_rot :=
  etransitivity; [| apply Permutation_app_comm]; rewrite <- ?app_assoc.

Ltac perm_go n :=
  lazymatch n with
  | O => fail
  | S ?m =>
      first [ apply Permutation_refl
            | apply Permutation_app_head; perm_go 6%nat
            | perm_rot; perm_go m ]
  end.

Ltac perm_solve := rewrite ?app_nil_r, ?app_nil_l, <- ?app_assoc; perm_go 6%nat.

Lemma append_held (st : AggState) (ps : PositionSide.t) (f : ExecutionFill.t) (d : Q) :
  Permutation (Props.held_fills (_append isoformat exchange symbol st ps f d))
              (Props.held_fills st ++ [f]).
Proof.
  unfold _append.
  destruct (current_by_side st ps) as [cur|] eqn:Ecur.
  - destruct (PyDecimal.leb _ _);
      unfold Props.held_fills, Props.bucket_fills;
      cbn [current_by_side out_lifecycles]; unfold upd;
      destruct ps; cbn [PositionSide.eqb]; rewrite ?Ecur;
      rewrite ?map_app, ?concat_app; cbn [map List.concat];
      rewrite ?recompute_fills;
      cbn [TradeLifecycle.fills TradeLifecycle.set_status TradeLifecycle.append_fill];
      perm_solve.
  - destruct (_ && _ && _); [|destruct (PyDecimal.ltb d 0)];
      unfold Props.held_fills, Props.bucket_fills;
      cbn [current_by_side out_lifecycles]; unfold upd;
      destruct ps; cbn [PositionSide.eqb]; rewrite ?Ecur;
      rewrite ?map_app, ?concat_app; cbn [map List.concat];
      rewrite ?recompute_fills;
      cbn [TradeLifecycle.fills TradeLifecycle.set_status _start];
      perm_solve.
Qed.

Lemma feed_held (st : AggState) (f : ExecutionFill.t) :
  Permutation (Props.held_fills (feed isoformat exchange symbol st f))
              (Props.held_fills st ++ [f]).
Proof.
  unfold feed. destruct (ExecutionFill.trade_side f); try apply append_held.
  match goal with
  | |- Permutation (Props.held_fills (_append _ _ _ ?st1 _ _ _)) _ =>
      change (Props.held_fills st) with (Props.held_fills st1)
  end.
  apply append_held.
Qed.

Lemma fold_feed_held (fs : list ExecutionFill.t) (st : AggState) :
  Permutation (Props.held_fills (fold_left (feed isoformat exchange symbol) fs st))
              (Props.held_fills st ++ fs).
Proof.
  revert st. induction fs as [|f fs IH]; intros st.
  - cbn. rewrite app_nil_r. apply Permutation_refl.
  - cbn [fold_left]. eapply Permutation_trans; [apply IH|].
    eapply Permutation_trans; [apply Permutation_app_tail, feed_held|].
    rewrite <- app_assoc. apply Permutation_refl.
Qed.

(** The result of the aggregator: the lifecycles closed during the loop,
    then those still in progress. *)
Lemma aggregate_lifecycles_eq (fills : list ExecutionFill.t) :
  let st := fold_left (feed isoformat exchange symbol)
                      (Py.sorted ExecutionFill.ts fills) init_state in
  lifecycles (aggregate_fills_to_lifecycles isoformat exchange symbol fills)
  = out_lifecycles st ++ Props.flushed st.
Proof.
  cbn zeta. unfold aggregate_fills_to_lifecycles. cbn [lifecycles].
  set (st := fold_left _ _ init_state).
  unfold Props.flushed. cbn [fold_left flat_map]. unfold flush.
  destruct (current_by_side st PositionSide.long) as [cl|] eqn:El;
    cbn [current_by_side out_lifecycles qty_by_side];
    destruct (current_by_side st PositionSide.short) as [cs|] eqn:Es;
    cbn [current_by_side out_lifecycles qty_by_side];
    destruct (current_by_side st PositionSide.unknown) as [cu|] eqn:Eu;
    cbn [current_by_side out_lifecycles qty_by_side app];
    rewrite <- ?app_assoc, ?app_nil_r; reflexivity.
Qed.

Lemma flushed_fills (st : AggState) :
  List.concat (map TradeLifecycle.fills (Props.flushed st))
  = Props.bucket_fills st PositionSide.long
    ++ Props.bucket_fills st PositionSide.short
    ++ Props.bucket_fills st PositionSide.unknown.
Proof.
  unfold Props.flushed, Props.bucket_fills. cbn [flat_map].
  destruct (current_by_side st PositionSide.long);
    destruct (current_by_side st PositionSide.short);
    destruct (current_by_side st PositionSide.unknown);
    cbn [app map List.concat]; rewrite ?recompute_fills;
    cbn [TradeLifecycle.fills TradeLifecycle.set_status];
    rewrite ?app_nil_r, <- ?app_assoc; reflexivity.
Qed.

(** X12.  The fills of the emitted lifecycles, taken together, are the input
    fills, each exactly once: no fill is dropped and none is put in two
    lifecycles. *)
Theorem aggregate_partitions_fills :
  forall fills : list ExecutionFill.t,
    Permutation
      (List.concat
         (map TradeLifecycle.fills
              (lifecycles
                 (aggregate_fills_to_lifecycles isoformat exchange symbol fills))))
      fills
    /\ (List.length
          (lifecycles (aggregate_fills_to_lifecycles isoformat exchange symbol fills))
        <= List.length fills)%nat.
Proof.
  intros fills.
  assert (Hp : Permutation
      (List.concat
         (map TradeLifecycle.fills
              (lifecycles
                 (aggregate_fills_to_lifecycles isoformat exchange symbol fills))))
      fills).
  { rewrite aggregate_lifecycles_eq. rewrite map_app, concat_app, flushed_fills.
    eapply Permutation_trans; [apply fold_feed_held|].
    cbn. apply sorted_perm. }
  split; [exact Hp|].
  rewrite <- (Permutation_length Hp). clear Hp.
  pose proof (aggregate_emitted_ok isoformat exchange symbol fills) as Hok.
  induction (lifecycles (aggregate_fills_to_lifecycles isoformat exchange symbol fills))
    as [|lc lcs IH]; [cbn; lia|].
  inversion Hok as [|? ? Hlc Hrest]; subst.
  cbn [map List.concat List.length]. rewrite length_app.
  specialize (IH Hrest).
  assert (Hne : (1 <= List.length (TradeLifecycle.fills lc))%nat).
  { destruct Hlc as [Hclosed Hopen].
    destruct (TradeLifecycle.status lc) eqn:Est.
    - destruct (Hopen eq_refl) as [Hne _].
      destruct (TradeLifecycle.fills lc); [exfalso; apply Hne; reflexivity | cbn; lia].
    - destruct (Hclosed eq_refl) as (init & q & Hpath & _).
      destruct (TradeLifecycle.fills lc); [destruct init; discriminate | cbn; lia]. }
  lia.
Qed.

End AggregatorPartition.

(* ================================================================== *)
(** * The aggregator: shape and order of the emitted lifecycles *)
(* ================================================================== *)

Section AggregatorShape.

Import Aggregate.

Variable isoformat : datetime -> string.
Variables exchange symbol : string.

Lemma recompute_exchange (lc : TradeLifecycle.t) :
  TradeLifecycle.exchange (TradeLifecycle.recompute lc) = TradeLifecycle.exchange lc.
Proof. destruct lc as [? ? ? ? [|? ?] ? ? ? ? ?]; reflexivity. Qed.

Lemma built_for_emit (lc : TradeLifecycle.t) (s : Status.t) :
  Props.built_for isoformat exchange symbol lc ->
  Props.built_for isoformat exchange symbol
    (TradeLifecycle.recompute (TradeLifecycle.set_status lc s)).
Proof.
  unfold Props.built_for.
  rewrite recompute_exchange, recompute_fills, recompute_position_side.
  destruct (recompute_identity (TradeLifecycle.set_status lc s)) as [-> ->].
  destruct lc; exact (fun H => H).
Qed.

Lemma built_for_append (lc : TradeLifecycle.t) (f : ExecutionFill.t) :
  ExecutionFill.hold_side f = TradeLifecycle.position_side lc ->
  Props.built_for isoformat exchange symbol lc ->
  Props.built_for isoformat exchange symbol (TradeLifecycle.append_fill lc f).
Proof.
  intros Hf (He & Hs & Hall & first & rest & Hfills & Hid).
  unfold Props.built_for.
  cbn [TradeLifecycle.append_fill TradeLifecycle.exchange TradeLifecycle.symbol
       TradeLifecycle.fills TradeLifecycle.position_side TradeLifecycle.lifecycle_id].
  refine (conj He (conj Hs (conj _ _))).
  - apply Forall_app. split; [exact Hall | constructor; [exact Hf | constructor]].
  - exists first, (rest ++ [f]). rewrite Hfills. split; [reflexivity | exact Hid].
Qed.

Lemma built_for_start (ps : PositionSide.t) (f : ExecutionFill.t) :
  ExecutionFill.hold_side f = ps ->
  Props.built_for isoformat exchange symbol (_start isoformat exchange symbol ps f).
Proof.
  intros Hf. unfold Props.built_for, _start.
  cbn [TradeLifecycle.exchange TradeLifecycle.symbol TradeLifecycle.fills
       TradeLifecycle.position_side TradeLifecycle.lifecycle_id].
  refine (conj eq_refl (conj eq_refl (conj _ _))).
  - constructor; [exact Hf | constructor].
  - exists f, []. split; reflexivity.
Qed.

Lemma emitted_closed (lc : TradeLifecycle.t) :
  Props.built_for isoformat exchange symbol lc ->
  let e := TradeLifecycle.recompute (TradeLifecycle.set_status lc Status.closed) in
  TradeLifecycle.status e = Status.closed
  /\ Props.built_for isoformat exchange symbol e
  /\ TradeLifecycle.recompute e = e.
Proof.
  intros Hb e. subst e. refine (conj _ (conj (built_for_emit _ _ Hb) _)).
  - rewrite recompute_status. reflexivity.
  - apply recompute_idem.
Qed.

Lemma append_shape (st : AggState) (f : ExecutionFill.t) (d : Q) :
  Props.shape_invariant isoformat exchange symbol st ->
  Props.shape_invariant isoformat exchange symbol
    (_append isoformat exchange symbol st (ExecutionFill.hold_side f) f d).
Proof.
  intros [Hb Ho]. unfold _append.
  set (ps := ExecutionFill.hold_side f) in *.
  destruct (current_by_side st ps) as [cur|] eqn:Ecur.
  - destruct (Hb ps cur Ecur) as (Hside & Hst & Hbuilt).
    assert (Hbuilt1 : Props.built_for isoformat exchange symbol
                        (TradeLifecycle.append_fill cur f)).
    { apply built_for_append; [rewrite Hside; reflexivity | exact Hbuilt]. }
    destruct (PyDecimal.leb _ _); split; cbn [current_by_side out_lifecycles].
    + intros ps' cur'. unfold upd.
      destruct (PositionSide.eqb ps' ps); [discriminate | apply Hb].
    + apply Forall_app. split; [exact Ho|]. constructor; [|constructor].
      apply emitted_closed, Hbuilt1.
    + intros ps' cur'. unfold upd.
      destruct (PositionSide.eqb ps' ps) eqn:E; [|apply Hb].
      apply position_side_eqb_eq in E. subst ps'. intros [= <-].
      refine (conj _ (conj _ Hbuilt1)); [exact Hside | exact Hst].
    + exact Ho.
  - destruct (_ && _ && _); [|destruct (PyDecimal.ltb d 0)];
      split; cbn [current_by_side out_lifecycles]; try exact Ho.
    + intros ps' cur'. unfold upd.
      destruct (PositionSide.eqb ps' ps) eqn:E; [|apply Hb].
      apply position_side_eqb_eq in E. subst ps'. intros [= <-].
      refine (conj eq_refl (conj eq_refl _)). apply built_for_start. reflexivity.
    + intros ps' cur'. unfold upd.
      destruct (PositionSide.eqb ps' ps); [discriminate | apply Hb].
    + apply Forall_app. split; [exact Ho|]. constructor; [|constructor].
      apply emitted_closed, built_for_start. reflexivity.
    + intros ps' cur'. unfold upd.
      destruct (PositionSide.eqb ps' ps) eqn:E; [|apply Hb].
      apply position_side_eqb_eq in E. subst ps'. intros [= <-].
      refine (conj eq_refl (conj eq_refl _)). apply built_for_start. reflexivity.
Qed.

Lemma feed_shape (st : AggState) (f : ExecutionFill.t) :
  Props.shape_invariant isoformat exchange symbol st ->
  Props.shape_invariant isoformat exchange symbol (feed isoformat exchange symbol st f).
Proof.
  intros H. unfold feed. destruct (ExecutionFill.trade_side f); apply append_shape; exact H.
Qed.

Lemma fold_feed_shape (fs : list ExecutionFill.t) (st : AggState) :
  Props.shape_invariant isoformat exchange symbol st ->
  Props.shape_invariant isoformat exchange symbol
    (fold_left (feed isoformat exchange symbol) fs st).
Proof.
  revert st. induction fs as [|f fs IH]; intros st H; [exact H|].
  cbn [fold_left]. apply IH, feed_shape, H.
Qed.

Lemma sorted_snoc {A : Type} (R : A -> A -> Prop) (l : list A) (x : A) :
  StronglySorted R l -> (forall y, In y l -> R y x) -> StronglySorted R (l ++ [x]).
Proof.
  induction l as [|a l IH]; intros Hs Hx; cbn.
  - constructor; constructor.
  - inversion Hs as [|? ? Hs' Hall]; subst. constructor.
    + apply IH; [exact Hs' | intros y Hy; apply Hx; right; exact Hy].
    + apply Forall_app. split; [exact Hall|].
      constructor; [apply Hx; left; reflexivity | constructor].
Qed.

Lemma in_time_order_emit (lc : TradeLifecycle.t) (s : Status.t) :
  Props.in_time_order lc ->
  Props.in_time_order (TradeLifecycle.recompute (TradeLifecycle.set_status lc s)).
Proof.
  unfold Props.in_time_order. rewrite recompute_fills. destruct lc; exact (fun H => H).
Qed.

Lemma append_order (st : AggState) (ps : PositionSide.t) (f : ExecutionFill.t) (d : Q)
    (upcoming : list ExecutionFill.t) :
  Props.order_invariant (f :: upcoming) st ->
  (forall g, In g upcoming -> ExecutionFill.ts f <= ExecutionFill.ts g) ->
  Props.order_invariant upcoming (_append isoformat exchange symbol st ps f d).
Proof.
  intros [Hb Ho] Hup. unfold _append.
  assert (Hother : forall ps' cur',
             current_by_side st ps' = Some cur' ->
             Props.in_time_order cur'
             /\ forall g u, In g (TradeLifecycle.fills cur') -> In u upcoming ->
                            ExecutionFill.ts g <= ExecutionFill.ts u).
  { intros ps' cur' H. destruct (Hb ps' cur' H) as [Hs Hle].
    split; [exact Hs|]. intros g u Hg Hu. apply Hle; [exact Hg | right; exact Hu]. }
  assert (Hsingle : Props.in_time_order (_start isoformat exchange symbol ps f)).
  { unfold Props.in_time_order. cbn. constructor; constructor. }
  destruct (current_by_side st ps) as [cur|] eqn:Ecur.
  - destruct (Hb ps cur Ecur) as [Hs Hle].
    assert (Hs1 : Props.in_time_order (TradeLifecycle.append_fill cur f)).
    { unfold Props.in_time_order. cbn [TradeLifecycle.append_fill TradeLifecycle.fills].
      apply sorted_snoc; [exact Hs|]. intros y Hy. apply Hle; [exact Hy | left; reflexivity]. }
    destruct (PyDecimal.leb _ _); split; cbn [current_by_side out_lifecycles].
    + intros ps' cur'. unfold upd.
      destruct (PositionSide.eqb ps' ps); [discriminate | apply Hother].
    + apply Forall_app. split; [exact Ho|]. constructor; [|constructor].
      apply in_time_order_emit, Hs1.
    + intros ps' cur'. unfold upd.
      destruct (PositionSide.eqb ps' ps) eqn:E; [|apply Hother].
      intros [= <-]. split; [exact Hs1|].
      cbn [TradeLifecycle.append_fill TradeLifecycle.fills].
      intros g u Hg Hu. apply in_app_iff in Hg. destruct Hg as [Hg|[<-|[]]].
      * apply Hle; [exact Hg | right; exact Hu].
      * apply Hup, Hu.
    + exact Ho.
  - destruct (_ && _ && _); [|destruct (PyDecimal.ltb d 0)];
      split; cbn [current_by_side out_lifecycles]; try exact Ho.
    + intros ps' cur'. unfold upd.
      destruct (PositionSide.eqb ps' ps) eqn:E; [|apply Hother].
      intros [= <-]. split; [exact Hsingle|].
      intros g u [<-|[]] Hu. apply Hup, Hu.
    + intros ps' cur'. unfold upd.
      destruct (PositionSide.eqb ps' ps); [discriminate | apply Hother].
    + apply Forall_app. split; [exact Ho|]. constructor; [|constructor].
      apply in_time_order_emit, Hsingle.
    + intros ps' cur'. unfold upd.
      destruct (PositionSide.eqb ps' ps) eqn:E; [|apply Hother].
      intros [= <-]. split; [exact Hsingle|].
      intros g u [<-|[]] Hu. apply Hup, Hu.
Qed.

Lemma fold_feed_order (fs : list ExecutionFill.t) (st : AggState) :
  StronglySorted (Py.key_le ExecutionFill.ts) fs ->
  Props.order_invariant fs st ->
  Props.order_invariant [] (fold_left (feed isoformat exchange symbol) fs st).
Proof.
  revert st. induction fs as [|f fs IH]; intros st Hs H; [exact H|].
  inversion Hs as [|? ? Hs' Hall]; subst. rewrite Forall_forall in Hall.
  cbn [fold_left]. apply IH; [exact Hs'|].
  unfold feed. destruct (ExecutionFill.trade_side f);
    apply append_order; try exact H; exact Hall.
Qed.

(** The state after the loop over the sorted stream. *)
Lemma loop_invariants (fills : list ExecutionFill.t) :
  let st := fold_left (feed isoformat exchange symbol)
                      (Py.sorted ExecutionFill.ts fills) init_state in
  Props.shape_invariant isoformat exchange symbol st /\ Props.order_invariant [] st.
Proof.
  cbn zeta. split.
  - apply fold_feed_shape. split; [intros ps cur; discriminate | constructor].
  - apply fold_feed_order; [apply sorted_sorted|].
    split; [intros ps cur; discriminate | constructor].
Qed.

Lemma flushed_in (st : AggState) (lc : TradeLifecycle.t) :
  In lc (Props.flushed st) ->
  exists ps cur,
    current_by_side st ps = Some cur
    /\ lc = TradeLifecycle.recompute (TradeLifecycle.set_status cur Status.open).
Proof.
  unfold Props.flushed. intros H. apply in_flat_map in H.
  destruct H as (ps & _ & H).
  destruct (current_by_side st ps) as [cur|] eqn:E; [|destruct H].
  destruct H as [<-|[]]. exists ps, cur. split; [exact E | reflexivity].
Qed.

(** X13.  Every emitted lifecycle has at least one fill, carries the given
    exchange and symbol, holds only fills of its own side, is identified
    by exchange, symbol, side and the timestamp of its first fill, keeps
    its fills in time order, and already carries recomputed metrics:
    recomputing it again changes nothing. *)
Theorem aggregate_lifecycle_shape :
  forall (fills : list ExecutionFill.t) (lc : TradeLifecycle.t),
    In lc (lifecycles (aggregate_fills_to_lifecycles isoformat exchange symbol fills)) ->
    Props.built_for isoformat exchange symbol lc
    /\ Props.in_time_order lc
    /\ TradeLifecycle.recompute lc = lc.
Proof.
  intros fills lc Hin. rewrite aggregate_lifecycles_eq in Hin.
  destruct (loop_invariants fills) as [[Hb Ho] [Hb' Ho']].
  set (st := fold_left _ _ init_state) in *.
  apply in_app_iff in Hin. destruct Hin as [Hin|Hin].
  - rewrite Forall_forall in Ho, Ho'. destruct (Ho lc Hin) as (_ & Hbuilt & Hre).
    refine (conj Hbuilt (conj (Ho' lc Hin) Hre)).
  - destruct (flushed_in st lc Hin) as (ps & cur & Ecur & ->).
    destruct (Hb ps cur Ecur) as (_ & _ & Hbuilt).
    destruct (Hb' ps cur Ecur) as [Hs _].
    refine (conj (built_for_emit _ _ Hbuilt) (conj (in_time_order_emit _ _ Hs) _)).
    apply recompute_idem.
Qed.

(** X14.  The output lists the closed lifecycles first and the still-open ones
    after them; there is at most one open lifecycle per side, so at most
    three. *)
Theorem aggregate_output_structure :
  forall fills : list ExecutionFill.t,
    exists closed opens,
      lifecycles (aggregate_fills_to_lifecycles isoformat exchange symbol fills)
      = closed ++ opens
      /\ Forall (fun lc => TradeLifecycle.status lc = Status.closed) closed
      /\ Forall (fun lc => TradeLifecycle.status lc = Status.open) opens
      /\ NoDup (map TradeLifecycle.position_side opens)
      /\ (List.length opens <= 3)%nat.
Proof.
  intros fills. rewrite aggregate_lifecycles_eq.
  destruct (loop_invariants fills) as [[Hb Ho] _].
  set (st := fold_left _ _ init_state) in *.
  exists (out_lifecycles st), (Props.flushed st).
  refine (conj eq_refl (conj _ (conj _ _))).
  - eapply Forall_impl; [|exact Ho]. cbv beta. intros lc (H & _). exact H.
  - apply Forall_forall. intros lc Hin.
    destruct (flushed_in st lc Hin) as (ps & cur & _ & ->).
    rewrite recompute_status. reflexivity.
  - unfold Props.flushed. cbn [flat_map].
    pose proof (Hb PositionSide.long) as Hl.
    pose proof (Hb PositionSide.short) as Hs.
    pose proof (Hb PositionSide.unknown) as Hu.
    destruct (current_by_side st PositionSide.long) as [cl|];
      destruct (current_by_side st PositionSide.short) as [cs|];
      destruct (current_by_side st PositionSide.unknown) as [cu|];
      cbn [app map List.length];
      rewrite ?recompute_position_side;
      cbn [TradeLifecycle.position_side TradeLifecycle.set_status];
      repeat match goal with
             | H : forall cur, Some ?c = Some cur -> _ |- _ =>
                 destruct (H c eq_refl) as (? & _ & _); clear H
             | H : forall cur, None = Some cur -> _ |- _ => clear H
             end;
      (split; [|lia]);
      repeat match goal with
             | H : TradeLifecycle.position_side ?c = _ |- _ =>
                 destruct c; cbn [TradeLifecycle.position_side] in *; subst
             end;
      repeat constructor; cbn; intuition discriminate.
Qed.

End AggregatorShape.

(** The shape of the lifecycle emitted for an open of 10 closed by 15. *)
Lemma aggregate_lifecycle_shape_witness :
  let fills :=
    [Samples.fill 2 Side.sell 110 15 TradeSide.close PositionSide.long None;
     Samples.fill 1 Side.buy 100 10 TradeSide.open PositionSide.long None] in
  let res :=
    Aggregate.aggregate_fills_to_lifecycles Samples.iso "bitget" "BTC/USDT:USDT" fills in
  exists lc,
    In lc (Aggregate.lifecycles res)
    /\ TradeLifecycle.lifecycle_id lc = "bitget:BTC/USDT:USDT:long:1"%string
    /\ Props.in_time_order lc
    /\ TradeLifecycle.recompute lc = lc.
Proof.
  intros fills res.
  pose (lc := hd (Samples.lifecycle "" PositionSide.unknown [] Status.open)
                 (Aggregate.lifecycles res)).
  assert (Hin : In lc (Aggregate.lifecycles res)) by (left; reflexivity).
  destruct (aggregate_lifecycle_shape Samples.iso "bitget" "BTC/USDT:USDT" fills lc Hin)
    as (_ & Hord & Hre).
  exists lc. refine (conj Hin (conj eq_refl (conj Hord Hre))).
Defined.

(* ================================================================== *)
(** * The aggregator: what the warnings account for *)
(* ================================================================== *)

Section AggregatorWarnings.

Import Aggregate.

Variable isoformat : datetime -> string.
Variables exchange symbol : string.

Lemma irregular_emit (lc : TradeLifecycle.t) (s : Status.t) :
  Props.irregular_start (TradeLifecycle.recompute (TradeLifecycle.set_status lc s))
  = Props.irregular_start lc.
Proof.
  unfold Props.irregular_start. rewrite recompute_fills. destruct lc; reflexivity.
Qed.

Lemma irregular_append (lc : TradeLifecycle.t) (f : ExecutionFill.t) :
  TradeLifecycle.fills lc <> [] ->
  Props.irregular_start (TradeLifecycle.append_fill lc f) = Props.irregular_start lc.
Proof.
  unfold Props.irregular_start.
  cbn [TradeLifecycle.append_fill TradeLifecycle.fills].
  destruct (TradeLifecycle.fills lc); [congruence | reflexivity].
Qed.

Lemma count_irregular_snoc (lcs : list TradeLifecycle.t) (lc : TradeLifecycle.t) :
  Props.count_irregular (lcs ++ [lc])
  = Props.count_irregular lcs + Props.irregular_bucket (Some lc).
Proof.
  unfold Props.count_irregular, Props.irregular_bucket.
  rewrite filter_app, length_app. cbn [filter].
  destruct (Props.irregular_start lc); cbn [List.length]; lia.
Qed.

Lemma count_irregular_app (l1 l2 : list TradeLifecycle.t) :
  Props.count_irregular (l1 ++ l2) = Props.count_irregular l1 + Props.count_irregular l2.
Proof. unfold Props.count_irregular. rewrite filter_app, length_app. lia. Qed.

Lemma in_progress_buckets (st : AggState) :
  Props.irregular_in_progress st
  = Props.irregular_bucket (current_by_side st PositionSide.long)
    + Props.irregular_bucket (current_by_side st PositionSide.short)
    + Props.irregular_bucket (current_by_side st PositionSide.unknown).
Proof.
  unfold Props.irregular_in_progress, Props.irregular_bucket, Props.count_irregular.
  cbn [flat_map].
  destruct (current_by_side st PositionSide.long) as [a|];
    destruct (current_by_side st PositionSide.short) as [b|];
    destruct (current_by_side st PositionSide.unknown) as [c|];
    cbn [app filter];
    repeat match goal with
           | |- context [Props.irregular_start ?x] => destruct (Props.irregular_start x)
           end;
    reflexivity.
Qed.

Lemma in_progress_upd (st : AggState) (ps : PositionSide.t)
    (v : option TradeLifecycle.t) (q : PositionSide.t -> Q)
    (o : list TradeLifecycle.t) (w : list string) :
  Props.irregular_in_progress (mkState q (upd (current_by_side st) ps v) o w)
  = Props.irregular_in_progress st
    - Props.irregular_bucket (current_by_side st ps) + Props.irregular_bucket v.
Proof.
  rewrite !in_progress_buckets. cbn [current_by_side]. unfold upd.
  destruct ps; cbn [PositionSide.eqb]; lia.
Qed.

Lemma append_warnings (st : AggState) (ps : PositionSide.t) (f : ExecutionFill.t) :
  Spec.agg_invariant st ->
  Props.warning_balance (_append isoformat exchange symbol st ps f (signed_delta f))
  = Props.warning_balance st.
Proof.
  intros [Hb _]. pose proof (Hb ps) as Hps. unfold Props.warning_balance, _append.
  set (d := signed_delta f) in *.
  destruct (current_by_side st ps) as [cur|] eqn:Ecur.
  - destruct Hps as (_ & Hne & _ & _).
    destruct (PyDecimal.leb _ _).
    + rewrite in_progress_upd, Ecur.
      cbn [out_warnings out_lifecycles]. rewrite count_irregular_snoc.
      unfold Props.irregular_bucket at 1 3.
      rewrite irregular_emit, (irregular_append cur f Hne).
      unfold Props.irregular_bucket. lia.
    + rewrite in_progress_upd, Ecur.
      cbn [out_warnings out_lifecycles]. unfold Props.irregular_bucket.
      rewrite (irregular_append cur f Hne). lia.
  - rewrite Hps. change (PyDecimal.eqb 0 0) with true. cbn [andb].
    assert (Hirr : Props.irregular_start (_start isoformat exchange symbol ps f)
                   = negb (PyDecimal.ltb 0 d)) by reflexivity.
    destruct (PyDecimal.ltb 0 d) eqn:Epos.
    + assert (E2 : PyDecimal.ltb 0 (0 + d) = true).
      { apply ltb_Qlt. apply ltb_Qlt in Epos. lra. }
      rewrite E2. cbn [andb].
      rewrite in_progress_upd, Ecur.
      cbn [out_warnings out_lifecycles]. unfold Props.irregular_bucket.
      rewrite Hirr. cbn [negb]. lia.
    + cbn [andb]. destruct (PyDecimal.ltb d 0).
      * rewrite in_progress_upd, Ecur.
        cbn [out_warnings out_lifecycles]. rewrite count_irregular_snoc, length_app.
        unfold Props.irregular_bucket. rewrite irregular_emit, Hirr.
        cbn [negb List.length]. lia.
      * rewrite in_progress_upd, Ecur.
        cbn [out_warnings out_lifecycles]. rewrite length_app.
        unfold Props.irregular_bucket. rewrite Hirr. cbn [negb List.length]. lia.
Qed.

Lemma feed_warnings (st : AggState) (f : ExecutionFill.t) :
  Spec.agg_invariant st ->
  Props.warning_balance (feed isoformat exchange symbol st f)
  = Props.warning_balance st + Props.count_tag TradeSide.unknown [f].
Proof.
  intros Hinv. unfold feed, Props.count_tag, Props.tagged. cbn [filter].
  pose proof (append_warnings st (ExecutionFill.hold_side f) f Hinv) as H.
  unfold signed_delta in *.
  destruct (ExecutionFill.trade_side f) eqn:E; cbn [TradeSide.eqb List.length].
  - rewrite H. lia.
  - rewrite H. lia.
  - set (st1 := mkState _ _ _ _).
    assert (Hinv1 : Spec.agg_invariant st1) by exact Hinv.
    pose proof (append_warnings st1 (ExecutionFill.hold_side f) f Hinv1) as H1.
    unfold signed_delta in H1. rewrite E in H1. rewrite H1.
    unfold Props.warning_balance, st1. cbn [out_warnings out_lifecycles].
    rewrite length_app.
    change (Props.irregular_in_progress
              (mkState (qty_by_side st) (current_by_side st) (out_lifecycles st)
                       (out_warnings st ++
                          [("Symbol " ++ symbol
                              ++ ": missing tradeSide; cannot reliably aggregate (hedge_mode).")%string])))
      with (Props.irregular_in_progress st).
    cbn [List.length]. lia.
Qed.

End AggregatorWarnings.

Section AggregatorWarningsTotal.

Import Aggregate.

Variable isoformat : datetime -> string.
Variables exchange symbol : string.

Lemma fold_feed_warnings (fs : list ExecutionFill.t) (st : AggState) :
  Spec.agg_invariant st ->
  Props.warning_balance (fold_left (feed isoformat exchange symbol) fs st)
  = Props.warning_balance st + Props.count_tag TradeSide.unknown fs.
Proof.
  revert st. induction fs as [|f fs IH]; intros st Hinv.
  - unfold Props.count_tag. cbn. lia.
  - cbn [fold_left].
    rewrite (IH _ (feed_invariant isoformat exchange symbol st f Hinv)).
    rewrite (feed_warnings isoformat exchange symbol st f Hinv).
    unfold Props.count_tag, Props.tagged. cbn [filter].
    destruct (TradeSide.eqb (ExecutionFill.trade_side f) TradeSide.unknown);
      cbn [List.length]; lia.
Qed.

Lemma aggregate_warnings_eq (fills : list ExecutionFill.t) :
  warnings (aggregate_fills_to_lifecycles isoformat exchange symbol fills)
  = out_warnings (fold_left (feed isoformat exchange symbol)
                            (Py.sorted ExecutionFill.ts fills) init_state).
Proof.
  unfold aggregate_fills_to_lifecycles. cbn [warnings].
  set (st := fold_left _ _ init_state). cbn [fold_left]. unfold flush.
  destruct (current_by_side st PositionSide.long);
    cbn [current_by_side out_warnings];
    destruct (current_by_side st PositionSide.short);
    cbn [current_by_side out_warnings];
    destruct (current_by_side st PositionSide.unknown);
    reflexivity.
Qed.

Lemma flushed_irregular (st : AggState) :
  Props.count_irregular (Props.flushed st) = Props.irregular_in_progress st.
Proof.
  unfold Props.flushed, Props.irregular_in_progress, Props.count_irregular.
  cbn [flat_map].
  destruct (current_by_side st PositionSide.long);
    destruct (current_by_side st PositionSide.short);
    destruct (current_by_side st PositionSide.unknown);
    cbn [app filter]; rewrite ?irregular_emit;
    repeat match goal with
           | |- context [Props.irregular_start ?x] => destruct (Props.irregular_start x)
           end;
    reflexivity.
Qed.

(** X15.  The warnings are fully accounted for: there is one per fill without
    an open/close tag, and one per emitted lifecycle that did not start on
    a fill of positive signed quantity (a lone close seen before any
    open, or a start on a zero quantity), and no other. *)
Theorem aggregate_warnings_accounted :
  forall fills : list ExecutionFill.t,
    let res := aggregate_fills_to_lifecycles isoformat exchange symbol fills in
    Z.of_nat (List.length (warnings res))
    = Props.count_tag TradeSide.unknown fills
      + Props.count_irregular (lifecycles res).
Proof.
  intros fills res. subst res.
  rewrite aggregate_warnings_eq, aggregate_lifecycles_eq, count_irregular_app,
    flushed_irregular.
  pose proof (fold_feed_warnings (Py.sorted ExecutionFill.ts fills) init_state) as H.
  assert (Hinit : Spec.agg_invariant init_state).
  { split; [intros ps; reflexivity | constructor]. }
  specialize (H Hinit). unfold Props.warning_balance in H.
  change (Z.of_nat (List.length (out_warnings init_state))) with 0 in H.
  change (Props.count_irregular (out_lifecycles init_state)) with 0 in H.
  change (Props.irregular_in_progress init_state) with 0 in H.
  assert (Hc : Props.count_tag TradeSide.unknown (Py.sorted ExecutionFill.ts fills)
               = Props.count_tag TradeSide.unknown fills).
  { unfold Props.count_tag, Props.tagged. rewrite filter_length_sorted. reflexivity. }
  rewrite Hc in H. lia.
Qed.

End AggregatorWarningsTotal.

(* ================================================================== *)
(** * Per-lifecycle detection: order, identity and markers *)
(* ================================================================== *)

Section DetectionShape.

Import Events.

Variable utcoffset_eastern : datetime -> option Z.
Variable cfg : Config.

(** Each rule returns nothing or one event built by [mk_event] with the
    rule's type. *)
Ltac rule_shape :=
  repeat match goal with
         | |- context [match ?x with _ => _ end] => destruct x
         end;
  first [ left; reflexivity | right; eexists; eexists; eexists; reflexivity ].

Lemma close_completed_rule_shape (lc : TradeLifecycle.t) (last : ExecutionFill.t) :
  close_completed_rule lc last = []
  \/ exists lvl at_ ev,
       close_completed_rule lc last
       = [mk_event lc TradeEventType.close_completed lvl at_ ev].
Proof. unfold close_completed_rule. rule_shape. Qed.

Lemma stop_loss_rule_shape (lc : TradeLifecycle.t) (fs : list ExecutionFill.t) :
  stop_loss_rule lc fs = []
  \/ exists lvl at_ ev,
       stop_loss_rule lc fs = [mk_event lc TradeEventType.stop_loss_triggered lvl at_ ev].
Proof. unfold stop_loss_rule. rule_shape. Qed.

Lemma big_loss_rule_shape (lc : TradeLifecycle.t) (last : ExecutionFill.t) :
  big_loss_rule cfg lc last = []
  \/ exists lvl at_ ev,
       big_loss_rule cfg lc last
       = [mk_event lc TradeEventType.big_loss_pct_equity lvl at_ ev].
Proof. unfold big_loss_rule. rule_shape. Qed.

Lemma high_leverage_rule_shape (lc : TradeLifecycle.t) (first : ExecutionFill.t) :
  high_leverage_rule cfg lc first = []
  \/ exists lvl at_ ev,
       high_leverage_rule cfg lc first
       = [mk_event lc TradeEventType.high_leverage_used lvl at_ ev].
Proof. unfold high_leverage_rule. rule_shape. Qed.

Lemma night_trading_rule_shape (lc : TradeLifecycle.t) (first : ExecutionFill.t) :
  night_trading_rule utcoffset_eastern cfg lc first = []
  \/ exists lvl at_ ev,
       night_trading_rule utcoffset_eastern cfg lc first
       = [mk_event lc TradeEventType.night_trading_us_eastern lvl at_ ev].
Proof. unfold night_trading_rule. rule_shape. Qed.

Lemma string_append_inj (s a b : string) : (s ++ a = s ++ b)%string -> a = b.
Proof.
  induction s as [|c s IH]; cbn; intros H; [exact H|].
  injection H as H. apply IH, H.
Qed.

Lemma type_value_inj (a b : TradeEventType.t) :
  TradeEventType.value a = TradeEventType.value b -> a = b.
Proof. destruct a, b; cbn; intros H; first [reflexivity | discriminate H]. Qed.

Lemma nodup_event_ids (id : string) (tys : list TradeEventType.t) :
  NoDup tys ->
  NoDup (map (fun ty => (id ++ ":" ++ TradeEventType.value ty)%string) tys).
Proof.
  induction 1 as [|ty tys Hnotin _ IH]; cbn [map]; constructor; [|exact IH].
  intros Hin. apply in_map_iff in Hin. destruct Hin as (ty' & Heq & Hin).
  apply string_append_inj, string_append_inj, type_value_inj in Heq.
  subst ty'. contradiction.
Qed.

(** X16.  The events of a lifecycle come in the fixed order of the rules, at
    most one per rule (so at most six); every event carries the
    lifecycle's identifier, symbol and side, and its identifier
    [<lifecycle_id>:<event_type>] is unique within the list. *)
Theorem detect_events_in_rule_order :
  forall lc : TradeLifecycle.t,
    let events := detect_events_for_lifecycle utcoffset_eastern cfg lc in
    let types := map TradeEvent.event_type events in
    types = filter (fun ty => existsb (TradeEventType.eqb ty) types) Props.rule_order
    /\ (List.length events <= 6)%nat
    /\ (forall e, In e events -> Props.event_of lc e)
    /\ NoDup (map TradeEvent.event_id events).
Proof.
  intros lc events types. subst types events.
  destruct (TradeLifecycle.fills lc) as [|f0 fs0] eqn:Ef.
  { rewrite (detect_empty _ _ lc Ef). cbn.
    refine (conj eq_refl (conj _ (conj _ _))); [lia | intros e [] | constructor]. }
  assert (Hne : TradeLifecycle.fills lc <> []) by congruence.
  destruct (detect_decomp utcoffset_eastern cfg lc Hne) as (first & rest & _ & ->).
  cbv zeta. set (lc' := TradeLifecycle.recompute lc).
  assert (Hid : TradeLifecycle.lifecycle_id lc' = TradeLifecycle.lifecycle_id lc
                /\ TradeLifecycle.symbol lc' = TradeLifecycle.symbol lc
                /\ TradeLifecycle.position_side lc' = TradeLifecycle.position_side lc).
  { unfold lc'. destruct (recompute_identity lc) as [H1 H2].
    refine (conj H1 (conj H2 (recompute_position_side lc))). }
  destruct Hid as (Hi1 & Hi2 & Hi3).
  assert (Hev : forall ty lvl at_ ev, Props.event_of lc (mk_event lc' ty lvl at_ ev)).
  { intros. unfold Props.event_of, mk_event. cbn. rewrite Hi1, Hi2, Hi3. repeat split. }
  assert (Hids : forall es : list TradeEvent.t,
             (forall e, In e es -> Props.event_of lc e) ->
             NoDup (map TradeEvent.event_type es) ->
             NoDup (map TradeEvent.event_id es)).
  { intros es Hall Hnd.
    rewrite (map_ext_in TradeEvent.event_id
               (fun e => (TradeLifecycle.lifecycle_id lc ++ ":"
                          ++ TradeEventType.value (TradeEvent.event_type e))%string)).
    - rewrite <- (map_map TradeEvent.event_type
                    (fun ty => (TradeLifecycle.lifecycle_id lc ++ ":"
                                ++ TradeEventType.value ty)%string)).
      apply nodup_event_ids, Hnd.
    - intros e He. apply (Hall e He). }
  destruct (close_completed_rule_shape lc' (List.last rest first))
    as [-> | (? & ? & ? & ->)];
    destruct (stop_loss_rule_shape lc' (first :: rest)) as [-> | (? & ? & ? & ->)];
    destruct (big_loss_rule_shape lc' (List.last rest first)) as [-> | (? & ? & ? & ->)];
    destruct (high_leverage_rule_shape lc' first) as [-> | (? & ? & ? & ->)];
    destruct (night_trading_rule_shape lc' first) as [-> | (? & ? & ? & ->)];
    cbn [app];
    (refine (conj eq_refl (conj _ _));
     [ cbn [List.length]; lia
     | match goal with
       | |- (forall e, In e ?L -> _) /\ _ =>
           assert (Hall : forall e, In e L -> Props.event_of lc e)
             by (intros e He; cbn [In] in He;
                 repeat match goal with
                        | H : _ \/ _ |- _ => destruct H
                        | H : False |- _ => destruct H
                        end; subst; apply Hev)
       end;
       split; [exact Hall|];
       apply (Hids _ Hall); cbn [map mk_event TradeEvent.event_type];
       repeat constructor; cbn [In]; intuition discriminate ]).
Qed.


End DetectionShape.


(* ================================================================== *)
(** * The margin-dependent rules: big loss and high leverage *)
(* ================================================================== *)

Section MarginRules.

Import Events.

Variable utcoffset_eastern : datetime -> option Z.
Variable cfg : Config.

Lemma or_else_effective (margin equity : option Q) (base : Q) :
  Py.or_else margin equity = Some base <-> Props.effective_base margin equity base.
Proof.
  unfold Py.or_else, PyDecimal.opt_truthy, PyDecimal.truthy, Props.effective_base.
  destruct margin as [a|].
  - destruct (PyDecimal.eqb a 0) eqn:E; cbn [negb].
    + apply eqb_Qeq in E. split.
      * intros H. right. split; [right; exists a; split; [reflexivity | exact E] | exact H].
      * intros [[[= <-] Hnz]|[_ H]]; [contradiction | exact H].
    + apply eqb_false_Qeq in E. split.
      * intros [= <-]. left. split; [reflexivity | exact E].
      * intros [[H _]|[[H|(a' & [= <-] & Hz)] _]];
          [exact H | discriminate | contradiction].
  - cbn. split.
    + intros H. right. split; [left; reflexivity | exact H].
    + intros [[H _]|[_ H]]; [discriminate | exact H].
Qed.

Lemma base_balance_recompute (lc : TradeLifecycle.t) (base : Q) :
  TradeLifecycle.fills lc <> [] ->
  base_balance (TradeLifecycle.recompute lc) = Some base
  <-> Props.effective_base
        (TradeMetrics.available_margin_usdt_at_entry (TradeLifecycle.metrics lc))
        (TradeMetrics.equity_usdt_at_entry (TradeLifecycle.metrics lc)) base.
Proof.
  intros Hne. unfold base_balance. rewrite (recompute_metrics lc Hne).
  unfold TradeLifecycle.derive_metrics.
  cbn [TradeMetrics.available_margin_usdt_at_entry TradeMetrics.equity_usdt_at_entry].
  apply or_else_effective.
Qed.

Lemma big_loss_rule_in (lc : TradeLifecycle.t) (last : ExecutionFill.t)
    (e : TradeEvent.t) :
  In e (big_loss_rule cfg lc last)
  <-> exists pnl base,
        TradeMetrics.realized_pnl_usdt (TradeLifecycle.metrics lc) = Some pnl
        /\ base_balance lc = Some base
        /\ (0 < base)%Q /\ (pnl < 0)%Q
        /\ (big_loss_threshold_pct_equity cfg <= Qabs pnl / base * 100)%Q
        /\ e = mk_event lc TradeEventType.big_loss_pct_equity EventLevel.P0
                 (ts_or (TradeMetrics.exit_ts (TradeLifecycle.metrics lc))
                        (ExecutionFill.ts last))
                 (EvBigLoss pnl base (base_balance_source lc)
                    (Qabs pnl / base * 100) (big_loss_threshold_pct_equity cfg)
                    "loss_pct_of_base_balance >= threshold_pct AND realized_pnl_usdt < 0").
Proof.
  unfold big_loss_rule.
  destruct (TradeMetrics.realized_pnl_usdt (TradeLifecycle.metrics lc)) as [pnl|];
    [|split; [intros [] | intros (? & ? & H & _); discriminate]].
  destruct (base_balance lc) as [base|];
    [|split; [intros [] | intros (? & ? & _ & H & _); discriminate]].
  destruct (PyDecimal.ltb 0 base) eqn:Eb.
  - apply ltb_Qlt in Eb. destruct (PyDecimal.ltb pnl 0) eqn:Ep; cbn [andb].
    + apply ltb_Qlt in Ep. destruct (PyDecimal.leb _ _) eqn:Et.
      * apply leb_Qle in Et. split.
        -- intros [<-|[]]. exists pnl, base. repeat split; assumption.
        -- intros (p & b & [= <-] & [= <-] & _ & _ & _ & ->). left. reflexivity.
      * apply leb_false_Qlt in Et. split; [intros []|].
        intros (p & b & [= <-] & [= <-] & _ & _ & Hle & _). lra.
    + apply ltb_false_Qle in Ep. split; [intros []|].
      intros (p & b & [= <-] & [= <-] & _ & Hlt & _). lra.
  - apply ltb_false_Qle in Eb. split; [intros []|].
    intros (p & b & [= <-] & [= <-] & Hlt & _). lra.
Qed.

Lemma high_leverage_rule_in (lc : TradeLifecycle.t) (first : ExecutionFill.t)
    (e : TradeEvent.t) :
  In e (high_leverage_rule cfg lc first)
  <-> exists n base,
        TradeMetrics.max_abs_notional_usdt (TradeLifecycle.metrics lc) = Some n
        /\ base_balance lc = Some base
        /\ (0 < base)%Q
        /\ (high_leverage_threshold cfg <= n / base)%Q
        /\ e = mk_event lc TradeEventType.high_leverage_used EventLevel.P1
                 (ts_or (TradeMetrics.entry_ts (TradeLifecycle.metrics lc))
                        (ExecutionFill.ts first))
                 (EvHighLeverage n base (base_balance_source lc) (n / base)
                    (high_leverage_threshold cfg) "effective_leverage >= threshold").
Proof.
  unfold high_leverage_rule.
  destruct (TradeMetrics.max_abs_notional_usdt (TradeLifecycle.metrics lc)) as [n|];
    [|split; [intros [] | intros (? & ? & H & _); discriminate]].
  destruct (base_balance lc) as [base|];
    [|split; [intros [] | intros (? & ? & _ & H & _); discriminate]].
  destruct (PyDecimal.ltb 0 base) eqn:Eb.
  - apply ltb_Qlt in Eb. destruct (PyDecimal.leb _ _) eqn:Et.
    + apply leb_Qle in Et. split.
      * intros [<-|[]]. exists n, base. repeat split; assumption.
      * intros (p & b & [= <-] & [= <-] & _ & _ & ->). left. reflexivity.
    + apply leb_false_Qlt in Et. split; [intros []|].
      intros (p & b & [= <-] & [= <-] & _ & Hle & _). lra.
  - apply ltb_false_Qle in Eb. split; [intros []|].
    intros (p & b & [= <-] & [= <-] & Hlt & _). lra.
Qed.

(** Which rule an event of the two margin-dependent types comes from. *)
Lemma detect_margin_rules (lc : TradeLifecycle.t) (e : TradeEvent.t) :
  TradeLifecycle.fills lc <> [] ->
  exists first rest,
    _fills_sorted lc = first :: rest
    /\ ((In e (detect_events_for_lifecycle utcoffset_eastern cfg lc)
         /\ TradeEvent.event_type e = TradeEventType.big_loss_pct_equity)
        <-> In e (big_loss_rule cfg (TradeLifecycle.recompute lc) (List.last rest first)))
    /\ ((In e (detect_events_for_lifecycle utcoffset_eastern cfg lc)
         /\ TradeEvent.event_type e = TradeEventType.high_leverage_used)
        <-> In e (high_leverage_rule cfg (TradeLifecycle.recompute lc) first)).
Proof.
  intros Hne. destruct (detect_decomp utcoffset_eastern cfg lc Hne)
    as (first & rest & Es & Hd).
  exists first, rest. split; [exact Es|]. rewrite Hd. cbv zeta. split; split.
  - intros [Hin Hty]. rewrite !in_app_iff in Hin.
    destruct Hin as [Hin|[Hin|[Hin|[Hin|[Hin|Hin]]]]]; try exact Hin; exfalso.
    + destruct Hin as [<-|[]]. discriminate.
    + apply close_completed_rule_events in Hin. destruct Hin; congruence.
    + apply stop_loss_rule_events in Hin. destruct Hin; congruence.
    + apply high_leverage_rule_events in Hin. destruct Hin; congruence.
    + apply night_trading_rule_events in Hin. destruct Hin; congruence.
  - intros Hin. split; [rewrite !in_app_iff; auto 10|].
    apply (big_loss_rule_events _ _ _ _ Hin).
  - intros [Hin Hty]. rewrite !in_app_iff in Hin.
    destruct Hin as [Hin|[Hin|[Hin|[Hin|[Hin|Hin]]]]]; try exact Hin; exfalso.
    + destruct Hin as [<-|[]]. discriminate.
    + apply close_completed_rule_events in Hin. destruct Hin; congruence.
    + apply stop_loss_rule_events in Hin. destruct Hin; congruence.
    + apply big_loss_rule_events in Hin. destruct Hin; congruence.
    + apply night_trading_rule_events in Hin. destruct Hin; congruence.
  - intros Hin. split; [rewrite !in_app_iff; auto 10|].
    apply (high_leverage_rule_events _ _ _ _ Hin).
Qed.

Lemma realized_pnl_has_exit (lc : TradeLifecycle.t) (pnl : Q) :
  TradeLifecycle.fills lc <> [] ->
  TradeMetrics.realized_pnl_usdt (TradeLifecycle.metrics (TradeLifecycle.recompute lc))
  = Some pnl ->
  exists x,
    TradeMetrics.exit_ts (TradeLifecycle.metrics (TradeLifecycle.recompute lc)) = Some x.
Proof.
  intros Hne. rewrite (recompute_metrics lc Hne). unfold TradeLifecycle.derive_metrics.
  cbn [TradeMetrics.realized_pnl_usdt TradeMetrics.exit_ts].
  destruct (Status.eqb _ _); [|discriminate]. intros _.
  destruct (Py.sorted ExecutionFill.ts (TradeLifecycle.fills lc)) as [|a l] eqn:Es.
  { apply sorted_nil_iff in Es. congruence. }
  rewrite last_opt_cons. eexists. reflexivity.
Qed.



End MarginRules.



(* ================================================================== *)
(** * The batch detector *)
(* ================================================================== *)

Section BatchDetection.

Import Events.

Variable utcoffset_eastern : datetime -> option Z.
Variable cfg : Config.

Lemma detect_recompute (lc : TradeLifecycle.t) :
  detect_events_for_lifecycle utcoffset_eastern cfg (TradeLifecycle.recompute lc)
  = detect_events_for_lifecycle utcoffset_eastern cfg lc.
Proof.
  unfold detect_events_for_lifecycle. rewrite recompute_fills.
  destruct (TradeLifecycle.fills lc); [reflexivity|].
  rewrite recompute_idem. reflexivity.
Qed.

Lemma batch_decomp (lcs : list TradeLifecycle.t) :
  detect_events_for_lifecycles utcoffset_eastern cfg lcs
  = flat_map (detect_events_for_lifecycle utcoffset_eastern cfg) lcs
    ++ consecutive_losses_rule cfg (map TradeLifecycle.recompute lcs).
Proof.
  unfold detect_events_for_lifecycles. rewrite map_effect_recompute. f_equal.
  induction lcs as [|lc lcs IH]; [reflexivity|].
  cbn [map flat_map]. rewrite detect_recompute, IH. reflexivity.
Qed.

Lemma flat_map_length_le {A B : Type} (f : A -> list B) (k : nat) (l : list A) :
  (forall x, List.length (f x) <= k)%nat ->
  (List.length (flat_map f l) <= k * List.length l)%nat.
Proof.
  intros H. induction l as [|x l IH]; [cbn; lia|].
  cbn [flat_map List.length]. rewrite length_app. specialize (H x). nia.
Qed.

Lemma detect_length (lc : TradeLifecycle.t) :
  (List.length (detect_events_for_lifecycle utcoffset_eastern cfg lc) <= 6)%nat.
Proof.
  destruct (TradeLifecycle.fills lc) as [|f0 fs0] eqn:Ef.
  { rewrite (detect_empty _ _ lc Ef). cbn. lia. }
  assert (Hne : TradeLifecycle.fills lc <> []) by congruence.
  destruct (detect_decomp utcoffset_eastern cfg lc Hne) as (first & rest & _ & Hd).
  rewrite Hd. cbv zeta. rewrite !length_app. cbn [List.length].
  pose proof (close_completed_rule_shape (TradeLifecycle.recompute lc)
                (List.last rest first)) as H1.
  pose proof (stop_loss_rule_shape (TradeLifecycle.recompute lc) (first :: rest)) as H2.
  pose proof (big_loss_rule_shape cfg (TradeLifecycle.recompute lc)
                (List.last rest first)) as H3.
  pose proof (high_leverage_rule_shape cfg (TradeLifecycle.recompute lc) first) as H4.
  pose proof (night_trading_rule_shape utcoffset_eastern cfg
                (TradeLifecycle.recompute lc) first) as H5.
  destruct H1 as [-> | (? & ? & ? & ->)], H2 as [-> | (? & ? & ? & ->)],
           H3 as [-> | (? & ? & ? & ->)], H4 as [-> | (? & ? & ? & ->)],
           H5 as [-> | (? & ? & ? & ->)]; cbn [List.length]; lia.
Qed.

(** X20.  The batch detector returns the events of each lifecycle, in the
    order of the input and each list as the per-lifecycle detector gives
    it for the lifecycle as passed in (the recompute pass in front
    changes none of them), followed by what the cross-lifecycle rule
    yields on the recomputed batch; so an empty batch has no events and
    a batch of k lifecycles has at most 6k + 1. *)
Theorem batch_detection_composes :
  forall lcs : list TradeLifecycle.t,
    let events := detect_events_for_lifecycles utcoffset_eastern cfg lcs in
    let per_lifecycle := flat_map (detect_events_for_lifecycle utcoffset_eastern cfg) lcs in
    let streak := consecutive_losses_rule cfg (map TradeLifecycle.recompute lcs) in
    events = per_lifecycle ++ streak
    /\ (forall e, In e per_lifecycle ->
                  TradeEvent.event_type e <> TradeEventType.consecutive_losses)
    /\ (forall e, In e streak ->
                  TradeEvent.event_type e = TradeEventType.consecutive_losses)
    /\ (List.length streak <= 1)%nat
    /\ (List.length events <= 6 * List.length lcs + 1)%nat
    /\ detect_events_for_lifecycles utcoffset_eastern cfg
         (map TradeLifecycle.recompute lcs) = events.
Proof.
  intros lcs events per_lifecycle streak. subst events per_lifecycle streak.
  destruct (consecutive_rule_spec cfg (map TradeLifecycle.recompute lcs))
    as (Hlen & Hty & _).
  refine (conj (batch_decomp lcs) (conj _ (conj Hty (conj Hlen (conj _ _))))).
  - intros e He. apply in_flat_map in He. destruct He as (lc & _ & He).
    apply (detect_no_consecutive _ _ _ _ He).
  - rewrite batch_decomp, length_app.
    pose proof (flat_map_length_le
                  (detect_events_for_lifecycle utcoffset_eastern cfg) 6 lcs
                  detect_length). lia.
  - rewrite !batch_decomp. apply f_equal2.
    + clear Hlen Hty. induction lcs as [|lc lcs IH]; [reflexivity|].
      cbn [map flat_map]. rewrite detect_recompute. apply f_equal. exact IH.
    + apply f_equal. rewrite map_map. apply map_ext. intros lc. apply recompute_idem.
Qed.

Lemma last_opt_lastn {A : Type} (n : nat) (l : list A) :
  (1 <= n <= List.length l)%nat -> Py.last_opt (Py.lastn n l) = Py.last_opt l.
Proof.
  intros Hn. unfold Py.lastn. set (k := (List.length l - n)%nat).
  unfold Py.last_opt. rewrite <- (firstn_skipn k l) at 2. rewrite rev_app_distr.
  destruct (rev (skipn k l)) as [|x r] eqn:E; [|reflexivity].
  exfalso. apply (f_equal (@List.length A)) in E.
  rewrite length_rev, length_skipn in E. cbn in E. subst k. lia.
Qed.

Lemma last_opt_in {A : Type} (l : list A) (x : A) :
  Py.last_opt l = Some x -> exists before, l = before ++ [x].
Proof.
  unfold Py.last_opt. destruct (rev l) as [|y r] eqn:E; [discriminate|].
  intros [= ->]. exists (rev r). apply (f_equal (@rev A)) in E.
  rewrite rev_involutive in E. exact E.
Qed.

Lemma sorted_snoc_max {A : Type} (key : A -> Z) (before : list A) (x : A) :
  StronglySorted (Py.key_le key) (before ++ [x]) ->
  forall w, In w (before ++ [x]) -> key w <= key x.
Proof.
  induction before as [|b before IH]; intros Hs w Hw.
  - destruct Hw as [<-|[]]. lia.
  - cbn in Hs. inversion Hs as [|? ? Hs' Hall]; subst.
    destruct Hw as [<-|Hw]; [|apply (IH Hs' w Hw)].
    rewrite Forall_forall in Hall. apply Hall. apply in_app_iff. right. left. reflexivity.
Qed.

Lemma considered_exit (lcs : list TradeLifecycle.t) (w : TradeLifecycle.t) :
  In w (closed_sorted lcs) ->
  In w lcs
  /\ TradeMetrics.exit_ts (TradeLifecycle.metrics w) = Some (exit_key w)
  /\ exists pnl, TradeMetrics.realized_pnl_usdt (TradeLifecycle.metrics w) = Some pnl.
Proof.
  unfold closed_sorted. intros Hw. apply sorted_In in Hw. apply filter_In in Hw.
  destruct Hw as [Hin Hw]. split; [exact Hin|].
  unfold has_exit_and_pnl, exit_key in *.
  destruct (TradeMetrics.exit_ts (TradeLifecycle.metrics w)); [|discriminate].
  destruct (TradeMetrics.realized_pnl_usdt (TradeLifecycle.metrics w)) as [p|];
    [|discriminate].
  split; [reflexivity | exists p; reflexivity].
Qed.


End BatchDetection.


(* ================================================================== *)
(** * The report statistics *)
(* ================================================================== *)

Section ReportStatistics.

Import Events Generator ReportStats.

Lemma counter_add_get (k k' : string) (c : list (string * Z)) :
  get (counter_add k c) k' 0 = get c k' 0 + (if String.eqb k k' then 1 else 0).
Proof.
  unfold get. induction c as [|[k0 v] c IH].
  - cbn. destruct (String.eqb k k'); reflexivity.
  - cbn [counter_add]. destruct (String.eqb_spec k0 k) as [-> | Hne].
    + cbn [find fst snd]. destruct (String.eqb k k'); cbn [snd]; lia.
    + cbn [find fst snd]. destruct (String.eqb_spec k0 k') as [-> | Hne'].
      * cbn [snd]. destruct (String.eqb_spec k k'); [congruence | lia].
      * exact IH.
Qed.

Lemma counter_fold_get (l : list string) (c : list (string * Z)) (k : string) :
  get (fold_left (fun c k => counter_add k c) l c) k 0
  = get c k 0 + Z.of_nat (count_occ string_dec l k).
Proof.
  revert c. induction l as [|x l IH]; intros c; [cbn; lia|].
  cbn [fold_left]. rewrite IH, counter_add_get.
  destruct (String.eqb_spec x k) as [-> | Hne].
  - rewrite count_occ_cons_eq by reflexivity. lia.
  - rewrite count_occ_cons_neq by exact Hne. lia.
Qed.

Lemma counter_get (l : list string) (k : string) :
  get (Counter l) k 0 = Z.of_nat (count_occ string_dec l k).
Proof. unfold Counter. rewrite counter_fold_get. reflexivity. Qed.

Lemma counter_add_keys (k : string) (c : list (string * Z)) :
  (forall k', In k' (Props.keys (counter_add k c)) <-> k' = k \/ In k' (Props.keys c))
  /\ (NoDup (Props.keys c) -> NoDup (Props.keys (counter_add k c)))
  /\ Props.total (counter_add k c) = Props.total c + 1
  /\ (Forall (fun kv => 1 <= snd kv) c -> Forall (fun kv => 1 <= snd kv) (counter_add k c)).
Proof.
  unfold Props.keys, Props.total. induction c as [|[k0 v] c IH].
  - cbn. refine (conj _ (conj _ (conj eq_refl _))).
    + intros k'. split; [intros [<-|[]]; left; reflexivity | intros [->|[]]; left; reflexivity].
    + intros _. constructor; [intros [] | constructor].
    + intros _. constructor; [cbn; lia | constructor].
  - destruct IH as (IHin & IHnd & IHtot & IHpos).
    cbn [counter_add]. destruct (String.eqb_spec k0 k) as [-> | Hne].
    + cbn [map fst snd fold_right]. refine (conj _ (conj _ (conj _ _))).
      * intros k'. cbn [In]. split; [intros H; right; exact H|].
        intros [->|H]; [left; reflexivity | exact H].
      * intros H. exact H.
      * lia.
      * intros H. inversion H as [|? ? Hv Hc]; subst. cbn [snd] in Hv.
        constructor; [cbn [snd]; lia | exact Hc].
    + cbn [map fst snd fold_right]. refine (conj _ (conj _ (conj _ _))).
      * intros k'. cbn [In]. rewrite IHin. tauto.
      * intros H. inversion H as [|? ? Hk0 Hc]; subst.
        constructor; [|apply IHnd, Hc].
        intros Hin. apply IHin in Hin. destruct Hin as [->|Hin]; [congruence | tauto].
      * rewrite IHtot. lia.
      * intros H. inversion H as [|? ? Hv Hc]; subst.
        constructor; [exact Hv | apply IHpos, Hc].
Qed.

Lemma counter_fold_shape (l : list string) (c : list (string * Z)) :
  let c' := fold_left (fun c k => counter_add k c) l c in
  (forall k, In k (Props.keys c') <-> In k l \/ In k (Props.keys c))
  /\ (NoDup (Props.keys c) -> NoDup (Props.keys c'))
  /\ Props.total c' = Props.total c + Z.of_nat (List.length l)
  /\ (Forall (fun kv => 1 <= snd kv) c -> Forall (fun kv => 1 <= snd kv) c').
Proof.
  revert c. induction l as [|x l IH]; intros c; cbv zeta.
  - cbn [fold_left List.length]. refine (conj _ (conj _ (conj _ _))); try tauto.
    + intros k. cbn [In]. tauto.
    + cbn. lia.
  - cbn [fold_left]. destruct (IH (counter_add x c)) as (Hin & Hnd & Htot & Hpos).
    destruct (counter_add_keys x c) as (Ain & And & Atot & Apos).
    refine (conj _ (conj _ (conj _ _))).
    + intros k. rewrite Hin, Ain. cbn [In]. intuition congruence.
    + intros H. apply Hnd, And, H.
    + rewrite Htot, Atot. cbn [List.length]. lia.
    + intros H. apply Hpos, Apos, H.
Qed.

Lemma count_occ_levels (lvl : EventLevel.t) (es : list TradeEvent.t) :
  Z.of_nat (count_occ string_dec
              (map (fun e => level_value (TradeEvent.level e)) es) (level_value lvl))
  = count_level lvl es.
Proof.
  induction es as [|e es IH]; [reflexivity|].
  rewrite count_level_cons, <- IH. cbn [map].
  destruct (TradeEvent.level e), lvl; cbn [EventLevel.eqb level_value];
    first [ rewrite count_occ_cons_eq by reflexivity; lia
          | rewrite count_occ_cons_neq by discriminate; lia ].
Qed.

Lemma count_occ_types (ty : TradeEventType.t) (es : list TradeEvent.t) :
  count_occ string_dec
    (map (fun e => TradeEventType.value (TradeEvent.event_type e)) es)
    (TradeEventType.value ty)
  = Spec.count_type ty es.
Proof.
  unfold Spec.count_type. induction es as [|e es IH]; [reflexivity|].
  cbn [map filter]. destruct (TradeEventType.eqb (TradeEvent.event_type e) ty) eqn:E.
  - apply type_eqb_eq in E. rewrite E. rewrite count_occ_cons_eq by reflexivity.
    cbn [List.length]. rewrite <- IH. reflexivity.
  - rewrite count_occ_cons_neq; [exact IH|].
    intros H. apply type_value_inj in H.
    apply (proj2 (type_eqb_eq _ _)) in H. congruence.
Qed.

Lemma count_level_total (es : list TradeEvent.t) :
  count_level EventLevel.P0 es + count_level EventLevel.P1 es
  + count_level EventLevel.P2 es = Z.of_nat (List.length es).
Proof.
  induction es as [|e es IH]; [reflexivity|].
  rewrite !count_level_cons. cbn [List.length].
  destruct (TradeEvent.level e); cbn [EventLevel.eqb]; lia.
Qed.

Lemma events_stats_levels (es : list TradeEvent.t) :
  stats_P0 (_events_stats es) = count_level EventLevel.P0 es
  /\ stats_P1 (_events_stats es) = count_level EventLevel.P1 es
  /\ stats_P2 (_events_stats es) = count_level EventLevel.P2 es.
Proof.
  unfold _events_stats. cbn [stats_P0 stats_P1 stats_P2].
  rewrite !counter_get.
  rewrite <- (count_occ_levels EventLevel.P0), <- (count_occ_levels EventLevel.P1),
          <- (count_occ_levels EventLevel.P2).
  repeat split; reflexivity.
Qed.

(** X22.  The statistics of an event list count each level once per event:
    the three level counts are not negative and add up to the total, the
    total is the number of events, and the discipline score of the same
    events is 100 minus 20 per counted P0 and 8 per counted P1, floored
    at 0, with the breakdown holding those two penalties. *)
Theorem events_stats_consistent :
  forall events : list TradeEvent.t,
    let st := _events_stats events in
    let r := compute_discipline_score events in
    0 <= stats_P0 st /\ 0 <= stats_P1 st /\ 0 <= stats_P2 st
    /\ stats_P0 st + stats_P1 st + stats_P2 st = stats_total st
    /\ stats_total st = Z.of_nat (List.length events)
    /\ score r = Z.max 0 (100 - 20 * stats_P0 st - 8 * stats_P1 st)
    /\ P0 (breakdown r) = - 20 * stats_P0 st
    /\ P1 (breakdown r) = - 8 * stats_P1 st.
Proof.
  intros events st r. subst st r.
  destruct (events_stats_levels events) as (H0 & H1 & H2). rewrite H0, H1, H2.
  pose proof (count_level_nonneg EventLevel.P0 events).
  pose proof (count_level_nonneg EventLevel.P1 events).
  pose proof (count_level_nonneg EventLevel.P2 events).
  pose proof (count_level_total events) as Ht.
  refine (conj _ (conj _ (conj _ (conj Ht (conj eq_refl (conj _ _)))))); try assumption.
  - apply score_eq.
  - unfold compute_discipline_score. rewrite score_fold_closed.
    cbn [breakdown P0 P1]. split; lia.
Qed.

Lemma filter_flagged_length (es : list TradeEvent.t) :
  Z.of_nat (List.length (filter is_p0_or_p1 es))
  = count_level EventLevel.P0 es + count_level EventLevel.P1 es.
Proof.
  induction es as [|e es IH]; [reflexivity|].
  rewrite !count_level_cons. cbn [filter]. unfold is_p0_or_p1 at 1.
  destruct (TradeEvent.level e); cbn [EventLevel.eqb orb List.length]; lia.
Qed.

Lemma behavior_patterns_keys (events : list TradeEvent.t) :
  (forall k, In k (Props.keys (_behavior_patterns events))
             <-> exists e, In e events /\ is_p0_or_p1 e = true
                           /\ TradeEventType.value (TradeEvent.event_type e) = k)
  /\ (forall ty, get (_behavior_patterns events) (TradeEventType.value ty) 0
                 = Props.count_flagged ty events).
Proof.
  unfold _behavior_patterns. split.
  - intros k. unfold Counter.
    destruct (counter_fold_shape
                (map (fun e => TradeEventType.value (TradeEvent.event_type e))
                     (filter is_p0_or_p1 events)) []) as (Hin & _).
    rewrite Hin. cbn [Props.keys map In]. rewrite in_map_iff. split.
    + intros [(e & <- & He)|[]]. apply filter_In in He. destruct He as [He Hf].
      exists e. repeat split; assumption.
    + intros (e & He & Hf & <-). left. exists e. split; [reflexivity|].
      apply filter_In. split; assumption.
  - intros ty. rewrite counter_get, count_occ_types. reflexivity.
Qed.

(** X23.  The pattern dictionary has one entry per event type that occurs
    among the events of level P0 or P1, and no other entry; each entry
    counts those events, so every count is at least 1; looking up a type
    without entry gives the default; and the counts add up to the P0 and
    P1 statistics of the same events. *)
Theorem behavior_patterns_counts :
  forall events : list TradeEvent.t,
    let patterns := _behavior_patterns events in
    let st := _events_stats events in
    NoDup (Props.keys patterns)
    /\ (forall k, In k (Props.keys patterns)
                  <-> exists e, In e events /\ is_p0_or_p1 e = true
                                /\ TradeEventType.value (TradeEvent.event_type e) = k)
    /\ (forall ty, get patterns (TradeEventType.value ty) 0
                   = Props.count_flagged ty events)
    /\ Forall (fun kv => 1 <= snd kv) patterns
    /\ Props.total patterns = stats_P0 st + stats_P1 st.
Proof.
  intros events patterns st. subst patterns st.
  destruct (behavior_patterns_keys events) as (Hkeys & Hget).
  refine (conj _ (conj Hkeys (conj Hget _))); unfold _behavior_patterns, Counter;
    destruct (counter_fold_shape
                (map (fun e => TradeEventType.value (TradeEvent.event_type e))
                     (filter is_p0_or_p1 events)) [])
      as (_ & Hnd & Htot & Hpos).
  - apply Hnd. constructor.
  - split; [apply Hpos; constructor|].
    rewrite Htot. cbn [Props.total fold_right]. rewrite length_map, filter_flagged_length.
    destruct (events_stats_levels events) as (H0 & H1 & _). rewrite H0, H1. lia.
Qed.

Variable utcoffset_eastern : datetime -> option Z.
Variable cfg : Config.

Lemma detect_level_of_type (lc : TradeLifecycle.t) (e : TradeEvent.t) :
  In e (detect_events_for_lifecycle utcoffset_eastern cfg lc) ->
  TradeEvent.level e = Props.level_of_type (TradeEvent.event_type e).
Proof.
  destruct (TradeLifecycle.fills lc) as [|f0 fs0] eqn:Ef.
  { rewrite (detect_empty _ _ lc Ef). intros []. }
  assert (Hne : TradeLifecycle.fills lc <> []) by congruence.
  destruct (detect_decomp utcoffset_eastern cfg lc Hne) as (first & rest & _ & Hd).
  rewrite Hd. cbv zeta. rewrite !in_app_iff.
  intros [Hin|[Hin|[Hin|[Hin|[Hin|Hin]]]]].
  - destruct Hin as [<-|[]]. reflexivity.
  - apply close_completed_rule_events in Hin. destruct Hin as [-> ->]. reflexivity.
  - apply stop_loss_rule_events in Hin. destruct Hin as [-> ->]. reflexivity.
  - apply big_loss_rule_events in Hin. destruct Hin as [-> ->]. reflexivity.
  - apply high_leverage_rule_events in Hin. destruct Hin as [-> ->]. reflexivity.
  - apply night_trading_rule_events in Hin. destruct Hin as [-> ->]. reflexivity.
Qed.

Lemma batch_level_of_type (lcs : list TradeLifecycle.t) :
  Forall (fun e => TradeEvent.level e = Props.level_of_type (TradeEvent.event_type e))
         (detect_events_for_lifecycles utcoffset_eastern cfg lcs).
Proof.
  apply Forall_forall. intros e He. rewrite batch_decomp in He.
  apply in_app_iff in He. destruct He as [He|He].
  - apply in_flat_map in He. destruct He as (lc & _ & He).
    apply (detect_level_of_type lc e He).
  - unfold consecutive_losses_rule in He.
    repeat match type of He with
           | In _ (if ?b then _ else _) => destruct b
           | In _ (match ?x with _ => _ end) => destruct x
           end; try destruct He as [<-|[]]; try destruct He; reflexivity.
Qed.

Lemma count_by_type (es : list TradeEvent.t) :
  Forall (fun e => TradeEvent.level e = Props.level_of_type (TradeEvent.event_type e)) es ->
  count_level EventLevel.P0 es
  = Props.count_of TradeEventType.stop_loss_triggered es
    + Props.count_of TradeEventType.big_loss_pct_equity es
    + Props.count_of TradeEventType.consecutive_losses es
  /\ count_level EventLevel.P1 es
     = Props.count_of TradeEventType.high_leverage_used es
       + Props.count_of TradeEventType.night_trading_us_eastern es
  /\ count_level EventLevel.P2 es
     = Props.count_of TradeEventType.open_completed es
       + Props.count_of TradeEventType.close_completed es
  /\ forall ty, Props.count_flagged ty es
                = match Props.level_of_type ty with
                  | EventLevel.P2 => 0
                  | _ => Props.count_of ty es
                  end.
Proof.
  unfold Props.count_of, Props.count_flagged, Spec.count_type.
  induction es as [|e es IH]; intros Hall.
  - cbn. repeat split. intros ty. destruct (Props.level_of_type ty); reflexivity.
  - inversion Hall as [|? ? He Hes]; subst. destruct (IH Hes) as (I0 & I1 & I2 & If).
    rewrite !count_level_cons, I0, I1, I2. cbn [filter]. unfold is_p0_or_p1 at 1.
    rewrite He.
    refine (conj _ (conj _ (conj _ _))).
    1-3: destruct (TradeEvent.event_type e);
      cbn [Props.level_of_type EventLevel.eqb TradeEventType.eqb List.length]; lia.
    intros ty. specialize (If ty).
    destruct (TradeEvent.event_type e) eqn:Ee, ty;
      cbn [Props.level_of_type EventLevel.eqb TradeEventType.eqb orb filter List.length]
        in If |- *;
      rewrite ?Ee; cbn [TradeEventType.eqb List.length]; lia.
Qed.

(** X24.  The level of every event the batch detector returns is fixed by its
    type: the open and close markers are P2, stop-loss, big-loss and
    consecutive-losses events are P0, high-leverage and night-trading
    events are P1.  So on the detector's output the P0, P1 and P2
    statistics are sums of type counts, the pattern dictionary counts
    every event of the five rule types and never has an entry for the
    markers, and the score is 100 minus 20 per P0-type event and 8 per
    P1-type event, floored at 0. *)
Theorem detected_levels_and_statistics :
  forall lcs : list TradeLifecycle.t,
    let events := detect_events_for_lifecycles utcoffset_eastern cfg lcs in
    let st := _events_stats events in
    let patterns := _behavior_patterns events in
    let n ty := Props.count_of ty events in
    Forall (fun e => TradeEvent.level e = Props.level_of_type (TradeEvent.event_type e))
           events
    /\ stats_P0 st = n TradeEventType.stop_loss_triggered
                     + n TradeEventType.big_loss_pct_equity
                     + n TradeEventType.consecutive_losses
    /\ stats_P1 st = n TradeEventType.high_leverage_used
                     + n TradeEventType.night_trading_us_eastern
    /\ stats_P2 st = n TradeEventType.open_completed + n TradeEventType.close_completed
    /\ (forall ty, get patterns (TradeEventType.value ty) 0
                   = match Props.level_of_type ty with
                     | EventLevel.P2 => 0
                     | _ => n ty
                     end)
    /\ ~ In "open_completed"%string (Props.keys patterns)
    /\ ~ In "close_completed"%string (Props.keys patterns)
    /\ score (compute_discipline_score events)
       = Z.max 0 (100 - 20 * (n TradeEventType.stop_loss_triggered
                              + n TradeEventType.big_loss_pct_equity
                              + n TradeEventType.consecutive_losses)
                      - 8 * (n TradeEventType.high_leverage_used
                             + n TradeEventType.night_trading_us_eastern)).
Proof.
  intros lcs events st patterns n. subst st patterns n.
  pose proof (batch_level_of_type lcs) as Hall. fold events in Hall.
  destruct (count_by_type events Hall) as (C0 & C1 & C2 & Cf).
  destruct (events_stats_levels events) as (H0 & H1 & H2).
  destruct (behavior_patterns_keys events) as (Hkeys & Hget).
  assert (Hmarker : forall ty, Props.level_of_type ty = EventLevel.P2 ->
                               ~ In (TradeEventType.value ty)
                                    (Props.keys (_behavior_patterns events))).
  { intros ty Hty Hin. apply Hkeys in Hin. destruct Hin as (e & He & Hf & Hv).
    apply type_value_inj in Hv. rewrite Forall_forall in Hall.
    specialize (Hall e He). rewrite Hv, Hty in Hall.
    unfold is_p0_or_p1 in Hf. rewrite Hall in Hf. discriminate. }
  refine (conj Hall (conj _ (conj _ (conj _ (conj _ (conj _ (conj _ _))))))).
  - rewrite H0. exact C0.
  - rewrite H1. exact C1.
  - rewrite H2. exact C2.
  - intros ty. rewrite Hget. apply Cf.
  - apply (Hmarker TradeEventType.open_completed). reflexivity.
  - apply (Hmarker TradeEventType.close_completed). reflexivity.
  - rewrite score_eq, C0, C1. reflexivity.
Qed.

End ReportStatistics.

(* ================================================================== *)
(** * The ranking of the most costly lifecycles *)
(* ================================================================== *)

Section Ranking.

Import ReportRanking.

Context {A : Type} (key : A -> Q).

Let desc (a b : A) : Prop := (key b <= key a)%Q.

Lemma insert_desc_perm (x : A) (l : list A) :
  Permutation (insert_desc key x l) (x :: l).
Proof.
  induction l as [|y l IH]; cbn [insert_desc]; [apply Permutation_refl|].
  destruct (PyDecimal.ltb (key x) (key y)); [|apply Permutation_refl].
  eapply Permutation_trans; [apply perm_skip, IH | apply perm_swap].
Qed.

Lemma sort_desc_perm (l : list A) : Permutation (sort_desc key l) l.
Proof.
  induction l as [|x l IH]; cbn; [apply perm_nil|].
  eapply Permutation_trans; [apply insert_desc_perm | apply perm_skip, IH].
Qed.

Lemma insert_desc_sorted (x : A) (l : list A) :
  StronglySorted desc l -> StronglySorted desc (insert_desc key x l).
Proof.
  induction l as [|y l IH]; cbn [insert_desc]; intros Hs.
  - constructor; [constructor | constructor].
  - inversion Hs as [|? ? Hs' Hall]; subst.
    destruct (PyDecimal.ltb (key x) (key y)) eqn:E.
    + apply ltb_Qlt in E. constructor; [apply IH, Hs'|].
      eapply Permutation_Forall; [apply Permutation_sym, insert_desc_perm|].
      constructor; [unfold desc; lra | exact Hall].
    + apply ltb_false_Qle in E. constructor; [exact Hs|].
      constructor; [exact E|].
      eapply Forall_impl; [|exact Hall]. unfold desc. intros a Ha. lra.
Qed.

Lemma sort_desc_sorted (l : list A) : StronglySorted desc (sort_desc key l).
Proof.
  induction l as [|x l IH]; cbn; [constructor | apply insert_desc_sorted, IH].
Qed.

Lemma strongly_sorted_app {R : A -> A -> Prop} (l1 l2 : list A) :
  StronglySorted R (l1 ++ l2) ->
  StronglySorted R l1 /\ forall a b, In a l1 -> In b l2 -> R a b.
Proof.
  induction l1 as [|x l1 IH]; cbn [app]; intros Hs.
  - split; [constructor | intros a b []].
  - inversion Hs as [|? ? Hs' Hall]; subst. destruct (IH Hs') as [H1 H2].
    rewrite Forall_forall in Hall. split.
    + constructor; [exact H1|]. apply Forall_forall. intros a Ha.
      apply Hall, in_app_iff. left. exact Ha.
    + intros a b [<-|Ha] Hb; [|apply (H2 a b Ha Hb)].
      apply Hall, in_app_iff. right. exact Hb.
Qed.

Lemma slice_to_firstn (n : Z) (l : list A) :
  exists k, slice_to n l = firstn k l
            /\ Z.of_nat (List.length (slice_to n l))
               = if 0 <=? n then Z.min n (Z.of_nat (List.length l))
                 else Z.max 0 (Z.of_nat (List.length l) + n).
Proof.
  unfold slice_to. destruct (0 <=? n) eqn:E;
    [apply Z.leb_le in E | apply Z.leb_gt in E];
    eexists; (split; [reflexivity|]); rewrite length_firstn; lia.
Qed.

End Ranking.

Section TopCostly.

Import ReportRanking.

Lemma losers_in (lcs : list TradeLifecycle.t) (a : Q) (lc' : TradeLifecycle.t) :
  In (a, lc') (losers lcs)
  <-> exists lc, In lc lcs /\ lc' = TradeLifecycle.recompute lc /\ Props.loses lc a.
Proof.
  unfold losers, Props.loses. rewrite in_flat_map. split.
  - intros (lc & Hlc & Hin). exists lc. split; [exact Hlc|]. cbv zeta in Hin.
    destruct (TradeMetrics.realized_pnl_usdt
                (TradeLifecycle.metrics (TradeLifecycle.recompute lc))) as [pnl|];
      [|destruct Hin].
    destruct (PyDecimal.ltb pnl 0) eqn:E; [|destruct Hin].
    destruct Hin as [[= <- <-]|[]]. split; [reflexivity|].
    exists pnl. apply ltb_Qlt in E. repeat split. exact E.
  - intros (lc & Hlc & -> & pnl & Hp & Hneg & ->). exists lc. split; [exact Hlc|].
    cbv zeta. rewrite Hp. apply ltb_Qlt in Hneg. rewrite Hneg. left. reflexivity.
Qed.

Lemma losers_length (lcs : list TradeLifecycle.t) :
  List.length (losers lcs) = List.length (filter Props.is_loser lcs).
Proof.
  unfold losers. induction lcs as [|lc lcs IH]; [reflexivity|].
  cbn [flat_map filter]. rewrite length_app, IH. unfold Props.is_loser at 2.
  destruct (TradeMetrics.realized_pnl_usdt
              (TradeLifecycle.metrics (TradeLifecycle.recompute lc))) as [pnl|];
    [|reflexivity].
  destruct (PyDecimal.ltb pnl 0); reflexivity.
Qed.

Lemma sorted_map_rows (l : list (Q * TradeLifecycle.t)) :
  StronglySorted (fun a b => (fst b <= fst a)%Q) l -> Props.by_loss_desc (map row_of l).
Proof.
  unfold Props.by_loss_desc. induction 1 as [|x l Hs IH Hall]; cbn [map]; constructor.
  - exact IH.
  - apply Forall_forall. intros r Hr. apply in_map_iff in Hr.
    destruct Hr as (y & <- & Hy). rewrite Forall_forall in Hall. specialize (Hall y Hy).
    destruct x, y. exact Hall.
Qed.


End TopCostly.


(* ================================================================== *)
(** * From fills to events: the aggregator feeding the batch detector *)
(* ================================================================== *)

Section Pipeline.

Import Aggregate Events ReportStats.

Variable isoformat : datetime -> string.
Variables exchange symbol : string.
Variable utcoffset_eastern : datetime -> option Z.
Variable cfg : Config.

Lemma aggregate_built (fills : list ExecutionFill.t) (lc : TradeLifecycle.t) :
  In lc (lifecycles (aggregate_fills_to_lifecycles isoformat exchange symbol fills)) ->
  Props.built_for isoformat exchange symbol lc.
Proof.
  intros Hin. rewrite aggregate_lifecycles_eq in Hin.
  destruct (loop_invariants isoformat exchange symbol fills) as [[Hb Ho] _].
  set (st := fold_left _ _ init_state) in *.
  apply in_app_iff in Hin. destruct Hin as [Hin|Hin].
  - rewrite Forall_forall in Ho. destruct (Ho lc Hin) as (_ & Hbuilt & _). exact Hbuilt.
  - destruct (flushed_in st lc Hin) as (ps & cur & Ecur & ->).
    destruct (Hb ps cur Ecur) as (_ & _ & Hbuilt).
    apply built_for_emit, Hbuilt.
Qed.

Lemma detect_marker_counts (lc : TradeLifecycle.t) :
  TradeLifecycle.fills lc <> [] ->
  Spec.count_type TradeEventType.open_completed
    (detect_events_for_lifecycle utcoffset_eastern cfg lc) = 1%nat
  /\ Spec.count_type TradeEventType.close_completed
       (detect_events_for_lifecycle utcoffset_eastern cfg lc)
     = (if Status.eqb (TradeLifecycle.status lc) Status.closed then 1 else 0)%nat.
Proof.
  intros Hne.
  destruct (detect_decomp utcoffset_eastern cfg lc Hne) as (first & rest & _ & Hd).
  rewrite Hd. cbv zeta. rewrite !count_type_app.
  assert (Hstop : forall ty, ty <> TradeEventType.stop_loss_triggered ->
            Spec.count_type ty (stop_loss_rule (TradeLifecycle.recompute lc)
                                               (first :: rest)) = 0%nat).
  { intros ty Hty. apply count_type_none. intros e He.
    apply stop_loss_rule_events in He. destruct He; congruence. }
  assert (Hbig : forall ty, ty <> TradeEventType.big_loss_pct_equity ->
            Spec.count_type ty (big_loss_rule cfg (TradeLifecycle.recompute lc)
                                              (List.last rest first)) = 0%nat).
  { intros ty Hty. apply count_type_none. intros e He.
    apply big_loss_rule_events in He. destruct He; congruence. }
  assert (Hhigh : forall ty, ty <> TradeEventType.high_leverage_used ->
            Spec.count_type ty (high_leverage_rule cfg (TradeLifecycle.recompute lc)
                                                   first) = 0%nat).
  { intros ty Hty. apply count_type_none. intros e He.
    apply high_leverage_rule_events in He. destruct He; congruence. }
  assert (Hnight : forall ty, ty <> TradeEventType.night_trading_us_eastern ->
            Spec.count_type ty (night_trading_rule utcoffset_eastern cfg
                                  (TradeLifecycle.recompute lc) first) = 0%nat).
  { intros ty Hty. apply count_type_none. intros e He.
    apply night_trading_rule_events in He. destruct He; congruence. }
  rewrite !Hstop, !Hbig, !Hhigh, !Hnight by discriminate.
  unfold close_completed_rule. rewrite recompute_status.
  destruct (Status.eqb (TradeLifecycle.status lc) Status.closed); split; reflexivity.
Qed.

Lemma batch_marker_counts (lcs : list TradeLifecycle.t) :
  Forall (fun lc => TradeLifecycle.fills lc <> []) lcs ->
  Spec.count_type TradeEventType.open_completed
    (detect_events_for_lifecycles utcoffset_eastern cfg lcs) = List.length lcs
  /\ Spec.count_type TradeEventType.close_completed
       (detect_events_for_lifecycles utcoffset_eastern cfg lcs)
     = List.length
         (filter (fun lc => Status.eqb (TradeLifecycle.status lc) Status.closed) lcs).
Proof.
  intros Hall. rewrite batch_decomp, !count_type_app.
  destruct (consecutive_rule_spec cfg (map TradeLifecycle.recompute lcs))
    as (_ & Hty & _).
  rewrite !(count_type_none _ (consecutive_losses_rule _ _))
    by (intros e He; rewrite (Hty e He); discriminate).
  rewrite !Nat.add_0_r. clear Hty.
  induction Hall as [|lc lcs Hne Hall IH]; [split; reflexivity|].
  cbn [flat_map filter]. rewrite !count_type_app.
  destruct IH as [-> ->]. destruct (detect_marker_counts lc Hne) as [-> ->].
  destruct (Status.eqb (TradeLifecycle.status lc) Status.closed); split; reflexivity.
Qed.

Lemma detect_event_owner (lc : TradeLifecycle.t) (e : TradeEvent.t) :
  In e (detect_events_for_lifecycle utcoffset_eastern cfg lc) ->
  TradeEvent.lifecycle_id e = TradeLifecycle.lifecycle_id lc
  /\ TradeEvent.symbol e = TradeLifecycle.symbol lc.
Proof.
  destruct (TradeLifecycle.fills lc) as [|f0 fs0] eqn:Ef.
  { rewrite (detect_empty _ _ lc Ef). intros []. }
  assert (Hne : TradeLifecycle.fills lc <> []) by congruence.
  destruct (detect_decomp utcoffset_eastern cfg lc Hne) as (first & rest & _ & Hd).
  rewrite Hd. cbv zeta.
  destruct (recompute_identity lc) as [Hid Hsym].
  assert (Hmk : forall ty lvl at_ ev,
            TradeEvent.lifecycle_id (mk_event (TradeLifecycle.recompute lc) ty lvl at_ ev)
            = TradeLifecycle.lifecycle_id lc
            /\ TradeEvent.symbol (mk_event (TradeLifecycle.recompute lc) ty lvl at_ ev)
               = TradeLifecycle.symbol lc).
  { intros. cbn [mk_event TradeEvent.lifecycle_id TradeEvent.symbol].
    split; assumption. }
  pose proof (close_completed_rule_shape (TradeLifecycle.recompute lc)
                (List.last rest first)) as H1.
  pose proof (stop_loss_rule_shape (TradeLifecycle.recompute lc) (first :: rest)) as H2.
  pose proof (big_loss_rule_shape cfg (TradeLifecycle.recompute lc)
                (List.last rest first)) as H3.
  pose proof (high_leverage_rule_shape cfg (TradeLifecycle.recompute lc) first) as H4.
  pose proof (night_trading_rule_shape utcoffset_eastern cfg
                (TradeLifecycle.recompute lc) first) as H5.
  rewrite !in_app_iff.
  intros [Hin|[Hin|[Hin|[Hin|[Hin|Hin]]]]].
  - destruct Hin as [<-|[]]. apply Hmk.
  - destruct H1 as [H1 | (? & ? & ? & H1)]; rewrite H1 in Hin;
      [destruct Hin | destruct Hin as [<-|[]]; apply Hmk].
  - destruct H2 as [H2 | (? & ? & ? & H2)]; rewrite H2 in Hin;
      [destruct Hin | destruct Hin as [<-|[]]; apply Hmk].
  - destruct H3 as [H3 | (? & ? & ? & H3)]; rewrite H3 in Hin;
      [destruct Hin | destruct Hin as [<-|[]]; apply Hmk].
  - destruct H4 as [H4 | (? & ? & ? & H4)]; rewrite H4 in Hin;
      [destruct Hin | destruct Hin as [<-|[]]; apply Hmk].
  - destruct H5 as [H5 | (? & ? & ? & H5)]; rewrite H5 in Hin;
      [destruct Hin | destruct Hin as [<-|[]]; apply Hmk].
Qed.

Lemma batch_event_owner (lcs : list TradeLifecycle.t) (e : TradeEvent.t) :
  In e (detect_events_for_lifecycles utcoffset_eastern cfg lcs) ->
  exists lc, In lc lcs
             /\ TradeEvent.lifecycle_id e = TradeLifecycle.lifecycle_id lc
             /\ TradeEvent.symbol e = TradeLifecycle.symbol lc.
Proof.
  rewrite batch_decomp, in_app_iff. intros [He|He].
  - apply in_flat_map in He. destruct He as (lc & Hlc & He).
    exists lc. split; [exact Hlc | apply (detect_event_owner lc e He)].
  - unfold consecutive_losses_rule in He.
    destruct (_ && _); [|destruct He].
    destruct (forallb _ _); [|destruct He].
    destruct (Py.last_opt _) as [last|] eqn:El; [|destruct He].
    destruct He as [<-|[]].
    apply last_opt_in in El. destruct El as [before Hb].
    assert (Hin : In last (Py.lastn (Z.to_nat (consecutive_losses_n cfg))
                             (closed_sorted (map TradeLifecycle.recompute lcs)))).
    { rewrite Hb. apply in_app_iff. right. left. reflexivity. }
    unfold Py.lastn in Hin.
    assert (Hin' : In last (closed_sorted (map TradeLifecycle.recompute lcs))).
    { rewrite <- (firstn_skipn
                    (List.length (closed_sorted (map TradeLifecycle.recompute lcs))
                     - Z.to_nat (consecutive_losses_n cfg))
                    (closed_sorted (map TradeLifecycle.recompute lcs))).
      apply in_app_iff. right. exact Hin. }
    apply considered_exit in Hin'. destruct Hin' as [Hin' _].
    apply in_map_iff in Hin'. destruct Hin' as (lc & <- & Hlc).
    exists lc. split; [exact Hlc|]. cbn [TradeEvent.lifecycle_id TradeEvent.symbol].
    apply recompute_identity.
Qed.

(** X26.  Run on what the aggregator returns for the fills of one symbol, the
    batch detector yields exactly one open_completed event per lifecycle
    and one close_completed event per closed lifecycle, which together
    are the P2 statistic; every event carries the aggregated symbol and
    the identifier of one of the lifecycles; and without fills there is
    no lifecycle and no event. *)
Theorem aggregated_lifecycles_detected :
  forall fills : list ExecutionFill.t,
    let lcs := lifecycles (aggregate_fills_to_lifecycles isoformat exchange symbol fills) in
    let events := detect_events_for_lifecycles utcoffset_eastern cfg lcs in
    let closed :=
      filter (fun lc => Status.eqb (TradeLifecycle.status lc) Status.closed) lcs in
    Props.count_of TradeEventType.open_completed events = Z.of_nat (List.length lcs)
    /\ Props.count_of TradeEventType.close_completed events = Z.of_nat (List.length closed)
    /\ stats_P2 (_events_stats events)
       = Z.of_nat (List.length lcs) + Z.of_nat (List.length closed)
    /\ Forall (fun e => TradeEvent.symbol e = symbol
                        /\ exists lc, In lc lcs
                                      /\ TradeEvent.lifecycle_id e
                                         = TradeLifecycle.lifecycle_id lc) events
    /\ (fills = [] -> lcs = [] /\ events = []).
Proof.
  intros fills lcs events closed. subst events closed.
  assert (Hfills : Forall (fun lc => TradeLifecycle.fills lc <> []) lcs).
  { apply Forall_forall. intros lc Hlc. apply aggregate_built in Hlc.
    destruct Hlc as (_ & _ & _ & first & rest & Hf & _). rewrite Hf. discriminate. }
  destruct (batch_marker_counts lcs Hfills) as [Hopen Hclose].
  destruct (count_by_type _ (batch_level_of_type utcoffset_eastern cfg lcs))
    as (_ & _ & C2 & _).
  destruct (events_stats_levels (detect_events_for_lifecycles utcoffset_eastern cfg lcs))
    as (_ & _ & H2).
  unfold Props.count_of in *.
  refine (conj _ (conj _ (conj _ (conj _ _)))).
  - rewrite Hopen. reflexivity.
  - rewrite Hclose. reflexivity.
  - rewrite H2, C2, Hopen, Hclose. reflexivity.
  - apply Forall_forall. intros e He. apply batch_event_owner in He.
    destruct He as (lc & Hlc & Hid & Hsym). split.
    + rewrite Hsym. apply aggregate_built in Hlc. destruct Hlc as (_ & Hs & _). exact Hs.
    + exists lc. split; assumption.
  - intros ->. subst lcs. split; [reflexivity|].
    cbn. unfold consecutive_losses_rule. cbn.
    destruct (2 <=? consecutive_losses_n cfg) eqn:E2; [|reflexivity].
    destruct (consecutive_losses_n cfg <=? 0) eqn:E0; [|reflexivity].
    apply Z.leb_le in E2, E0. lia.
Qed.

End Pipeline.
